(** * Security and operational-control plane of snowflake-devhub (ByteStash server)

    Shallow embedding of the server's permission engine, permission gate,
    login / registration state machine, user repository statements,
    credential verification, maintenance gate and rate limiter. *)

From Stdlib Require Import ZArith Lia Bool Ascii Sorted.
From stdpp Require Import base gmap strings list pretty.

Open Scope string_scope.
Open Scope Z_scope.

(* ------------------------------------------------------------------ *)
(** ** JavaScript string helpers (ASCII case mapping) *)

Definition ascii_upper (c : ascii) : ascii :=
  let n := nat_of_ascii c in
  if ((97 <=? n)%nat && (n <=? 122)%nat)%bool then ascii_of_nat (n - 32) else c.

Definition ascii_lower (c : ascii) : ascii :=
  let n := nat_of_ascii c in
  if ((65 <=? n)%nat && (n <=? 90)%nat)%bool then ascii_of_nat (n + 32) else c.

(** [String.prototype.toUpperCase] / [toLowerCase] on ASCII text. *)
Fixpoint toUpperCase (s : string) : string :=
  match s with
  | EmptyString => EmptyString
  | String c r => String (ascii_upper c) (toUpperCase r)
  end.

Fixpoint toLowerCase (s : string) : string :=
  match s with
  | EmptyString => EmptyString
  | String c r => String (ascii_lower c) (toLowerCase r)
  end.

(** [String.prototype.startsWith] and [includes]. *)
Fixpoint startsWith (s pre : string) : bool :=
  match pre, s with
  | EmptyString, _ => true
  | String c p, String d r => if Ascii.eqb c d then startsWith r p else false
  | String _ _, EmptyString => false
  end.

Fixpoint includes (s sub : string) : bool :=
  match s with
  | EmptyString => startsWith s sub
  | String _ r => startsWith s sub || includes r sub
  end.

Definition str_in (x : string) (l : list string) : bool :=
  existsb (String.eqb x) l.

(* ------------------------------------------------------------------ *)
(** ** security/permissions.js *)

Module Permissions.

Definition SUPER_ADMIN := "SUPER_ADMIN".
Definition ADMIN := "ADMIN".
Definition MODERATOR := "MODERATOR".
Definition USER := "USER".
Definition READ_ONLY := "READ_ONLY".

Definition SNIPPET_READ_SELF := "snippet.read.self".
Definition SNIPPET_WRITE_SELF := "snippet.write.self".
Definition SNIPPET_DELETE_SELF := "snippet.delete.self".
Definition SNIPPET_PUBLIC_PUBLISH := "snippet.public.publish".
Definition COMMUNITY_VIEW_PUBLIC := "community.view.public".
Definition ADMIN_PANEL_ACCESS := "admin.panel.access".
Definition ADMIN_USERS_READ := "admin.users.read".
Definition ADMIN_USERS_WRITE := "admin.users.write".
Definition ADMIN_SNIPPETS_MODERATE := "admin.snippets.moderate".
Definition ADMIN_SYSTEM_SETTINGS_WRITE := "admin.system.settings.write".
Definition ADMIN_AUDIT_READ := "admin.audit.read".
Definition MODERATION_QUEUE_READ := "moderation.queue.read".
Definition MODERATION_ACTIONS_WRITE := "moderation.actions.write".

(** [Object.values(Permissions)], in declaration order. *)
Definition Permissions_values : list string :=
  [SNIPPET_READ_SELF; SNIPPET_WRITE_SELF; SNIPPET_DELETE_SELF;
   SNIPPET_PUBLIC_PUBLISH; COMMUNITY_VIEW_PUBLIC; ADMIN_PANEL_ACCESS;
   ADMIN_USERS_READ; ADMIN_USERS_WRITE; ADMIN_SNIPPETS_MODERATE;
   ADMIN_SYSTEM_SETTINGS_WRITE; ADMIN_AUDIT_READ; MODERATION_QUEUE_READ;
   MODERATION_ACTIONS_WRITE].

(** The [rolePermissions] object: role name to its permission set. *)
Definition rolePermissions : list (string * list string) :=
  [(SUPER_ADMIN, Permissions_values);
   (ADMIN,
    [SNIPPET_READ_SELF; SNIPPET_WRITE_SELF; SNIPPET_DELETE_SELF;
     SNIPPET_PUBLIC_PUBLISH; COMMUNITY_VIEW_PUBLIC; ADMIN_PANEL_ACCESS;
     ADMIN_USERS_READ; ADMIN_USERS_WRITE; ADMIN_SNIPPETS_MODERATE;
     ADMIN_SYSTEM_SETTINGS_WRITE; ADMIN_AUDIT_READ; MODERATION_QUEUE_READ;
     MODERATION_ACTIONS_WRITE]);
   (MODERATOR,
    [SNIPPET_READ_SELF; SNIPPET_WRITE_SELF; SNIPPET_DELETE_SELF;
     SNIPPET_PUBLIC_PUBLISH; COMMUNITY_VIEW_PUBLIC; ADMIN_PANEL_ACCESS;
     ADMIN_USERS_READ; ADMIN_SNIPPETS_MODERATE; MODERATION_QUEUE_READ;
     MODERATION_ACTIONS_WRITE; ADMIN_AUDIT_READ]);
   (USER,
    [SNIPPET_READ_SELF; SNIPPET_WRITE_SELF; SNIPPET_DELETE_SELF;
     SNIPPET_PUBLIC_PUBLISH; COMMUNITY_VIEW_PUBLIC]);
   (READ_ONLY, [SNIPPET_READ_SELF; COMMUNITY_VIEW_PUBLIC])].

(** [rolePermissions[key]]: an own-property lookup.  Every key produced by
    [normalizeRole] is upper case, so no [Object.prototype] member
    (all of which contain lower-case letters) can be hit. *)
Fixpoint assoc_get (k : string) (l : list (string * list string)) : option (list string) :=
  match l with
  | [] => None
  | (k', v) :: r => if String.eqb k k' then Some v else assoc_get k r
  end.

Definition rolePermissions_get (k : string) : option (list string) :=
  assoc_get k rolePermissions.

(** [normalizeRole(role)]; [None] stands for a falsy input
    ([undefined], [null], [""]). *)
Definition normalizeRole (role : option string) : string :=
  match role with
  | None => USER
  | Some r =>
      if String.eqb r "" then USER
      else
        let normalized := toUpperCase r in
        match rolePermissions_get normalized with
        | Some _ => normalized
        | None => USER
        end
  end.

(** [getPermissionsByRole(role)]. *)
Definition getPermissionsByRole (role : option string) : list string :=
  match rolePermissions_get (normalizeRole role) with
  | Some s => s
  | None =>
      match rolePermissions_get USER with
      | Some s => s
      | None => []
      end
  end.

(** [hasPermission(role, permission)]; [None] is a falsy permission. *)
Definition hasPermission (role : option string) (permission : option string) : bool :=
  match permission with
  | None => false
  | Some p => if String.eqb p "" then false else str_in p (getPermissionsByRole role)
  end.


(** [Array.prototype.sort()] with its default comparator on ASCII text
    (code-unit order), as an insertion sort. *)
Fixpoint insert_sorted (x : string) (l : list string) : list string :=
  match l with
  | [] => [x]
  | y :: r => if String.leb x y then x :: l else y :: insert_sorted x r
  end.

Definition sort_strings (l : list string) : list string := foldr insert_sorted [] l.

(** [getRolePermissionList(role)]: [Array.from(getPermissionsByRole(role)).sort()]. *)
Definition getRolePermissionList (role : option string) : list string :=
  sort_strings (getPermissionsByRole role).
End Permissions.

(* ------------------------------------------------------------------ *)
(** ** Requests, responses and the users table *)

(** A row of the [users] table as read by [UserRepository].  Timestamps are
    milliseconds since the epoch; [locked_until = None] is SQL [NULL].
    [is_active] and [is_admin] are the 0/1 integer columns. *)
Record user := mkUser {
  id : Z;
  username : string;
  username_normalized : string;
  password_hash : string;
  role : string;
  status : string;
  is_active : Z;
  is_admin : Z;
  failed_login_attempts : Z;
  locked_until : option Z;
  force_password_reset : bool;
  session_version : Z;
  last_login_at : option Z
}.

(** The [users] table, keyed by [id]. *)
Abbreviation users_table := (gmap Z user).

(** JSON values appearing in response bodies. *)
Inductive jval :=
  | JStr (s : string)
  | JNum (z : Z)
  | JNull
  | JBool (b : bool)
  | JUser (u : user).

(** An HTTP response produced by a handler or middleware. *)
Record response := mkResponse {
  code : Z;
  body : list (string * jval)
}.

(** Outcome of an Express middleware: call [next()] or answer. *)
Inductive mw_result :=
  | Next
  | Respond (r : response).

(** The authenticated principal attached to [req.user]. *)
Record req_user := mkReqUser {
  ru_id : Z;
  ru_username : string;
  ru_role : option string;
  ru_status : string;
  ru_session_version : Z
}.

(* ------------------------------------------------------------------ *)
(** ** security/aclMiddleware.js *)

Module Acl.
Import Permissions.

(** [requirePermission(permission)] applied to a request whose [req.user]
    is [ru]. *)
Definition requirePermission (permission : option string) (ru : option req_user)
  : mw_result :=
  match ru with
  | None => Respond (mkResponse 401 [("message", JStr "Authentication required")])
  | Some u =>
      let role := normalizeRole (ru_role u) in
      if negb (hasPermission (Some role) permission) then
        Respond (mkResponse 403 [("message", JStr "Insufficient permissions")])
      else Next
  end.


(** [requireAnyPermission(permissions)] applied to a request whose
    [req.user] is [ru]; [None] in [permissions] is a falsy entry. *)
Definition requireAnyPermission (permissions : list (option string)) (ru : option req_user)
  : mw_result :=
  match ru with
  | None => Respond (mkResponse 401 [("message", JStr "Authentication required")])
  | Some u =>
      let role := normalizeRole (ru_role u) in
      let granted := existsb (fun permission => hasPermission (Some role) permission) permissions in
      if negb granted then
        Respond (mkResponse 403 [("message", JStr "Insufficient permissions")])
      else Next
  end.

(** [attachPermissionContext(req, _res, next)]: [req.user] after the
    middleware with the [req.user.permissions] it sets ([None] when there is
    no [req.user]); it always calls [next()]. *)
Definition attachPermissionContext (ru : option req_user) : option (req_user * list string) :=
  match ru with
  | None => None
  | Some u =>
      let r := normalizeRole (ru_role u) in
      Some ({| ru_id := ru_id u; ru_username := ru_username u; ru_role := Some r;
               ru_status := ru_status u; ru_session_version := ru_session_version u |},
            getRolePermissionList (Some r))
  end.
End Acl.

(* ------------------------------------------------------------------ *)
(** ** repositories/userRepository.js *)

Module UserRepository.

(** Run an [UPDATE users SET ... WHERE id = ? AND id != 0] statement:
    [set] rewrites the matching row; the result is the new table and the
    number of changed rows ([result.changes]). *)
Definition update_where_not_anon (db : users_table) (uid : Z) (set : user -> user)
  : users_table * Z :=
  if Z.eqb uid 0 then (db, 0)
  else
    match db !! uid with
    | Some u => (<[uid := set u]> db, 1)
    | None => (db, 0)
    end.

(** Same, for statements filtering on [WHERE id = ?] only. *)
Definition update_where (db : users_table) (uid : Z) (set : user -> user)
  : users_table * Z :=
  match db !! uid with
  | Some u => (<[uid := set u]> db, 1)
  | None => (db, 0)
  end.

(** [updateFailedLoginStmt]: [SET failed_login_attempts = ?, locked_until = ?]. *)
Definition set_failed_login (attempts : Z) (lockedUntil : option Z) (u : user) : user :=
  {| id := id u; username := username u; username_normalized := username_normalized u;
     password_hash := password_hash u; role := role u; status := status u;
     is_active := is_active u; is_admin := is_admin u;
     failed_login_attempts := attempts; locked_until := lockedUntil;
     force_password_reset := force_password_reset u;
     session_version := session_version u; last_login_at := last_login_at u |}.

(** [updateLastLoginStmt]: [SET last_login_at = CURRENT_TIMESTAMP,
    failed_login_attempts = 0, locked_until = NULL]. *)
Definition set_last_login (now : Z) (u : user) : user :=
  {| id := id u; username := username u; username_normalized := username_normalized u;
     password_hash := password_hash u; role := role u; status := status u;
     is_active := is_active u; is_admin := is_admin u;
     failed_login_attempts := 0; locked_until := None;
     force_password_reset := force_password_reset u;
     session_version := session_version u; last_login_at := Some now |}.

(** [unlockUserStmt]: [SET failed_login_attempts = 0, locked_until = NULL,
    status = 'ACTIVE']. *)
Definition set_unlocked (u : user) : user :=
  {| id := id u; username := username u; username_normalized := username_normalized u;
     password_hash := password_hash u; role := role u; status := "ACTIVE";
     is_active := is_active u; is_admin := is_admin u;
     failed_login_attempts := 0; locked_until := None;
     force_password_reset := force_password_reset u;
     session_version := session_version u; last_login_at := last_login_at u |}.

(** [incrementSessionVersionStmt]: [SET session_version = session_version + 1]. *)
Definition set_session_bumped (u : user) : user :=
  {| id := id u; username := username u; username_normalized := username_normalized u;
     password_hash := password_hash u; role := role u; status := status u;
     is_active := is_active u; is_admin := is_admin u;
     failed_login_attempts := failed_login_attempts u; locked_until := locked_until u;
     force_password_reset := force_password_reset u;
     session_version := session_version u + 1; last_login_at := last_login_at u |}.

(** [findById(id)] / [findByIdStmt]. *)
Definition findById (db : users_table) (uid : Z) : option user := db !! uid.

(** [findByUsername(username)]: [findByUsernameStmt.get(username.toLowerCase())],
    whose [WHERE username_normalized = ? COLLATE NOCASE] folds the ASCII
    letters of both sides. *)
Definition findByUsername (db : users_table) (name : string) : option user :=
  let param := toLowerCase name in
  match list_find (fun kv : Z * user => toLowerCase (username_normalized kv.2) = toLowerCase param)
                  (map_to_list db) with
  | Some (_, (_, u)) => Some u
  | None => None
  end.

(** [verifyPassword(user, password)]; [compare] is [bcrypt.compare]. *)
Definition verifyPassword (compare : string -> string -> bool) (u : option user)
  (password : string) : bool :=
  match u with
  | None => false
  | Some u => if String.eqb (password_hash u) "" then false else compare password (password_hash u)
  end.

(** The largest time value a [Date] holds, in ms either side of the epoch;
    [toISOString()] throws a [RangeError] on any other value. *)
Definition maxTimeValue : Z := 8640000000000000.

Definition validTime (t : Z) : bool := Z.leb (Z.abs t) maxTimeValue.

(** [recordFailedLogin(user, { maxAttempts, lockoutMinutes })] at time [now]
    ([Date.now()]), on integer settings.  The computed [lockedUntil] is
    stored as the UTC text of that instant ([toISOString()] without ['T']
    and ['Z']); here it is the instant itself.  [None] is the [RangeError]
    thrown by [toISOString()] when that instant is not a valid time value
    (a non-finite [lockoutMinutes] throws the same way): the statement is
    then never run. *)
Definition recordFailedLogin (db : users_table) (u : option user)
  (maxAttempts lockoutMinutes now : Z) : option users_table :=
  match u with
  | None => Some db
  | Some u =>
      let currentAttempts := failed_login_attempts u in
      let nextAttempts := currentAttempts + 1 in
      let lockedUntil :=
        if Z.geb nextAttempts maxAttempts
        then Some (now + Z.max 1 lockoutMinutes * 60 * 1000)
        else None in
      match lockedUntil with
      | Some t => if validTime t then Some (fst (update_where db (id u)
                                          (set_failed_login nextAttempts lockedUntil)))
                  else None
      | None => Some (fst (update_where db (id u) (set_failed_login nextAttempts lockedUntil)))
      end
  end.

(** [updateLastLogin(userId)] at time [now]. *)
Definition updateLastLogin (db : users_table) (uid now : Z) : users_table :=
  fst (update_where db uid (set_last_login now)).

(** [unlockUser(userId)]: the new table and the returned user ([null] when
    no row changed). *)
Definition unlockUser (db : users_table) (uid : Z) : users_table * option user :=
  let '(db', changes) := update_where_not_anon db uid set_unlocked in
  if Z.eqb changes 0 then (db', None) else (db', findById db' uid).



(** [resetFailedLoginStmt]: [SET failed_login_attempts = 0, locked_until = NULL]. *)
Definition set_failed_reset (u : user) : user := set_failed_login 0 None u.

(** [updateStatusStmt]: [SET status = ?, is_active = CASE WHEN ? = 'SUSPENDED'
    THEN 0 ELSE 1 END]. *)
Definition set_status (st : string) (u : user) : user :=
  {| id := id u; username := username u; username_normalized := username_normalized u;
     password_hash := password_hash u; role := role u; status := st;
     is_active := if String.eqb st "SUSPENDED" then 0 else 1; is_admin := is_admin u;
     failed_login_attempts := failed_login_attempts u; locked_until := locked_until u;
     force_password_reset := force_password_reset u;
     session_version := session_version u; last_login_at := last_login_at u |}.

(** [updateRoleStmt]: [SET role = ?, is_admin = CASE WHEN ? IN ('SUPER_ADMIN',
    'ADMIN') THEN 1 ELSE 0 END]. *)
Definition set_role (r : string) (u : user) : user :=
  {| id := id u; username := username u; username_normalized := username_normalized u;
     password_hash := password_hash u; role := r; status := status u;
     is_active := is_active u;
     is_admin := if str_in r ["SUPER_ADMIN"; "ADMIN"] then 1 else 0;
     failed_login_attempts := failed_login_attempts u; locked_until := locked_until u;
     force_password_reset := force_password_reset u;
     session_version := session_version u; last_login_at := last_login_at u |}.

(** [setForcePasswordResetStmt]: [SET force_password_reset = ?,
    session_version = session_version + 1]. *)
Definition set_force_reset (b : bool) (u : user) : user :=
  {| id := id u; username := username u; username_normalized := username_normalized u;
     password_hash := password_hash u; role := role u; status := status u;
     is_active := is_active u; is_admin := is_admin u;
     failed_login_attempts := failed_login_attempts u; locked_until := locked_until u;
     force_password_reset := b;
     session_version := session_version u + 1; last_login_at := last_login_at u |}.

(** [updatePasswordStmt]: [SET password_hash = ?]. *)
Definition set_password_hash (h : string) (u : user) : user :=
  {| id := id u; username := username u; username_normalized := username_normalized u;
     password_hash := h; role := role u; status := status u;
     is_active := is_active u; is_admin := is_admin u;
     failed_login_attempts := failed_login_attempts u; locked_until := locked_until u;
     force_password_reset := force_password_reset u;
     session_version := session_version u; last_login_at := last_login_at u |}.

(** [resetFailedLoginAttempts(userId)]. *)
Definition resetFailedLoginAttempts (db : users_table) (uid : Z) : users_table :=
  fst (update_where db uid set_failed_reset).

(** [updateRole(userId, role)]. *)
Definition updateRole (db : users_table) (uid : Z) (r : string) : users_table * option user :=
  let '(db', changes) := update_where_not_anon db uid (set_role r) in
  if Z.eqb changes 0 then (db', None) else (db', findById db' uid).

(** [updateStatus(userId, status)]. *)
Definition updateStatus (db : users_table) (uid : Z) (st : string) : users_table * option user :=
  let '(db', changes) := update_where_not_anon db uid (set_status st) in
  if Z.eqb changes 0 then (db', None) else (db', findById db' uid).

(** [setForcePasswordReset(userId, forcePasswordReset)] ([forcePasswordReset]
    is the truthiness of the argument). *)
Definition setForcePasswordReset (db : users_table) (uid : Z) (forcePasswordReset : bool)
  : users_table * bool :=
  let '(db', changes) := update_where_not_anon db uid (set_force_reset forcePasswordReset) in
  (db', Z.gtb changes 0).

(** [updatePassword(userId, newPassword)]; [hash] is [bcrypt.hash] and
    [None] the thrown "User not found or password not updated". *)
Definition updatePassword (hash : string -> string) (db : users_table) (uid : Z)
  (newPassword : string) : option users_table :=
  let '(db', changes) := update_where db uid (set_password_hash (hash newPassword)) in
  if Z.eqb changes 0 then None else Some db'.

(** [findUsernameCountStmt.get(username.toLowerCase()).count]:
    [WHERE username_normalized = ? COLLATE NOCASE], the NOCASE collation
    folding ASCII letters on both sides. *)
Definition findUsernameCount (db : users_table) (name : string) : nat :=
  let param := toLowerCase name in
  length (filter (fun kv : Z * user => toLowerCase (username_normalized kv.2) = toLowerCase param)
                 (map_to_list db)).

(** The [while] loop of [generateUniqueUsername], at most [fuel] more
    iterations. *)
Fixpoint generate_loop (db : users_table) (baseUsername : string) (fuel : nat)
  (counter : N) (name : string) : string :=
  match fuel with
  | O => name
  | S f =>
      if Nat.ltb 0 (findUsernameCount db name) then
        generate_loop db baseUsername f (counter + 1)%N (baseUsername ++ pretty counter)
      else name
  end.

(** [generateUniqueUsername(baseUsername)].  A table of [size db] rows takes
    at most [size db] of the pairwise distinct candidates, so the loop ends
    within [size db + 1] tests; that is the fuel given here. *)
Definition generateUniqueUsername (db : users_table) (baseUsername : string) : string :=
  generate_loop db baseUsername (S (size db)) 1%N baseUsername.
End UserRepository.

(* ------------------------------------------------------------------ *)
(** ** middleware/auth.js *)

Module Auth.

(** The signed payload of a session token. *)
Record payload := mkPayload {
  p_id : Z;
  p_username : string;
  p_role : string;
  p_status : string;
  p_sessionVersion : Z
}.

(** A session token: one signed with the server's [JWT_SECRET], or any
    other string (forged, malformed, or signed with another key).
    Expiry is not modelled: a signed token is taken to be unexpired. *)
Inductive token :=
  | Signed (p : payload)
  | Forged (s : string).

(** [jwt.verify(token, JWT_SECRET)]; [None] is the thrown error. *)
Definition jwt_verify (t : token) : option payload :=
  match t with
  | Signed p => Some p
  | Forged _ => None
  end.

(** [x || 1] on a numeric column, [s || d] on a string. *)
Definition or1 (z : Z) : Z := if Z.eqb z 0 then 1 else z.
Definition or_str (d s : string) : string := if String.eqb s "" then d else s.

(** [createSessionToken(user)] (no extra payload). *)
Definition createSessionToken (u : user) : token :=
  Signed {| p_id := id u; p_username := username u;
            p_role := or_str "USER" (role u); p_status := or_str "ACTIVE" (status u);
            p_sessionVersion := or1 (session_version u) |}.

(** [getOrCreateAnonymousUser()]; [name] is the random [anon-...] name. *)
Definition getOrCreateAnonymousUser (db : users_table) (name : string) : user * users_table :=
  match db !! 0 with
  | Some u => (u, db)
  | None =>
      let u := {| id := 0; username := name; username_normalized := toLowerCase name;
                  password_hash := ""; role := "READ_ONLY"; status := "ACTIVE";
                  is_active := 1; is_admin := 0; failed_login_attempts := 0;
                  locked_until := None; force_password_reset := false;
                  session_version := 1; last_login_at := None |} in
      (u, <[0 := u]> db)
  end.

(** The request as seen by [authenticateToken]: [req.user] and [req.apiKey]
    set by the API-key middleware, and the token found in the
    [bytestashauth] header or the [bytestash_token] cookie. *)
Record auth_request := mkAuthRequest {
  ar_user : option req_user;
  ar_apiKey : bool;
  ar_token : option token
}.

Inductive auth_result :=
  | AuthNext (ru : req_user)
  | AuthRespond (r : response).

Definition err (c : Z) (msg : string) : response := mkResponse c [("error", JStr msg)].

Definition req_user_of (u : user) : req_user :=
  {| ru_id := id u; ru_username := username u; ru_role := Some (role u);
     ru_status := status u; ru_session_version := session_version u |}.

(** The token branch of [authenticateToken] (after the API-key and
    [DISABLE_ACCOUNTS] branches). *)
Definition verifyRequestToken (db : users_table) (tok : option token) : auth_result :=
  match tok with
  | None => AuthRespond (err 401 "Authentication required")
  | Some t =>
      match jwt_verify t with
      | None => AuthRespond (err 403 "Invalid token")
      | Some decoded =>
          match UserRepository.findById db (p_id decoded) with
          | None => AuthRespond (err 401 "User not found")
          | Some dbUser =>
              if String.eqb (status dbUser) "SUSPENDED" || Z.eqb (is_active dbUser) 0
              then AuthRespond (err 403 "Account suspended")
              else if negb (Z.eqb (or1 (p_sessionVersion decoded)) (or1 (session_version dbUser)))
              then AuthRespond (err 401 "Session expired")
              else AuthNext {| ru_id := id dbUser; ru_username := username dbUser;
                               ru_role := Some (or_str "USER" (role dbUser));
                               ru_status := or_str "ACTIVE" (status dbUser);
                               ru_session_version := or1 (session_version dbUser) |}
          end
      end
  end.

(** [authenticateToken(req, res, next)] with [DISABLE_ACCOUNTS =
    disableAccounts]; [anonName] is the random name used if the anonymous
    user has to be created. *)
Definition authenticateToken (disableAccounts : bool) (anonName : string)
  (db : users_table) (req : auth_request) : auth_result * users_table :=
  match ar_user req with
  | Some ru => if ar_apiKey req then (AuthNext ru, db) else
      if disableAccounts then
        let '(anon, db') := getOrCreateAnonymousUser db anonName in
        (AuthNext (req_user_of anon), db')
      else (verifyRequestToken db (ar_token req), db)
  | None =>
      if disableAccounts then
        let '(anon, db') := getOrCreateAnonymousUser db anonName in
        (AuthNext (req_user_of anon), db')
      else (verifyRequestToken db (ar_token req), db)
  end.

End Auth.

(* ------------------------------------------------------------------ *)
(** ** routes/authRoutes.js: registration and login *)

Module AuthRoutes.
Import Auth.

(** Observable calls made by a route handler, in order. *)
Inductive effect :=
  | EffAudit (action : string)
  | EffVerifyPassword
  | EffRecordFailedLogin
  | EffUpdateLastLogin
  | EffCreateUser (role status : string).

(** What a route handler produces: the response, the session token set as
    cookie and returned (if any), the new users table and its calls. *)
Record route_out := mkOut {
  out_resp : response;
  out_token : option token;
  out_db : users_table;
  out_effects : list effect
}.

Definition OPEN := "OPEN".
Definition APPROVAL := "APPROVAL".
Definition CLOSED := "CLOSED".

(** [normalizeRegistrationMode(mode)] on the [registration.mode] setting. *)
Definition normalizeRegistrationMode (mode : string) : string :=
  let upper := toUpperCase mode in
  if str_in upper [OPEN; APPROVAL; CLOSED] then upper else OPEN.

(** [SELECT COUNT( * ) FROM users WHERE id != 0]. *)
Definition userCount (db : users_table) : nat :=
  length (filter (fun kv : Z * user => kv.1 <> 0) (map_to_list db)).

(** [isLocked(user)] at time [now] on a server whose local time is
    [tzOffset] ms ahead of UTC.  [locked_until] holds the UTC text
    ["YYYY-MM-DD HH:MM:SS.sss"] of the instant [t]; [new Date(text)] reads
    a date-time without offset as local time, so [getTime()] gives
    [t - tzOffset]. *)
Definition isLocked (tzOffset : Z) (u : user) (now : Z) : bool :=
  match locked_until u with
  | None => false
  | Some t => Z.gtb (t - tzOffset) now
  end.

(** The [UNIQUE] constraint on [username_normalized], for a new name. *)
Definition username_taken (db : users_table) (name : string) : bool :=
  existsb (fun kv : Z * user => String.eqb (username_normalized kv.2) (toLowerCase name))
          (map_to_list db).

(** Modelled from the spec: [userService.createUser] (services/userService.js
    is not part of the sources).  It creates the account through
    [UserRepository.create]: the insert fails with "Username already exists"
    when the normalized name is taken; otherwise a row with the requested
    role and status ([options.role || "USER"], [options.status || "ACTIVE"])
    and column defaults is inserted under the next row id. *)
Definition createUser (hash : string -> string) (db : users_table)
  (name password optRole optStatus : string) : option (user * users_table) :=
  let normalized := toLowerCase name in
  if username_taken db name then None
  else
    let newId := 1 + foldr Z.max 0 (map fst (map_to_list db)) in
    let u := {| id := newId; username := name; username_normalized := normalized;
                password_hash := hash password; role := or_str "USER" optRole;
                status := or_str "ACTIVE" optStatus; is_active := 1; is_admin := 0;
                failed_login_attempts := 0; locked_until := None;
                force_password_reset := false; session_version := 1;
                last_login_at := None |} in
    Some (u, <[newId := u]> db).

(** [router.post('/register')] with [DISABLE_INTERNAL_ACCOUNTS =
    disableInternal] and [registration.mode = modeSetting]. *)
Definition register (disableInternal : bool) (hash : string -> string)
  (modeSetting : string) (db : users_table) (name password : string) : route_out :=
  if disableInternal then
    mkOut (err 403 "Internal account registration is disabled") None db []
  else
    let hasUsers := Nat.ltb 0 (userCount db) in
    let registrationMode := normalizeRegistrationMode modeSetting in
    let '(desired, refused) :=
      if negb hasUsers then (("SUPER_ADMIN", "ACTIVE"), false)
      else if String.eqb registrationMode CLOSED then (("USER", "ACTIVE"), true)
      else if String.eqb registrationMode APPROVAL then (("USER", "PENDING"), false)
      else (("USER", "ACTIVE"), false) in
    let '(desiredRole, desiredStatus) := desired in
    if refused then mkOut (err 403 "New account registration is closed") None db []
    else
      match createUser hash db name password desiredRole desiredStatus with
      | None => mkOut (err 400 "Username already exists") None db
                      [EffCreateUser desiredRole desiredStatus]
      | Some (u, db') =>
          let effs := [EffCreateUser desiredRole desiredStatus; EffAudit "user.registration"] in
          if String.eqb desiredStatus "PENDING" then
            mkOut (mkResponse 202 [("pendingApproval", JBool true);
                                   ("message", JStr "Registration submitted and awaiting admin approval");
                                   ("user", JUser u)]) None db' effs
          else
            let t := createSessionToken u in
            mkOut (mkResponse 200 [("user", JUser u)]) (Some t) db' effs
      end.

(** The lockout policy read from [getFoundationSettings().security.lockout]. *)
Record lockout_policy := mkPolicy {
  maxAttempts : Z;
  durationMinutes : Z
}.

(** [router.post('/login')] at time [now] on a server [tzOffset] ms ahead
    of UTC; [compare] is [bcrypt.compare].  An exception thrown inside the
    handler is answered 500 by its [catch]. *)
Definition login (disableInternal : bool) (compare : string -> string -> bool)
  (policy : lockout_policy) (tzOffset now : Z) (db : users_table) (name password : string)
  : route_out :=
  if disableInternal then mkOut (err 403 "Internal accounts are disabled") None db []
  else
    match UserRepository.findByUsername db name with
    | None => mkOut (err 401 "Invalid credentials") None db [EffAudit "auth.login.failed"]
    | Some u =>
        if isLocked tzOffset u now then
          mkOut (mkResponse 423
                   [("error", JStr "Account temporarily locked due to failed login attempts");
                    ("lockedUntil", match locked_until u with Some t => JNum t | None => JNull end)])
                None db [EffAudit "auth.login.blocked"]
        else if negb (UserRepository.verifyPassword compare (Some u) password) then
          match UserRepository.recordFailedLogin db (Some u)
                  (maxAttempts policy) (durationMinutes policy) now with
          | None => mkOut (err 500 "An error occurred during login") None db
                          [EffVerifyPassword; EffRecordFailedLogin]
          | Some db' =>
              mkOut (err 401 "Invalid credentials") None db'
                    [EffVerifyPassword; EffRecordFailedLogin; EffAudit "auth.login.failed"]
          end
        else if String.eqb (status u) "PENDING" then
          mkOut (err 403 "Account pending approval") None db
                [EffVerifyPassword; EffAudit "auth.login.blocked"]
        else if String.eqb (status u) "SUSPENDED" || Z.eqb (is_active u) 0 then
          mkOut (err 403 "Account suspended") None db
                [EffVerifyPassword; EffAudit "auth.login.blocked"]
        else
          let db' := UserRepository.updateLastLogin db (id u) now in
          match UserRepository.findById db' (id u) with
          | None => mkOut (err 500 "An error occurred during login") None db'
                          [EffVerifyPassword; EffUpdateLastLogin]
          | Some refreshed =>
              mkOut (mkResponse 200 [("user", JUser refreshed)])
                    (Some (createSessionToken refreshed)) db'
                    [EffVerifyPassword; EffUpdateLastLogin; EffAudit "auth.login.success"]
          end
    end.

End AuthRoutes.

(* ------------------------------------------------------------------ *)
(** ** Maintenance-mode middleware (src/unnamed/part_001): [maintenanceModeGuard] *)

Module Maintenance.
Import Auth.

Definition BypassApiPrefixes : list string :=
  ["/api/auth/config"; "/api/auth/login"; "/api/auth/oidc"].

(** [isMaintenanceEnabled()] on the [maintenance.mode] setting. *)
Definition isMaintenanceEnabled (mode : string) : bool :=
  str_in (toUpperCase mode) ["ON"; "TRUE"; "1"; "ENABLED"].

(** [getTokenFromRequest(req)]: the second word of the [bytestashauth]
    header, else the [bytestash_token] cookie. *)
Definition getTokenFromRequest (headerToken cookieToken : option token) : option token :=
  match headerToken with
  | Some t => Some t
  | None => cookieToken
  end.

(** [hasBypassPath(basePath, requestPath)]. *)
Definition hasBypassPath (basePath requestPath : string) : bool :=
  if includes requestPath "/api-docs" then true
  else existsb (fun prefix => startsWith requestPath (basePath ++ prefix)) BypassApiPrefixes.

Definition maintenance_503 : mw_result :=
  Respond (err 503 "Maintenance mode is enabled").

(** [maintenanceModeGuard(req, res, next)] with [BASE_PATH = basePath]. *)
Definition maintenanceModeGuard (mode basePath path : string)
  (headerToken cookieToken : option token) (db : users_table) : mw_result :=
  if negb (isMaintenanceEnabled mode) then Next
  else if negb (startsWith path (basePath ++ "/api")) && negb (includes path "/api-docs") then Next
  else if hasBypassPath basePath path then Next
  else
    match getTokenFromRequest headerToken cookieToken with
    | None => maintenance_503
    | Some t =>
        match jwt_verify t with
        | None => maintenance_503
        | Some decoded =>
            let r := toUpperCase (match UserRepository.findById db (p_id decoded) with
                                  | Some u => or_str "" (role u)
                                  | None => ""
                                  end) in
            if String.eqb r "SUPER_ADMIN" || String.eqb r "ADMIN" then Next
            else maintenance_503
        end
    end.

End Maintenance.

(* ------------------------------------------------------------------ *)
(** ** Rate-limit middleware (src/unnamed/part_002): [createRateLimiter] *)

Module RateLimiter.

Record bucket := mkBucket {
  count : Z;
  windowStart : Z;
  windowMs : Z
}.

(** The [buckets] map, keyed by [`${scope}:${clientIp}`]. *)
Abbreviation buckets_map := (gmap string bucket).

(** [getFoundationSettings().security.rateLimit]. *)
Record rate_config := mkRateConfig {
  cfg_windowMs : Z;
  authMax : Z;
  publicMax : Z;
  generalMax : Z
}.

(** [getScopeLimit(scope, rateConfig)]. *)
Definition getScopeLimit (scope : string) (c : rate_config) : Z :=
  if String.eqb scope "auth" then authMax c
  else if String.eqb scope "public" then publicMax c
  else generalMax c.

Definition bucket_key (scope clientIp : string) : string := scope ++ ":" ++ clientIp.

(** [Math.ceil(x / 1000)] on an integer number of milliseconds. *)
Definition ceil_div1000 (x : Z) : Z := - ((- x) / 1000).

(** Headers set on the response, with their numeric values. *)
Abbreviation headers := (list (string * Z)).

(** One request through [createRateLimiter(scope)] at time [now] from
    [clientIp]: the new bucket map, the headers set, and the outcome. *)
Definition rateLimit (scope : string) (c : rate_config) (now : Z) (clientIp : string)
  (buckets : buckets_map) : buckets_map * headers * mw_result :=
  let wms := cfg_windowMs c in
  let limit := getScopeLimit scope c in
  let key := bucket_key scope clientIp in
  match buckets !! key with
  | Some existing =>
      if Z.geb (now - windowStart existing) wms then
        (<[key := mkBucket 1 now wms]> buckets,
         [("X-RateLimit-Limit", limit); ("X-RateLimit-Remaining", limit - 1)], Next)
      else
        let existing' := mkBucket (count existing + 1) (windowStart existing) (windowMs existing) in
        let buckets' := <[key := existing']> buckets in
        let remaining := Z.max 0 (limit - count existing') in
        let hs := [("X-RateLimit-Limit", limit); ("X-RateLimit-Remaining", remaining)] in
        if Z.gtb (count existing') limit then
          let retryAfterSeconds := ceil_div1000 (windowStart existing' + wms - now) in
          (buckets', (hs ++ [("Retry-After", Z.max 1 retryAfterSeconds)])%list,
           Respond (mkResponse 429 [("error", JStr "Too many requests"); ("scope", JStr scope)]))
        else (buckets', hs, Next)
  | None =>
      (<[key := mkBucket 1 now wms]> buckets,
       [("X-RateLimit-Limit", limit); ("X-RateLimit-Remaining", limit - 1)], Next)
  end.

End RateLimiter.

(* ------------------------------------------------------------------ *)
(** ** Admin router (src/unnamed/part_004): user administration *)

Module AdminRoutes.
Import Auth.

(** Modelled from the spec: [adminRepository] (repositories/adminRepository.js
    is not part of the sources).  Following the spec's account-security
    transitions, an admin status change, role change, session reset and
    force-password-reset each update the target row and increment its
    [sessionVersion]; like the [UserRepository] statements they never touch
    the anonymous user [id = 0].  Each returns the updated user, or [null]
    when no row changed. *)
Definition admin_update (db : users_table) (uid : Z) (set : user -> user)
  : users_table * option user :=
  let '(db', changes) :=
    UserRepository.update_where_not_anon db uid
      (fun u => UserRepository.set_session_bumped (set u)) in
  if Z.eqb changes 0 then (db', None) else (db', UserRepository.findById db' uid).

Definition with_status (st : string) (u : user) : user :=
  {| id := id u; username := username u; username_normalized := username_normalized u;
     password_hash := password_hash u; role := role u; status := st;
     is_active := if String.eqb st "SUSPENDED" then 0 else 1; is_admin := is_admin u;
     failed_login_attempts := failed_login_attempts u; locked_until := locked_until u;
     force_password_reset := force_password_reset u;
     session_version := session_version u; last_login_at := last_login_at u |}.

Definition with_role (r : string) (u : user) : user :=
  {| id := id u; username := username u; username_normalized := username_normalized u;
     password_hash := password_hash u; role := r; status := status u;
     is_active := is_active u;
     is_admin := if str_in r ["SUPER_ADMIN"; "ADMIN"] then 1 else 0;
     failed_login_attempts := failed_login_attempts u; locked_until := locked_until u;
     force_password_reset := force_password_reset u;
     session_version := session_version u; last_login_at := last_login_at u |}.

Definition with_force_reset (b : bool) (u : user) : user :=
  {| id := id u; username := username u; username_normalized := username_normalized u;
     password_hash := password_hash u; role := role u; status := status u;
     is_active := is_active u; is_admin := is_admin u;
     failed_login_attempts := failed_login_attempts u; locked_until := locked_until u;
     force_password_reset := b;
     session_version := session_version u; last_login_at := last_login_at u |}.

Definition setUserStatus (db : users_table) (uid : Z) (st : string) := admin_update db uid (with_status st).
Definition setUserRole (db : users_table) (uid : Z) (r : string) := admin_update db uid (with_role r).
Definition resetUserSessions (db : users_table) (uid : Z) := admin_update db uid (fun u => u).
Definition setForcePasswordReset (db : users_table) (uid : Z) (b : bool) :=
  admin_update db uid (with_force_reset b).

(** What an admin route produces: response, new table, audit actions. *)
Record admin_out := mkAdminOut {
  a_resp : response;
  a_db : users_table;
  a_audit : list string
}.

Definition msg (c : Z) (m : string) : response := mkResponse c [("message", JStr m)].

Definition editableRoles : list string := ["SUPER_ADMIN"; "ADMIN"; "MODERATOR"; "USER"; "READ_ONLY"].
Definition editableStatuses : list string := ["PENDING"; "ACTIVE"; "SUSPENDED"].

(** [assertNotSelfMutation(req, userId)]. *)
Definition assertNotSelfMutation (actorId userId : Z) : option string :=
  if Z.eqb userId actorId then Some "Cannot modify your own account in this action" else None.

Definition user_json (u : option user) : jval :=
  match u with Some u => JUser u | None => JNull end.

(** [PATCH /users/:id/status]: [actorId] is [req.user.id], [userId] the
    parsed [:id], [bodyStatus] is [req.body.status] ([""] when absent). *)
Definition patchStatus (actorId userId : Z) (bodyStatus : string) (db : users_table) : admin_out :=
  let st := toUpperCase bodyStatus in
  match assertNotSelfMutation actorId userId with
  | Some e => mkAdminOut (msg 400 e) db []
  | None =>
      if negb (str_in st editableStatuses) then mkAdminOut (msg 400 "Invalid status value") db []
      else
        let '(db', u) := setUserStatus db userId st in
        mkAdminOut (mkResponse 200 [("user", user_json u)]) db'
          [if String.eqb st "ACTIVE" then "admin.user.approve" else "admin.user.status_change"]
  end.

(** [PATCH /users/:id/role]. *)
Definition patchRole (actorId userId : Z) (bodyRole : string) (db : users_table) : admin_out :=
  let r := toUpperCase bodyRole in
  match assertNotSelfMutation actorId userId with
  | Some e => mkAdminOut (msg 400 e) db []
  | None =>
      if negb (str_in r editableRoles) then mkAdminOut (msg 400 "Invalid role value") db []
      else
        let '(db', u) := setUserRole db userId r in
        mkAdminOut (mkResponse 200 [("user", user_json u)]) db' ["admin.user.role_change"]
  end.

(** [PATCH /users/:id/reset-sessions]. *)
Definition patchResetSessions (actorId userId : Z) (db : users_table) : admin_out :=
  match assertNotSelfMutation actorId userId with
  | Some e => mkAdminOut (msg 400 e) db []
  | None =>
      let '(db', u) := resetUserSessions db userId in
      mkAdminOut (mkResponse 200 [("user", user_json u)]) db' ["admin.user.reset_sessions"]
  end.

(** A [req.body] field: absent, a JSON boolean, or another value given by
    its [String(...)] text. *)
Inductive body_value :=
  | BAbsent
  | BBool (b : bool)
  | BText (s : string).

(** [normalizeBool(value, fallback)]. *)
Definition normalizeBool (v : body_value) (fallback : bool) : bool :=
  match v with
  | BAbsent => fallback
  | BBool b => b
  | BText s => str_in (toLowerCase s) ["true"; "1"; "yes"; "on"]
  end.

(** [PATCH /users/:id/force-password-reset]. *)
Definition patchForcePasswordReset (actorId userId : Z) (v : body_value) (db : users_table)
  : admin_out :=
  let b := normalizeBool v true in
  let '(db', u) := setForcePasswordReset db userId b in
  mkAdminOut (mkResponse 200 [("user", user_json u)]) db' ["admin.user.force_password_reset"].

End AdminRoutes.

(* ------------------------------------------------------------------ *)
(** ** More JavaScript string helpers *)

(** [String.prototype.split(sep)] with a one-character separator. *)
Fixpoint js_split (sep : ascii) (s : string) : list string :=
  match s with
  | EmptyString => [EmptyString]
  | String c r =>
      let parts := js_split sep r in
      if Ascii.eqb c sep then EmptyString :: parts
      else match parts with
           | [] => [String c EmptyString]
           | w :: ws => String c w :: ws
           end
  end.

(** [s.split(sep)[0]]. *)
Definition first_part (sep : ascii) (s : string) : string := hd "" (js_split sep s).

(** The white-space characters [String.prototype.trim] removes, on ASCII
    text: tab, line feed, vertical tab, form feed, carriage return, space. *)
Definition is_ws (c : ascii) : bool :=
  let n := nat_of_ascii c in ((9 <=? n)%nat && (n <=? 13)%nat) || (n =? 32)%nat.

Fixpoint trim_start (s : string) : string :=
  match s with
  | EmptyString => EmptyString
  | String c r => if is_ws c then trim_start r else s
  end.

Fixpoint trim_end (s : string) : string :=
  match s with
  | EmptyString => EmptyString
  | String c r =>
      let r' := trim_end r in
      if is_ws c && String.eqb r' "" then EmptyString else String c r'
  end.

(** [String.prototype.trim]. *)
Definition js_trim (s : string) : string := trim_end (trim_start s).

(** A JSON field of a response body ([res.body[k]]). *)
Fixpoint json_get (k : string) (l : list (string * jval)) : option jval :=
  match l with
  | [] => None
  | (k', v) :: r => if String.eqb k k' then Some v else json_get k r
  end.

(* ------------------------------------------------------------------ *)
(** ** security/hostValidation.js *)

Module HostValidation.

(** [allowedHosts] computed from [process.env.ALLOWED_HOSTS] ([env]; [""]
    when unset). *)
Definition allowedHosts (env : string) : list string :=
  filter (fun v => v <> "") (map (fun v => toLowerCase (js_trim v)) (js_split "," env)).

(** [rawHost.split(",")[0].trim().split(":")[0].toLowerCase()]. *)
Definition host_of (rawHost : string) : string :=
  toLowerCase (first_part ":" (js_trim (first_part "," rawHost))).

(** [validateHostHeader(req, res, next)]; [forwardedHost] and [hostHeader]
    are [req.get("X-Forwarded-Host")] and [req.get("host")] ([None] when
    absent). *)
Definition validateHostHeader (allowed : list string) (forwardedHost hostHeader : option string)
  : mw_result :=
  match allowed with
  | [] => Next
  | _ :: _ =>
      let rawHost :=
        match forwardedHost with
        | Some f => if String.eqb f "" then hostHeader else Some f
        | None => hostHeader
        end in
      match rawHost with
      | None => Respond (mkResponse 400 [("error", JStr "Missing host header")])
      | Some raw =>
          if String.eqb raw "" then Respond (mkResponse 400 [("error", JStr "Missing host header")])
          else if str_in (host_of raw) allowed then Next
          else Respond (mkResponse 400 [("error", JStr "Invalid host")])
      end
  end.

End HostValidation.

(* ------------------------------------------------------------------ *)
(** ** security/adminAuth.js *)

Module AdminAuth.

(** [requireAdmin = requirePermission(Permissions.ADMIN_PANEL_ACCESS)]. *)
Definition requireAdmin : option req_user -> mw_result :=
  Acl.requirePermission (Some Permissions.ADMIN_PANEL_ACCESS).

(** [isAdmin(role)]; [None] is a falsy role. *)
Definition isAdmin (role : option string) : bool :=
  let normalized := toUpperCase (match role with Some r => r | None => "" end) in
  String.eqb normalized Permissions.SUPER_ADMIN || String.eqb normalized Permissions.ADMIN.

End AdminAuth.

(* ------------------------------------------------------------------ *)
(** ** routes/authRoutes.js: [buildUserResponse] and [GET /config] *)

Module AuthConfig.
Import Auth AuthRoutes.

(** The object built by [buildUserResponse(user)] ([created_at], [email] and
    [name] are not columns of the modelled row). *)
Record user_response := mkUserResponse {
  ur_id : Z;
  ur_username : string;
  ur_role : string;
  ur_status : string;
  ur_permissions : list string;
  ur_is_admin : bool;
  ur_is_active : Z;
  ur_force_password_reset : bool;
  ur_last_login_at : option Z
}.

Definition buildUserResponse (u : user) : user_response :=
  let permissions := Permissions.getRolePermissionList (Some (or_str "USER" (role u))) in
  {| ur_id := id u; ur_username := username u; ur_role := or_str "USER" (role u);
     ur_status := or_str "ACTIVE" (status u); ur_permissions := permissions;
     ur_is_admin := str_in "admin.panel.access" permissions; ur_is_active := is_active u;
     ur_force_password_reset := force_password_reset u;
     ur_last_login_at := last_login_at u |}.

(** [getAuthConfig()] on the values of [registration.mode], [community.mode]
    and [maintenance.mode]. *)
Definition getAuthConfig (registrationSetting communitySetting maintenanceSetting : string)
  : string * string * string :=
  (normalizeRegistrationMode registrationSetting, toUpperCase communitySetting,
   toUpperCase maintenanceSetting).

(** [router.get('/config')] with [DISABLE_ACCOUNTS], [DISABLE_INTERNAL_ACCOUNTS]
    and [ALLOW_PASSWORD_CHANGES]. *)
Definition configRoute (disableAccounts disableInternal allowPasswordChanges : bool)
  (registrationSetting communitySetting maintenanceSetting : string) (db : users_table)
  : response :=
  let hasUsers := Nat.ltb 0 (userCount db) in
  let '(registrationMode, communityMode, maintenanceMode) :=
    getAuthConfig registrationSetting communitySetting maintenanceSetting in
  let allowNewAccounts :=
    negb hasUsers ||
    (negb disableAccounts && negb (String.eqb registrationMode CLOSED) && negb disableInternal) in
  mkResponse 200
    [("authRequired", JBool true); ("allowNewAccounts", JBool allowNewAccounts);
     ("registrationMode", JStr registrationMode); ("hasUsers", JBool hasUsers);
     ("disableAccounts", JBool disableAccounts);
     ("disableInternalAccounts", JBool disableInternal);
     ("allowPasswordChanges", JBool allowPasswordChanges);
     ("communityMode", JStr communityMode); ("maintenanceMode", JStr maintenanceMode)].

End AuthConfig.

(* ------------------------------------------------------------------ *)
(** ** core/systemConfigRepository.js *)

Module SystemConfig.

Definition CACHE_TTL_MS : Z := 5000.

(** The repository's state: the [system_settings] table (key to [value]),
    the [feature_flags] table (key to [!!enabled]) and the two in-memory
    caches, whose entries are [{ value, cachedAt }]. *)
Record config_state := mkConfig {
  settings : gmap string string;
  flags : gmap string bool;
  settingCache : gmap string (string * Z);
  flagCache : gmap string (bool * Z)
}.

(** [#isFresh(cacheEntry)] at time [now] ([Date.now()]). *)
Definition isFresh {A : Type} (cacheEntry : option (A * Z)) (now : Z) : bool :=
  match cacheEntry with
  | None => false
  | Some (_, cachedAt) => Z.ltb (now - cachedAt) CACHE_TTL_MS
  end.

(** [#readCached(cache, key)]; [None] is [undefined]. *)
Definition readCached {A : Type} (cache : gmap string (A * Z)) (key : string) (now : Z)
  : option A :=
  let entry := cache !! key in
  if negb (isFresh entry now) then None
  else match entry with Some (v, _) => Some v | None => None end.

(** [getSetting(key, fallbackValue)] at time [now]. *)
Definition getSetting (st : config_state) (key fallbackValue : string) (now : Z)
  : string * config_state :=
  match readCached (settingCache st) key now with
  | Some cached => (cached, st)
  | None =>
      let value := match settings st !! key with Some v => v | None => fallbackValue end in
      (value, mkConfig (settings st) (flags st) (<[key := (value, now)]> (settingCache st))
                       (flagCache st))
  end.

(** [getBooleanSetting(key, fallbackValue)]. *)
Definition getBooleanSetting (st : config_state) (key : string) (fallbackValue : bool) (now : Z)
  : bool * config_state :=
  let '(value, st') := getSetting st key (if fallbackValue then "true" else "false") now in
  (str_in (toLowerCase value) ["1"; "true"; "on"; "yes"; "enabled"; "open"], st').

(** [setSetting(key, value)]; [value] is the text [String(value)]. *)
Definition setSetting (st : config_state) (key value : string) (now : Z) : config_state :=
  mkConfig (<[key := value]> (settings st)) (flags st)
           (<[key := (value, now)]> (settingCache st)) (flagCache st).

(** [getFeatureFlag(key, fallbackValue)]. *)
Definition getFeatureFlag (st : config_state) (key : string) (fallbackValue : bool) (now : Z)
  : bool * config_state :=
  match readCached (flagCache st) key now with
  | Some cached => (cached, st)
  | None =>
      let value := match flags st !! key with Some e => e | None => fallbackValue end in
      (value, mkConfig (settings st) (flags st) (settingCache st)
                       (<[key := (value, now)]> (flagCache st)))
  end.

(** [setFeatureFlag(key, enabled)]; [enabled] is the truthiness of the
    argument (stored as [1] / [0], read back as [!!enabled]). *)
Definition setFeatureFlag (st : config_state) (key : string) (enabled : bool) (now : Z)
  : config_state :=
  mkConfig (settings st) (<[key := enabled]> (flags st)) (settingCache st)
           (<[key := (enabled, now)]> (flagCache st)).

(** The keys read by [getFoundationSettings()], in order, with their
    fallbacks ([getNumberSetting(key, n)] reads [getSetting(key, String(n))]). *)
Definition foundation_keys : list (string * string) :=
  [("registration.mode", "OPEN"); ("community.mode", "OFF"); ("maintenance.mode", "OFF");
   ("security.lockout.max_attempts", "5"); ("security.lockout.duration_minutes", "15");
   ("security.rate_limit.window_ms", "60000"); ("security.rate_limit.auth_max", "20");
   ("security.rate_limit.public_max", "120"); ("security.rate_limit.general_max", "300")].

Fixpoint read_settings (st : config_state) (keys : list (string * string)) (now : Z)
  : list string * config_state :=
  match keys with
  | [] => ([], st)
  | (k, fb) :: r =>
      let '(v, st1) := getSetting st k fb now in
      let '(vs, st2) := read_settings st1 r now in
      (v :: vs, st2)
  end.

(** [getFoundationSettings()]: the raw setting texts it reads, in the order
    of [foundation_keys] (the [Number(...)] conversion of the numeric ones
    is not modelled), and the state with the caches it fills. *)
Definition getFoundationSettings (st : config_state) (now : Z) : list string * config_state :=
  read_settings st foundation_keys now.

End SystemConfig.

(* ------------------------------------------------------------------ *)
(** ** community/communityModeMiddleware.js *)

Module Community.
Import SystemConfig.

(** [isEnabledValue(value)]. *)
Definition isEnabledValue (value : string) : bool :=
  str_in (toUpperCase value) ["ON"; "TRUE"; "1"; "ENABLED"].

(** [isCommunityModeEnabled()] at time [now]. *)
Definition isCommunityModeEnabled (st : config_state) (now : Z) : bool * config_state :=
  let '(mode, st1) := getSetting st "community.mode" "OFF" now in
  let '(publicLibraryFlag, st2) := getFeatureFlag st1 "community.public_library" true now in
  (isEnabledValue mode && publicLibraryFlag, st2).

(** [requireCommunityMode(req, res, next)]. *)
Definition requireCommunityMode (st : config_state) (now : Z) : mw_result * config_state :=
  let '(enabled, st') := isCommunityModeEnabled st now in
  if negb enabled then (Respond (mkResponse 404 [("error", JStr "Community mode is disabled")]), st')
  else (Next, st').

End Community.

(* ------------------------------------------------------------------ *)
(** ** Admin router (src/unnamed/part_004): [PATCH /settings] *)

Module SettingsRoute.
Import SystemConfig.

(** [req.body] of the request: each field is [String(field)], [None] when
    [undefined]; [sb_featureFlags] is [Object.entries(featureFlags)] with the
    truthiness of each value, [None] when [featureFlags] is not a truthy
    object. *)
Record settings_body := mkSettingsBody {
  sb_registrationMode : option string;
  sb_communityMode : option string;
  sb_maintenanceMode : option string;
  sb_lockoutMaxAttempts : option string;
  sb_lockoutDurationMinutes : option string;
  sb_authRateLimit : option string;
  sb_publicRateLimit : option string;
  sb_generalRateLimit : option string;
  sb_rateLimitWindowMs : option string;
  sb_featureFlags : option (list (string * bool))
}.

(** What the handler produces: the response, the repository state and the
    audit actions written. *)
Record settings_out := mkSettingsOut {
  s_resp : response;
  s_state : config_state;
  s_audit : list string
}.

(** [if (v !== undefined) setSetting(key, v)]. *)
Definition set_if_defined (st : config_state) (key : string) (v : option string) (now : Z)
  : config_state :=
  match v with
  | Some x => setSetting st key x now
  | None => st
  end.

(** [v !== undefined && !allowed.includes(v)]. *)
Definition invalid_value (v : option string) (allowed : list string) : bool :=
  match v with
  | Some x => negb (str_in x allowed)
  | None => false
  end.

(** [router.patch('/settings')] for an actor holding
    [admin.system.settings.write], run at time [now].  The response lists
    the foundation setting texts read at the end, by key; the
    [getAllSystemSettings()] listing, a read of the two tables, is not
    part of the modelled body. *)
Definition patchSettings (b : settings_body) (now : Z) (st : config_state) : settings_out :=
  let normalizedRegistrationMode := option_map toUpperCase (sb_registrationMode b) in
  if invalid_value normalizedRegistrationMode ["OPEN"; "APPROVAL"; "CLOSED"] then
    mkSettingsOut (AdminRoutes.msg 400 "Invalid registration mode") st []
  else
  let normalizedCommunityMode := option_map toUpperCase (sb_communityMode b) in
  if invalid_value normalizedCommunityMode ["ON"; "OFF"] then
    mkSettingsOut (AdminRoutes.msg 400 "Invalid community mode") st []
  else
  let normalizedMaintenanceMode := option_map toUpperCase (sb_maintenanceMode b) in
  if invalid_value normalizedMaintenanceMode ["ON"; "OFF"] then
    mkSettingsOut (AdminRoutes.msg 400 "Invalid maintenance mode") st []
  else
  let st := set_if_defined st "registration.mode" normalizedRegistrationMode now in
  let st := set_if_defined st "community.mode" normalizedCommunityMode now in
  let st := set_if_defined st "maintenance.mode" normalizedMaintenanceMode now in
  let st := set_if_defined st "security.lockout.max_attempts" (sb_lockoutMaxAttempts b) now in
  let st := set_if_defined st "security.lockout.duration_minutes"
                           (sb_lockoutDurationMinutes b) now in
  let st := set_if_defined st "security.rate_limit.window_ms" (sb_rateLimitWindowMs b) now in
  let st := set_if_defined st "security.rate_limit.auth_max" (sb_authRateLimit b) now in
  let st := set_if_defined st "security.rate_limit.public_max" (sb_publicRateLimit b) now in
  let st := set_if_defined st "security.rate_limit.general_max" (sb_generalRateLimit b) now in
  let st :=
    match sb_featureFlags b with
    | Some entries =>
        fold_left (fun s (e : string * bool) => setFeatureFlag s e.1 e.2 now) entries st
    | None => st
    end in
  let '(foundation, st) := getFoundationSettings st now in
  mkSettingsOut
    (mkResponse 200 (zip (map fst foundation_keys) (map JStr foundation)))
    st ["admin.settings.update"].

End SettingsRoute.

(* ------------------------------------------------------------------ *)
(** ** Foundation migration (routes/authRoutes.js, v2.0.0-foundation-security) *)

Module Migration.

(** An SQLite value. *)
Inductive sqlv :=
  | SNull
  | SInt (z : Z)
  | SText (s : string).

Abbreviation row := (gmap string sqlv).

(** A table: its columns and its rows by rowid ([id]).  A column a row has
    no entry for reads as [NULL]; numeric columns hold integers (SQLite's
    column affinity). *)
Record sql_table := mkTable {
  columns : list string;
  rows : gmap Z row
}.

Definition col (r : row) (c : string) : sqlv :=
  match r !! c with Some v => v | None => SNull end.

(** [ensureColumn(db, table, column, definitionSql)]: [ALTER TABLE ... ADD
    COLUMN] gives every existing row the column's [DEFAULT] ([NULL] without
    one). *)
Definition ensureColumn (t : sql_table) (c : string) (default : sqlv) : sql_table :=
  if str_in c (columns t) then t
  else mkTable (columns t ++ [c]) (fmap (fun r => <[c := default]> r) (rows t)).

(** [db.exec("UPDATE ... SET ... WHERE ...")]: [refs] are the columns the
    statement names (a missing one makes [exec] throw: [None]); [f] maps a
    row, by rowid, to its value after the statement. *)
Definition exec_update (t : sql_table) (refs : list string) (f : Z -> row -> row)
  : option sql_table :=
  if forallb (fun c => str_in c (columns t)) refs then
    Some (mkTable (columns t) (map_imap (fun k r => Some (f k r)) (rows t)))
  else None.

(** [c IS NULL OR c = ''].  *)
Definition is_null_or_empty (v : sqlv) : bool :=
  match v with
  | SNull => true
  | SText s => String.eqb s ""
  | SInt _ => false
  end.

(** [c = n] for an integer literal [n]. *)
Definition sql_eq_int (v : sqlv) (n : Z) : bool :=
  match v with
  | SInt z => Z.eqb z n
  | _ => false
  end.

(** [c NOT IN ('a', ...)]: unknown, so no update, for [NULL]; an integer
    differs from every text. *)
Definition sql_not_in (v : sqlv) (l : list string) : bool :=
  match v with
  | SNull => false
  | SText s => negb (str_in s l)
  | SInt _ => true
  end.

(** [c < n] for an integer literal [n]: [NULL] is unknown and a text is
    greater than every integer. *)
Definition sql_lt_int (v : sqlv) (n : Z) : bool :=
  match v with
  | SInt z => Z.ltb z n
  | _ => false
  end.

Definition ROLE_VALUES : list string := ["SUPER_ADMIN"; "ADMIN"; "MODERATOR"; "USER"; "READ_ONLY"].
Definition STATUS_VALUES : list string := ["PENDING"; "ACTIVE"; "SUSPENDED"].
Definition VISIBILITY_VALUES : list string := ["PRIVATE"; "TEAM"; "SHARED"; "PUBLIC"].

(** The six [UPDATE users] statements of [ensureUsersColumns], row by row. *)
Definition fill_role (k : Z) (r : row) : row :=
  if is_null_or_empty (col r "role") then
    <["role" := SText (if Z.eqb k 0 then "READ_ONLY"
                       else if sql_eq_int (col r "is_admin") 1 then "ADMIN" else "USER")]> r
  else r.

Definition fix_role (_ : Z) (r : row) : row :=
  if sql_not_in (col r "role") ROLE_VALUES then <["role" := SText "USER"]> r else r.

Definition fill_status (_ : Z) (r : row) : row :=
  if is_null_or_empty (col r "status") then
    <["status" := SText (if sql_eq_int (col r "is_active") 0 then "SUSPENDED" else "ACTIVE")]> r
  else r.

Definition fix_status (_ : Z) (r : row) : row :=
  if sql_not_in (col r "status") STATUS_VALUES then <["status" := SText "ACTIVE"]> r else r.

Definition fill_failed (_ : Z) (r : row) : row :=
  match col r "failed_login_attempts" with
  | SNull => <["failed_login_attempts" := SInt 0]> r
  | _ => r
  end.

Definition fix_session_version (_ : Z) (r : row) : row :=
  match col r "session_version" with
  | SNull => <["session_version" := SInt 1]> r
  | v => if sql_lt_int v 1 then <["session_version" := SInt 1]> r else r
  end.

(** [ensureUsersColumns(db)] on the [users] table. *)
Definition ensureUsersColumns (t : sql_table) : option sql_table :=
  let t := ensureColumn t "role" (SText "USER") in
  let t := ensureColumn t "status" (SText "ACTIVE") in
  let t := ensureColumn t "failed_login_attempts" (SInt 0) in
  let t := ensureColumn t "locked_until" SNull in
  let t := ensureColumn t "force_password_reset" (SInt 0) in
  let t := ensureColumn t "session_version" (SInt 1) in
  t ← exec_update t ["role"; "is_admin"] fill_role;
  t ← exec_update t ["role"] fix_role;
  t ← exec_update t ["status"; "is_active"] fill_status;
  t ← exec_update t ["status"] fix_status;
  t ← exec_update t ["failed_login_attempts"] fill_failed;
  exec_update t ["session_version"] fix_session_version.

(** The two [UPDATE snippets] statements of [ensureSnippetColumns]. *)
Definition fill_visibility (_ : Z) (r : row) : row :=
  if is_null_or_empty (col r "visibility") then
    <["visibility" := SText (if sql_eq_int (col r "is_public") 1 then "PUBLIC" else "PRIVATE")]> r
  else r.

Definition fix_visibility (_ : Z) (r : row) : row :=
  if sql_not_in (col r "visibility") VISIBILITY_VALUES then <["visibility" := SText "PRIVATE"]> r
  else r.

(** [CREATE INDEX IF NOT EXISTS ... ON table (cols)]: no row changes; a
    missing column makes [exec] throw.  (An index that already exists is on
    columns that exist: SQLite refuses to drop an indexed column.) *)
Definition create_index (t : sql_table) (cols : list string) : option sql_table :=
  if forallb (fun c => str_in c (columns t)) cols then Some t else None.

(** [ensureSnippetColumns(db)] on the [snippets] table. *)
Definition ensureSnippetColumns (t : sql_table) : option sql_table :=
  let t := ensureColumn t "visibility" (SText "PRIVATE") in
  t ← exec_update t ["visibility"; "is_public"] fill_visibility;
  t ← exec_update t ["visibility"] fix_visibility;
  t ← create_index t ["visibility"];
  create_index t ["user_id"; "visibility"].

(** [ensureSystemSetting(db, key, value)]: [INSERT ... ON CONFLICT(key) DO NOTHING]. *)
Definition ensureSystemSetting (s : gmap string string) (key value : string) : gmap string string :=
  match s !! key with
  | Some _ => s
  | None => <[key := value]> s
  end.

(** [ensureFeatureFlag(db, key, enabled, description)], on [!!enabled]. *)
Definition ensureFeatureFlag (f : gmap string bool) (key : string) (enabled : bool)
  : gmap string bool :=
  match f !! key with
  | Some _ => f
  | None => <[key := enabled]> f
  end.

Definition seed_settings : list (string * string) :=
  [("registration.mode", "OPEN"); ("community.mode", "OFF"); ("maintenance.mode", "OFF");
   ("security.lockout.max_attempts", "5"); ("security.lockout.duration_minutes", "15");
   ("security.rate_limit.window_ms", "60000"); ("security.rate_limit.auth_max", "20");
   ("security.rate_limit.public_max", "120"); ("security.rate_limit.general_max", "300")].

Definition seed_flags : list (string * bool) :=
  [("community.public_library", true); ("community.reports", false);
   ("platform.ai_hooks", false)].

(** [seedDefaults(db)] on the [system_settings] and [feature_flags] tables. *)
Definition seedDefaults (s : gmap string string) (f : gmap string bool)
  : gmap string string * gmap string bool :=
  (fold_left (fun acc (kv : string * string) => ensureSystemSetting acc kv.1 kv.2) seed_settings s,
   fold_left (fun acc (kv : string * bool) => ensureFeatureFlag acc kv.1 kv.2) seed_flags f).

End Migration.

(* ------------------------------------------------------------------ *)
(** ** Rate limiter (src/unnamed/part_002) and audit log (src/unnamed/part_003):
    client address and bucket cleanup *)

Module ClientAddress.

(** [req.headers["x-forwarded-for"]?.split(",")[0]?.trim()], [""] when the
    header is absent. *)
Definition forwarded_ip (xff : option string) : string :=
  match xff with
  | Some h => js_trim (first_part "," h)
  | None => ""
  end.

(** [getClientIp(req)] of the rate limiter; [ip] is [req.ip]. *)
Definition getClientIp (xff ip : option string) : string :=
  let v := forwarded_ip xff in
  if negb (String.eqb v "") then v
  else match ip with
       | Some i => if String.eqb i "" then "unknown" else i
       | None => "unknown"
       end.

(** [getRequestContext(req).ipAddress] of the audit log repository
    ([None] is [null]). *)
Definition getRequestContext_ip (xff ip : option string) : option string :=
  let v := forwarded_ip xff in
  if negb (String.eqb v "") then Some v
  else match ip with
       | Some i => if String.eqb i "" then None else Some i
       | None => None
       end.

(** The [setInterval] sweep of [startCleanupLoop()] at time [now]: a bucket
    is deleted when [now - windowStart > windowMs * 2]. *)
Definition cleanupSweep (now : Z) (buckets : RateLimiter.buckets_map) : RateLimiter.buckets_map :=
  filter (fun kv : string * RateLimiter.bucket =>
            now - RateLimiter.windowStart kv.2 <= RateLimiter.windowMs kv.2 * 2) buckets.

End ClientAddress.
(* ================================================================== *)
(** * Properties *)

(* ------------------------------------------------------------------ *)
(** ** Permission engine *)

Module PermissionFacts.
Import Permissions.

Lemma assoc_get_in (k : string) (l : list (string * list string)) (v : list string) :
  assoc_get k l = Some v -> exists k', In (k', v) l.
Proof.
  induction l as [|[k' v'] r IH]; simpl; [discriminate|].
  destruct (String.eqb k k'); intros H.
  - injection H as <-. eauto.
  - destruct (IH H) as [k'' Hin]. eauto.
Qed.

Lemma getPermissionsByRole_in_table (r : option string) :
  exists k, In (k, getPermissionsByRole r) rolePermissions.
Proof.
  unfold getPermissionsByRole.
  destruct (rolePermissions_get (normalizeRole r)) as [s|] eqn:E.
  - exact (assoc_get_in _ _ _ E).
  - exists USER. simpl. tauto.
Qed.

Lemma str_in_spec (x : string) (l : list string) : str_in x l = true <-> In x l.
Proof.
  unfold str_in. rewrite existsb_exists. split.
  - intros [y [Hy Heq]]. apply String.eqb_eq in Heq. subst. exact Hy.
  - intros H. exists x. split; [exact H | apply String.eqb_refl].
Qed.

(** Every declared role's set is drawn from [Object.values(Permissions)]. *)
Lemma table_within_universe :
  forallb (fun kv : string * list string =>
             forallb (fun p => str_in p Permissions_values) kv.2) rolePermissions = true.
Proof. vm_compute. reflexivity. Qed.

Lemma normalizeRole_cases (r : option string) :
  In (normalizeRole r) [SUPER_ADMIN; ADMIN; MODERATOR; USER; READ_ONLY].
Proof.
  unfold normalizeRole.
  destruct r as [r|]; [|simpl; tauto].
  destruct (String.eqb r ""); [simpl; tauto|].
  destruct (rolePermissions_get (toUpperCase r)) eqn:E; [|simpl; tauto].
  unfold rolePermissions_get, rolePermissions in E. simpl in E.
  repeat match type of E with
         | context [String.eqb ?a ?b] =>
             let H := fresh in destruct (String.eqb a b) eqn:H;
             [apply String.eqb_eq in H; rewrite H; simpl; tauto | ]
         end.
  discriminate.
Qed.

(** Normalizing an already normalized role changes nothing. *)
Lemma normalizeRole_idem (r : option string) :
  normalizeRole (Some (normalizeRole r)) = normalizeRole r.
Proof.
  pose proof (normalizeRole_cases r) as H.
  simpl in H. destruct H as [H|[H|[H|[H|[H|[]]]]]]; rewrite <- H; reflexivity.
Qed.

Lemma getPermissionsByRole_normalized (r : option string) :
  getPermissionsByRole (Some (normalizeRole r)) = getPermissionsByRole r.
Proof. unfold getPermissionsByRole. rewrite normalizeRole_idem. reflexivity. Qed.

End PermissionFacts.

(** C8: [getPermissionsByRole] is a pure lookup in a fixed table (the same
    set for the same input, always one of the table's sets), SUPER_ADMIN's
    set is exactly [Object.values(Permissions)], and it contains the set of
    every role input. *)
Theorem permissionsOf_deterministic_and_super_admin_superset :
  (forall r : option string,
      Permissions.getPermissionsByRole r = Permissions.getPermissionsByRole r /\
      exists k, In (k, Permissions.getPermissionsByRole r) Permissions.rolePermissions) /\
  Permissions.getPermissionsByRole (Some Permissions.SUPER_ADMIN) = Permissions.Permissions_values /\
  (forall (x : option string) (p : string),
      In p (Permissions.getPermissionsByRole x) ->
      In p (Permissions.getPermissionsByRole (Some Permissions.SUPER_ADMIN))).
Proof.
  split; [|split].
  - intros r. split; [reflexivity | apply PermissionFacts.getPermissionsByRole_in_table].
  - reflexivity.
  - intros x p Hp.
    change (Permissions.getPermissionsByRole (Some Permissions.SUPER_ADMIN))
      with Permissions.Permissions_values.
    destruct (PermissionFacts.getPermissionsByRole_in_table x) as [k Hk].
    pose proof PermissionFacts.table_within_universe as T.
    rewrite forallb_forall in T. specialize (T _ Hk). simpl in T.
    rewrite forallb_forall in T. specialize (T _ Hp).
    apply PermissionFacts.str_in_spec. exact T.
Qed.

(* ------------------------------------------------------------------ *)
(** ** Permission gate *)

Lemma hasPermission_normalized (r : option string) (perm : string) :
  perm <> "" ->
  Permissions.hasPermission (Some (Permissions.normalizeRole r)) (Some perm) = true <->
  In perm (Permissions.getPermissionsByRole r).
Proof.
  intros Hne. unfold Permissions.hasPermission.
  destruct (String.eqb perm "") eqn:E.
  - apply String.eqb_eq in E. contradiction.
  - rewrite PermissionFacts.getPermissionsByRole_normalized.
    apply PermissionFacts.str_in_spec.
Qed.

(** C9 (counterexample): an unauthenticated request is rejected with 401,
    but the body is [{message: "Authentication required"}], not
    [{error: "Authentication required"}]. *)
Lemma requirePermission_401_body_is_message :
  Acl.requirePermission (Some Permissions.ADMIN_AUDIT_READ) None
    <> Respond (mkResponse 401 [("error", JStr "Authentication required")]) /\
  Acl.requirePermission (Some Permissions.ADMIN_AUDIT_READ) None
    = Respond (mkResponse 401 [("message", JStr "Authentication required")]).
Proof. split; [vm_compute; congruence | reflexivity]. Qed.

(** C9 (amended): for a (non-empty) required permission, the gate answers an
    unauthenticated request with 401 [{message: "Authentication required"}],
    an authenticated request whose normalized role lacks the permission with
    403 [{message: "Insufficient permissions"}], and lets every other
    request proceed. *)
Theorem requirePermission_contract (perm : string) :
  perm <> "" ->
  Acl.requirePermission (Some perm) None
    = Respond (mkResponse 401 [("message", JStr "Authentication required")]) /\
  (forall u : req_user,
      ~ In perm (Permissions.getPermissionsByRole (ru_role u)) ->
      Acl.requirePermission (Some perm) (Some u)
        = Respond (mkResponse 403 [("message", JStr "Insufficient permissions")])) /\
  (forall u : req_user,
      In perm (Permissions.getPermissionsByRole (ru_role u)) ->
      Acl.requirePermission (Some perm) (Some u) = Next).
Proof.
  intros Hne. split; [reflexivity|split]; intros u Hu; unfold Acl.requirePermission.
  - destruct (Permissions.hasPermission _ (Some perm)) eqn:E; [|reflexivity].
    exfalso. apply Hu. apply (hasPermission_normalized _ _ Hne). exact E.
  - apply (hasPermission_normalized _ _ Hne) in Hu. rewrite Hu. reflexivity.
Qed.

Lemma requirePermission_contract_witness :
  Permissions.ADMIN_USERS_WRITE <> "" /\
  Acl.requirePermission (Some Permissions.ADMIN_USERS_WRITE) None
    = Respond (mkResponse 401 [("message", JStr "Authentication required")]) /\
  Acl.requirePermission (Some Permissions.ADMIN_USERS_WRITE)
    (Some (mkReqUser 9 "viewer" (Some "read_only") "ACTIVE" 1))
    = Respond (mkResponse 403 [("message", JStr "Insufficient permissions")]) /\
  Acl.requirePermission (Some Permissions.ADMIN_USERS_WRITE)
    (Some (mkReqUser 5 "erin" (Some "Admin") "ACTIVE" 1)) = Next.
Proof.
  assert (H : Permissions.ADMIN_USERS_WRITE <> "") by (vm_compute; congruence).
  destruct (requirePermission_contract Permissions.ADMIN_USERS_WRITE H) as [H1 [H2 H3]].
  split; [exact H|]. split; [exact H1|]. split.
  - apply H2. vm_compute. intuition congruence.
  - apply H3. vm_compute. intuition.
Defined.

(* ------------------------------------------------------------------ *)
(** ** Failed-login accounting *)

Lemma recordFailedLogin_row (db : users_table) (u : user) (maxA mins now : Z) :
  db !! id u = Some u ->
  let lockedUntil := if Z.geb (failed_login_attempts u + 1) maxA
                     then Some (now + Z.max 1 mins * 60 * 1000) else None in
  UserRepository.recordFailedLogin db (Some u) maxA mins now =
  if match lockedUntil with Some t => UserRepository.validTime t | None => true end
  then Some (<[id u := UserRepository.set_failed_login (failed_login_attempts u + 1)
                         lockedUntil u]> db)
  else None.
Proof.
  intros H. cbv zeta. unfold UserRepository.recordFailedLogin, UserRepository.update_where.
  rewrite H. cbv zeta. destruct (Z.geb _ maxA); [|reflexivity].
  destruct (UserRepository.validTime _); reflexivity.
Qed.

(** C1 (counterexample): the lock does not always end at [now +
    lockoutMinutes]: with [lockoutMinutes = 0] the duration is clamped to
    one minute, and with [lockoutMinutes = 10^12] the instant is past the
    largest [Date], [toISOString()] throws, nothing is written (the counter
    included) and the login is answered 500. *)
Lemma recordFailedLogin_lock_not_now_plus_minutes :
  let u := {| id := 1; username := "alice"; username_normalized := "alice";
              password_hash := "h"; role := "USER"; status := "ACTIVE";
              is_active := 1; is_admin := 0; failed_login_attempts := 0;
              locked_until := None; force_password_reset := false;
              session_version := 1; last_login_at := None |} in
  let db := (<[1 := u]> ∅ : users_table) in
  (match UserRepository.recordFailedLogin db (Some u) 1 0 1000 with
   | Some db' => option_map locked_until (db' !! 1)
   | None => None
   end = Some (Some 61000) /\ 61000 <> 1000 + 0 * 60 * 1000) /\
  UserRepository.recordFailedLogin db (Some u) 1 1000000000000 1000 = None /\
  AuthRoutes.login false (fun _ _ => false) (AuthRoutes.mkPolicy 1 1000000000000) 0 1000
    db "alice" "wrong"
  = AuthRoutes.mkOut (Auth.err 500 "An error occurred during login") None db
      [AuthRoutes.EffVerifyPassword; AuthRoutes.EffRecordFailedLogin].
Proof. vm_compute. split; [split; [reflexivity | congruence] | split; reflexivity]. Qed.

(** C1 (amended): one failed attempt on a user row, when the lock instant
    it computes is a valid [Date] (always so below [maxAttempts]),
    increments [failed_login_attempts] by one; [locked_until] becomes [now +
    max(1, lockoutMinutes)] minutes exactly when the incremented count is
    at least [maxAttempts], and is written as [NULL] otherwise; no other
    field of the row and no other row changes.  When a lock is due and that
    instant is out of the [Date] range, [recordFailedLogin] throws: nothing
    is written and the login is answered 500. *)
Theorem recordFailedLogin_spec (db : users_table) (u : user) (maxA mins now : Z) :
  db !! id u = Some u ->
  let lockEnd := now + Z.max 1 mins * 60 * 1000 in
  (failed_login_attempts u + 1 < maxA \/ Z.abs lockEnd <= UserRepository.maxTimeValue ->
   exists db' u',
    UserRepository.recordFailedLogin db (Some u) maxA mins now = Some db' /\
    db' !! id u = Some u' /\
    failed_login_attempts u' = failed_login_attempts u + 1 /\
    (failed_login_attempts u + 1 >= maxA -> locked_until u' = Some lockEnd) /\
    (failed_login_attempts u + 1 < maxA -> locked_until u' = None) /\
    u' = UserRepository.set_failed_login (failed_login_attempts u') (locked_until u') u /\
    (forall k, k <> id u -> db' !! k = db !! k)) /\
  (failed_login_attempts u + 1 >= maxA -> Z.abs lockEnd > UserRepository.maxTimeValue ->
   UserRepository.recordFailedLogin db (Some u) maxA mins now = None /\
   forall (compare : string -> string -> bool) (tz : Z) (name password : string),
     UserRepository.findByUsername db name = Some u ->
     AuthRoutes.isLocked tz u now = false ->
     UserRepository.verifyPassword compare (Some u) password = false ->
     AuthRoutes.login false compare (AuthRoutes.mkPolicy maxA mins) tz now db name password
     = AuthRoutes.mkOut (Auth.err 500 "An error occurred during login") None db
         [AuthRoutes.EffVerifyPassword; AuthRoutes.EffRecordFailedLogin]).
Proof.
  intros H. cbv zeta. pose proof (recordFailedLogin_row db u maxA mins now H) as R.
  cbv zeta in R. split.
  - intros Hc. rewrite R.
    destruct (Z.geb_spec (failed_login_attempts u + 1) maxA) as [Hge|Hlt].
    + destruct Hc as [Hc|Hc]; [lia|].
      unfold UserRepository.validTime.
      replace (Z.abs _ <=? UserRepository.maxTimeValue) with true by (symmetry; apply Z.leb_le; exact Hc).
      do 2 eexists. split; [reflexivity|]. split; [apply lookup_insert_eq|].
      simpl. split; [reflexivity|]. split; [intros _; reflexivity|]. split; [lia|].
      split; [reflexivity|]. intros k Hk. apply lookup_insert_ne. congruence.
    + do 2 eexists. split; [reflexivity|]. split; [apply lookup_insert_eq|].
      simpl. split; [reflexivity|]. split; [lia|]. split; [reflexivity|].
      split; [reflexivity|]. intros k Hk. apply lookup_insert_ne. congruence.
  - intros Hge Hout.
    assert (E : UserRepository.recordFailedLogin db (Some u) maxA mins now = None).
    { rewrite R. destruct (Z.geb_spec (failed_login_attempts u + 1) maxA) as [_|Hlt]; [|lia].
      unfold UserRepository.validTime.
      replace (Z.abs _ <=? UserRepository.maxTimeValue) with false by (symmetry; apply Z.leb_gt; lia).
      reflexivity. }
    split; [exact E|].
    intros compare tz name password Hf Hl Hv.
    unfold AuthRoutes.login. rewrite Hf, Hl, Hv. cbn [negb AuthRoutes.maxAttempts
      AuthRoutes.durationMinutes]. rewrite E. reflexivity.
Qed.

Lemma recordFailedLogin_spec_witness :
  let u := {| id := 7; username := "bob"; username_normalized := "bob";
              password_hash := "h"; role := "USER"; status := "ACTIVE";
              is_active := 1; is_admin := 0; failed_login_attempts := 1;
              locked_until := None; force_password_reset := false;
              session_version := 1; last_login_at := None |} in
  (<[7 := u]> ∅ : users_table) !! id u = Some u /\
  exists db' u',
    UserRepository.recordFailedLogin (<[7 := u]> ∅) (Some u) 2 5 0 = Some db' /\
    db' !! id u = Some u' /\
    failed_login_attempts u' = 2 /\ locked_until u' = Some 300000.
Proof.
  intros u. assert (H : (<[7 := u]> ∅ : users_table) !! id u = Some u) by reflexivity.
  split; [exact H|].
  destruct (proj1 (recordFailedLogin_spec _ u 2 5 0 H) ltac:(right; unfold UserRepository.maxTimeValue; lia))
    as [db' [u' [E [L [F [G _]]]]]].
  exists db', u'. split; [exact E|]. split; [exact L|]. split; [rewrite F; reflexivity|].
  rewrite G; [reflexivity|]. simpl. lia.
Defined.

(* ------------------------------------------------------------------ *)
(** ** Login while locked *)






(* ------------------------------------------------------------------ *)
(** ** Session-version revocation *)


(** A suspended account used by the concrete checks below. *)
Definition suspended_dave : user :=
  {| id := 4; username := "dave"; username_normalized := "dave";
     password_hash := "hash-of-pw"; role := "USER"; status := "SUSPENDED";
     is_active := 0; is_admin := 0; failed_login_attempts := 0;
     locked_until := None; force_password_reset := false;
     session_version := 3; last_login_at := None |}.



(** An active account used by the concrete checks below. *)
Definition active_erin : user :=
  {| id := 5; username := "erin"; username_normalized := "erin";
     password_hash := "hash-of-pw"; role := "ADMIN"; status := "ACTIVE";
     is_active := 1; is_admin := 1; failed_login_attempts := 0;
     locked_until := None; force_password_reset := false;
     session_version := 1; last_login_at := None |}.


(* ------------------------------------------------------------------ *)
(** ** Unlock *)

(** C10: [unlockUser(userId)] for a user other than id 0 zeroes
    [failed_login_attempts], clears [locked_until] and sets [status] to
    ACTIVE whatever the previous status (so a SUSPENDED or PENDING user
    becomes ACTIVE); every other field of the row and every other row stay
    as they were, and the updated row is returned. *)
Theorem unlockUser_sets_active_and_clears_lock (db : users_table) (u : user) :
  db !! id u = Some u ->
  id u <> 0 ->
  let '(db', r) := UserRepository.unlockUser db (id u) in
  let u' := {| id := id u; username := username u;
               username_normalized := username_normalized u;
               password_hash := password_hash u; role := role u; status := "ACTIVE";
               is_active := is_active u; is_admin := is_admin u;
               failed_login_attempts := 0; locked_until := None;
               force_password_reset := force_password_reset u;
               session_version := session_version u;
               last_login_at := last_login_at u |} in
  db' !! id u = Some u' /\ r = Some u' /\
  (forall k, k <> id u -> db' !! k = db !! k).
Proof.
  intros Hu Hid.
  unfold UserRepository.unlockUser, UserRepository.update_where_not_anon.
  apply Z.eqb_neq in Hid. rewrite Hid, Hu. simpl.
  unfold UserRepository.findById. rewrite lookup_insert_eq.
  split; [reflexivity|]. split; [reflexivity|].
  intros k Hk. apply lookup_insert_ne. congruence.
Qed.

Lemma unlockUser_sets_active_and_clears_lock_witness :
  (<[4 := suspended_dave]> ∅ : users_table) !! id suspended_dave = Some suspended_dave /\
  option_map status (snd (UserRepository.unlockUser (<[4 := suspended_dave]> ∅) 4))
    = Some "ACTIVE".
Proof.
  assert (H1 : (<[4 := suspended_dave]> ∅ : users_table) !! id suspended_dave = Some suspended_dave)
    by reflexivity.
  assert (H2 : id suspended_dave <> 0) by (simpl; lia).
  split; [exact H1|].
  pose proof (unlockUser_sets_active_and_clears_lock _ _ H1 H2) as H.
  destruct (UserRepository.unlockUser (<[4 := suspended_dave]> ∅) (id suspended_dave))
    as [db' r] eqn:E.
  destruct H as [_ [Hr _]]. change (id suspended_dave) with 4 in E. rewrite E. simpl.
  rewrite Hr. reflexivity.
Defined.

(* ------------------------------------------------------------------ *)
(** ** Admin mutations and the session version *)

Lemma admin_update_bumps (db : users_table) (u : user) (set : user -> user) :
  db !! id u = Some u -> id u <> 0 ->
  session_version (set u) = session_version u ->
  exists u', fst (AdminRoutes.admin_update db (id u) set) !! id u = Some u' /\
             session_version u' = session_version u + 1.
Proof.
  intros Hu Hid Hs.
  unfold AdminRoutes.admin_update, UserRepository.update_where_not_anon.
  apply Z.eqb_neq in Hid. rewrite Hid, Hu. simpl.
  eexists. split; [apply lookup_insert_eq|]. simpl. rewrite Hs. reflexivity.
Qed.

(** C4: every admin status change, role change, reset-sessions and
    force-password-reset request that the route carries out (answers 200)
    leaves the target user's [session_version] one higher; requests refused
    by the self-mutation guard or by value validation change nothing. *)
Theorem admin_mutations_increment_session_version (db : users_table) (u : user) (actor : Z) :
  db !! id u = Some u ->
  id u <> 0 ->
  (forall st : string,
     code (AdminRoutes.a_resp (AdminRoutes.patchStatus actor (id u) st db)) = 200 ->
     exists u', AdminRoutes.a_db (AdminRoutes.patchStatus actor (id u) st db) !! id u = Some u' /\
                session_version u' = session_version u + 1) /\
  (forall r : string,
     code (AdminRoutes.a_resp (AdminRoutes.patchRole actor (id u) r db)) = 200 ->
     exists u', AdminRoutes.a_db (AdminRoutes.patchRole actor (id u) r db) !! id u = Some u' /\
                session_version u' = session_version u + 1) /\
  (code (AdminRoutes.a_resp (AdminRoutes.patchResetSessions actor (id u) db)) = 200 ->
   exists u', AdminRoutes.a_db (AdminRoutes.patchResetSessions actor (id u) db) !! id u = Some u' /\
              session_version u' = session_version u + 1) /\
  (forall v : AdminRoutes.body_value,
     exists u', AdminRoutes.a_db (AdminRoutes.patchForcePasswordReset actor (id u) v db) !! id u
                  = Some u' /\
                session_version u' = session_version u + 1) /\
  (forall st r : string,
     code (AdminRoutes.a_resp (AdminRoutes.patchStatus actor (id u) st db)) <> 200 ->
     code (AdminRoutes.a_resp (AdminRoutes.patchRole actor (id u) r db)) <> 200 ->
     AdminRoutes.a_db (AdminRoutes.patchStatus actor (id u) st db) = db /\
     AdminRoutes.a_db (AdminRoutes.patchRole actor (id u) r db) = db).
Proof.
  intros Hu Hid.
  split; [|split; [|split; [|split]]].
  - intros st. unfold AdminRoutes.patchStatus, AdminRoutes.assertNotSelfMutation.
    destruct (Z.eqb (id u) actor); [simpl; discriminate|].
    destruct (negb (str_in (toUpperCase st) AdminRoutes.editableStatuses)); [simpl; discriminate|].
    unfold AdminRoutes.setUserStatus.
    destruct (admin_update_bumps db u (AdminRoutes.with_status (toUpperCase st)) Hu Hid eq_refl)
      as [u' [H1 H2]].
    destruct (AdminRoutes.admin_update db (id u) _) as [db' x]. intros _. eauto.
  - intros r. unfold AdminRoutes.patchRole, AdminRoutes.assertNotSelfMutation.
    destruct (Z.eqb (id u) actor); [simpl; discriminate|].
    destruct (negb (str_in (toUpperCase r) AdminRoutes.editableRoles)); [simpl; discriminate|].
    unfold AdminRoutes.setUserRole.
    destruct (admin_update_bumps db u (AdminRoutes.with_role (toUpperCase r)) Hu Hid eq_refl)
      as [u' [H1 H2]].
    destruct (AdminRoutes.admin_update db (id u) _) as [db' x]. intros _. eauto.
  - unfold AdminRoutes.patchResetSessions, AdminRoutes.assertNotSelfMutation.
    destruct (Z.eqb (id u) actor); [simpl; discriminate|].
    unfold AdminRoutes.resetUserSessions.
    destruct (admin_update_bumps db u (fun x => x) Hu Hid eq_refl) as [u' [H1 H2]].
    destruct (AdminRoutes.admin_update db (id u) _) as [db' x]. intros _. eauto.
  - intros v. unfold AdminRoutes.patchForcePasswordReset, AdminRoutes.setForcePasswordReset.
    destruct (admin_update_bumps db u (AdminRoutes.with_force_reset (AdminRoutes.normalizeBool v true))
                Hu Hid eq_refl) as [u' [H1 H2]].
    destruct (AdminRoutes.admin_update db (id u) _) as [db' x]. eauto.
  - intros st r. unfold AdminRoutes.patchStatus, AdminRoutes.patchRole,
      AdminRoutes.assertNotSelfMutation.
    destruct (Z.eqb (id u) actor); [simpl; auto|].
    destruct (negb (str_in (toUpperCase st) AdminRoutes.editableStatuses));
    destruct (negb (str_in (toUpperCase r) AdminRoutes.editableRoles));
    try (destruct (AdminRoutes.setUserStatus db (id u) _));
    try (destruct (AdminRoutes.setUserRole db (id u) _)); simpl; intros; try split; congruence.
Qed.

Lemma admin_mutations_increment_session_version_witness :
  (<[5 := active_erin]> ∅ : users_table) !! id active_erin = Some active_erin /\
  id active_erin <> 0 /\
  exists u', AdminRoutes.a_db (AdminRoutes.patchResetSessions 1 5 (<[5 := active_erin]> ∅)) !! 5
               = Some u' /\ session_version u' = 2.
Proof.
  assert (H1 : (<[5 := active_erin]> ∅ : users_table) !! id active_erin = Some active_erin)
    by reflexivity.
  assert (H2 : id active_erin <> 0) by (simpl; lia).
  split; [exact H1|]. split; [exact H2|].
  destruct (admin_mutations_increment_session_version _ active_erin 1 H1 H2)
    as [_ [_ [H3 _]]].
  apply H3. reflexivity.
Defined.

(* ------------------------------------------------------------------ *)
(** ** Registration *)

Lemma foldr_max_ge (x : Z) (l : list Z) : In x l -> x <= foldr Z.max 0 l.
Proof.
  induction l as [|y l IH]; simpl; [tauto|].
  intros [->|H]; [lia|]. specialize (IH H). lia.
Qed.

Lemma createUser_ok (hash : string -> string) (db : users_table) (name pw r s : string) :
  AuthRoutes.username_taken db name = false ->
  exists u, AuthRoutes.createUser hash db name pw r s = Some (u, <[id u := u]> db) /\
            db !! id u = None /\
            role u = Auth.or_str "USER" r /\ status u = Auth.or_str "ACTIVE" s.
Proof.
  intros Ht. unfold AuthRoutes.createUser. rewrite Ht.
  match goal with |- exists u, Some (?v, _) = _ /\ _ => exists v end.
  split; [reflexivity|]. simpl. split; [|split; reflexivity].
  destruct (db !! _) as [v|] eqn:E; [exfalso|reflexivity].
  apply elem_of_map_to_list in E. apply list_elem_of_In in E.
  assert (Hin : In (1 + foldr Z.max 0 (map fst (map_to_list db))) (map fst (map_to_list db)))
    by (apply (in_map fst) in E; exact E).
  apply foldr_max_ge in Hin. lia.
Qed.

(** C5 (counterexample): with [DISABLE_INTERNAL_ACCOUNTS] set, even the very
    first registration is refused with 403 and creates no account. *)
Lemma register_internal_disabled_refuses_first_user :
  let o := AuthRoutes.register true (fun p => "hash-of-" ++ p) "OPEN" ∅ "root" "pw" in
  code (AuthRoutes.out_resp o) = 403 /\ AuthRoutes.out_db o = ∅.
Proof. split; reflexivity. Qed.

(** C5 (amended): with internal-account registration enabled and a free
    username, if no user other than the anonymous id-0 user exists, the new
    account is created with role SUPER_ADMIN and status ACTIVE whatever the
    registration mode; otherwise it is created ACTIVE (200, with a session
    token) when the normalized mode is OPEN, PENDING (202, pending approval,
    no token) when it is APPROVAL, and refused with 403 without creating
    anything when it is CLOSED.  With internal-account registration
    disabled, every registration, the first included, is refused with 403
    and changes nothing. *)
Theorem register_initial_status (hash : string -> string) (mode : string)
  (db : users_table) (name password : string) :
  AuthRoutes.register true hash mode db name password
    = AuthRoutes.mkOut (Auth.err 403 "Internal account registration is disabled") None db [] /\
  (AuthRoutes.username_taken db name = false ->
  let o := AuthRoutes.register false hash mode db name password in
  (AuthRoutes.userCount db = 0%nat ->
     exists u, db !! id u = None /\ AuthRoutes.out_db o = <[id u := u]> db /\
               role u = "SUPER_ADMIN" /\ status u = "ACTIVE" /\
               code (AuthRoutes.out_resp o) = 200 /\
               AuthRoutes.out_token o = Some (Auth.createSessionToken u)) /\
  (AuthRoutes.userCount db <> 0%nat ->
     AuthRoutes.normalizeRegistrationMode mode = AuthRoutes.OPEN ->
     exists u, db !! id u = None /\ AuthRoutes.out_db o = <[id u := u]> db /\
               role u = "USER" /\ status u = "ACTIVE" /\
               code (AuthRoutes.out_resp o) = 200 /\
               AuthRoutes.out_token o = Some (Auth.createSessionToken u)) /\
  (AuthRoutes.userCount db <> 0%nat ->
     AuthRoutes.normalizeRegistrationMode mode = AuthRoutes.APPROVAL ->
     exists u, db !! id u = None /\ AuthRoutes.out_db o = <[id u := u]> db /\
               role u = "USER" /\ status u = "PENDING" /\
               code (AuthRoutes.out_resp o) = 202 /\
               In ("pendingApproval", JBool true) (body (AuthRoutes.out_resp o)) /\
               AuthRoutes.out_token o = None) /\
  (AuthRoutes.userCount db <> 0%nat ->
     AuthRoutes.normalizeRegistrationMode mode = AuthRoutes.CLOSED ->
     AuthRoutes.out_db o = db /\
     AuthRoutes.out_resp o = Auth.err 403 "New account registration is closed" /\
     AuthRoutes.out_token o = None)).
Proof.
  split; [reflexivity|].
  intros Ht. cbn zeta. unfold AuthRoutes.register. simpl.
  split; [|split; [|split]].
  - intros H0. rewrite H0. simpl.
    destruct (createUser_ok hash db name password "SUPER_ADMIN" "ACTIVE" Ht)
      as [u [Hc [Hn [Hr Hs]]]].
    rewrite Hc. simpl. exists u. repeat split; auto.
  - intros H0 Hm. destruct (AuthRoutes.userCount db) as [|n]; [congruence|]. simpl.
    rewrite Hm. simpl.
    destruct (createUser_ok hash db name password "USER" "ACTIVE" Ht)
      as [u [Hc [Hn [Hr Hs]]]].
    rewrite Hc. simpl. exists u. repeat split; auto.
  - intros H0 Hm. destruct (AuthRoutes.userCount db) as [|n]; [congruence|]. simpl.
    rewrite Hm. simpl.
    destruct (createUser_ok hash db name password "USER" "PENDING" Ht)
      as [u [Hc [Hn [Hr Hs]]]].
    rewrite Hc. simpl. exists u. repeat split; auto; simpl; tauto.
  - intros H0 Hm. destruct (AuthRoutes.userCount db) as [|n]; [congruence|]. simpl.
    rewrite Hm. simpl. repeat split.
Qed.

Lemma register_initial_status_witness :
  AuthRoutes.username_taken (<[5 := active_erin]> ∅) "frank" = false /\
  exists u,
    AuthRoutes.out_db (AuthRoutes.register false (fun p => "hash-of-" ++ p) "approval"
                         (<[5 := active_erin]> ∅) "frank" "pw") = <[id u := u]> (<[5 := active_erin]> ∅) /\
    status u = "PENDING".
Proof.
  assert (Ht : AuthRoutes.username_taken (<[5 := active_erin]> ∅) "frank" = false)
    by (vm_compute; reflexivity).
  split; [exact Ht|].
  destruct (proj2 (register_initial_status (fun p => "hash-of-" ++ p) "approval" _ "frank" "pw") Ht)
    as [_ [_ [H _]]].
  destruct H as [u [_ [Hd [_ [Hs _]]]]]; [vm_compute; congruence | vm_compute; reflexivity |].
  exists u. split; [exact Hd | exact Hs].
Defined.

(* ------------------------------------------------------------------ *)
(** ** Maintenance gate *)

Lemma privileged_role_spec (x : string) :
  (String.eqb x "SUPER_ADMIN" || String.eqb x "ADMIN") = true <-> In x ["SUPER_ADMIN"; "ADMIN"].
Proof.
  rewrite orb_true_iff, !String.eqb_eq. simpl. intuition.
Qed.

Lemma toUpperCase_or_empty (r : string) :
  toUpperCase (Auth.or_str "" r) = toUpperCase r.
Proof.
  unfold Auth.or_str. destruct (String.eqb_spec r ""); [subst; reflexivity | reflexivity].
Qed.

(** C6: with maintenance mode on, an API-prefixed request is let through
    exactly when its path is a bypass path (a path containing [/api-docs],
    or one starting with the auth-config, login or OIDC prefix) or it
    carries a verifying credential whose user exists with role SUPER_ADMIN
    or ADMIN (case-insensitively); every other request, whatever made the
    credential fail (missing, not verifying, unknown user, other role), gets
    the same 503 "Maintenance mode is enabled" response. *)
Theorem maintenance_gate_contract (mode basePath path : string)
  (ht ct : option Auth.token) (db : users_table) :
  Maintenance.isMaintenanceEnabled mode = true ->
  startsWith path (basePath ++ "/api") = true ->
  let res := Maintenance.maintenanceModeGuard mode basePath path ht ct db in
  (res = Next \/ res = Respond (Auth.err 503 "Maintenance mode is enabled")) /\
  (res = Next <->
     Maintenance.hasBypassPath basePath path = true \/
     exists t d u, Maintenance.getTokenFromRequest ht ct = Some t /\
                   Auth.jwt_verify t = Some d /\ db !! Auth.p_id d = Some u /\
                   In (toUpperCase (role u)) ["SUPER_ADMIN"; "ADMIN"]).
Proof.
  intros Hm Hp. cbn zeta. unfold Maintenance.maintenanceModeGuard.
  rewrite Hm, Hp. simpl.
  destruct (Maintenance.hasBypassPath basePath path) eqn:Hb.
  { split; [left; reflexivity | split; [intros _; left; reflexivity | intros _; reflexivity]]. }
  unfold Maintenance.maintenance_503.
  destruct (Maintenance.getTokenFromRequest ht ct) as [t|] eqn:Et.
  2:{ split; [right; reflexivity|]. split; [discriminate|].
      intros [H|[t [d [u [H _]]]]]; discriminate. }
  destruct (Auth.jwt_verify t) as [d|] eqn:Ed.
  2:{ split; [right; reflexivity|]. split; [discriminate|].
      intros [H|[t' [d [u [H1 [H2 _]]]]]]; [discriminate|].
      injection H1 as <-. congruence. }
  unfold UserRepository.findById.
  destruct (db !! Auth.p_id d) as [u|] eqn:Eu.
  2:{ split; [right; reflexivity|]. split; [discriminate|].
      intros [H|[t' [d' [u [H1 [H2 [H3 _]]]]]]]; [discriminate|].
      injection H1 as <-. rewrite Ed in H2. injection H2 as <-. congruence. }
  rewrite toUpperCase_or_empty.
  destruct (String.eqb (toUpperCase (role u)) "SUPER_ADMIN" ||
            String.eqb (toUpperCase (role u)) "ADMIN") eqn:Er.
  - split; [left; reflexivity|]. split; [intros _|intros _; reflexivity].
    right. exists t, d, u. repeat split; auto. apply privileged_role_spec. exact Er.
  - split; [right; reflexivity|]. split; [discriminate|].
    intros [H|[t' [d' [u' [H1 [H2 [H3 H4]]]]]]]; [discriminate|].
    injection H1 as <-. rewrite Ed in H2. injection H2 as <-. rewrite Eu in H3.
    injection H3 as <-. apply privileged_role_spec in H4. congruence.
Qed.

Lemma maintenance_gate_contract_witness :
  Maintenance.isMaintenanceEnabled "on" = true /\
  startsWith "/api/snippets" ("" ++ "/api") = true /\
  Maintenance.maintenanceModeGuard "on" "" "/api/snippets"
    (Some (Auth.createSessionToken active_erin)) None (<[5 := active_erin]> ∅) = Next.
Proof.
  assert (H1 : Maintenance.isMaintenanceEnabled "on" = true) by reflexivity.
  assert (H2 : startsWith "/api/snippets" ("" ++ "/api") = true) by reflexivity.
  split; [exact H1|]. split; [exact H2|].
  apply (proj2 (proj2 (maintenance_gate_contract "on" "" "/api/snippets"
                         (Some (Auth.createSessionToken active_erin)) None
                         (<[5 := active_erin]> ∅) H1 H2))).
  right. exists (Auth.createSessionToken active_erin).
  eexists. exists active_erin. split; [reflexivity|]. split; [reflexivity|].
  split; [reflexivity|]. simpl. tauto.
Defined.

(* ------------------------------------------------------------------ *)
(** ** Rate limiter *)

Lemma ceil_div1000_pos (x : Z) : 0 < x -> 1 <= RateLimiter.ceil_div1000 x.
Proof.
  intros Hx. unfold RateLimiter.ceil_div1000.
  assert (H : (- x) / 1000 < 0) by (apply Z.div_lt_upper_bound; lia). lia.
Qed.

Lemma ceil_div1000_spec (x : Z) :
  1000 * (RateLimiter.ceil_div1000 x - 1) < x <= 1000 * RateLimiter.ceil_div1000 x.
Proof.
  unfold RateLimiter.ceil_div1000.
  pose proof (Z.div_mod (- x) 1000 ltac:(lia)).
  pose proof (Z.mod_pos_bound (- x) 1000 ltac:(lia)). lia.
Qed.

(** C7: one request through the limiter of [scope] from [clientIp] at time
    [now].  With no bucket for the key, or one whose window has elapsed, a
    fresh bucket [{count 1, windowStart now}] is stored and the request
    proceeds.  Otherwise the count is incremented; the request is answered
    429 exactly when the new count exceeds the scope's limit, with a
    [Retry-After] of [max 1 (ceil((windowStart + windowMs - now) / 1000))]
    seconds, the remaining time to the window's end rounded up, never below
    1.  Every outcome sets [X-RateLimit-Remaining], and no other key's bucket
    changes. *)
Theorem rateLimit_fixed_window (scope : string) (c : RateLimiter.rate_config) (now : Z)
  (clientIp : string) (buckets : RateLimiter.buckets_map) :
  let key := RateLimiter.bucket_key scope clientIp in
  let out := RateLimiter.rateLimit scope c now clientIp buckets in
  let buckets' := fst (fst out) in
  let hs := snd (fst out) in
  let res := snd out in
  In "X-RateLimit-Remaining" (map fst hs) /\
  (forall k, k <> key -> buckets' !! k = buckets !! k) /\
  (match buckets !! key with
   | None => True
   | Some b => now - RateLimiter.windowStart b >= RateLimiter.cfg_windowMs c
   end ->
   buckets' !! key = Some (RateLimiter.mkBucket 1 now (RateLimiter.cfg_windowMs c)) /\
   res = Next) /\
  (forall b, buckets !! key = Some b ->
   now - RateLimiter.windowStart b < RateLimiter.cfg_windowMs c ->
   option_map RateLimiter.count (buckets' !! key) = Some (RateLimiter.count b + 1) /\
   (RateLimiter.count b + 1 > RateLimiter.getScopeLimit scope c ->
      res = Respond (mkResponse 429 [("error", JStr "Too many requests"); ("scope", JStr scope)]) /\
      exists ra, In ("Retry-After", ra) hs /\
        ra = Z.max 1 (RateLimiter.ceil_div1000
                        (RateLimiter.windowStart b + RateLimiter.cfg_windowMs c - now)) /\
        1 <= ra /\
        1000 * (ra - 1) < RateLimiter.windowStart b + RateLimiter.cfg_windowMs c - now
          <= 1000 * ra) /\
   (RateLimiter.count b + 1 <= RateLimiter.getScopeLimit scope c -> res = Next)).
Proof.
  cbn zeta. unfold RateLimiter.rateLimit.
  destruct (buckets !! RateLimiter.bucket_key scope clientIp) as [b|] eqn:Eb.
  - destruct (Z.geb_spec (now - RateLimiter.windowStart b) (RateLimiter.cfg_windowMs c)) as [Hge|Hlt].
    + simpl. split; [tauto|]. split.
      { intros k Hk. apply lookup_insert_ne. congruence. }
      split; [intros _; split; [apply lookup_insert_eq | reflexivity]|].
      intros b' Hb' Hlt. injection Hb' as <-. lia.
    + split; [destruct (Z.gtb _ _); simpl; tauto|]. split.
      { intros k Hk. destruct (Z.gtb _ _); simpl; apply lookup_insert_ne; congruence. }
      split; [intros H; lia|].
      intros b' Hb' _. injection Hb' as <-. simpl.
      destruct (Z.gtb_spec (RateLimiter.count b + 1) (RateLimiter.getScopeLimit scope c)) as [Hgt|Hle];
        simpl.
      * split; [rewrite lookup_insert_eq; reflexivity|].
        split; [intros _|intros H; lia].
        split; [reflexivity|].
        eexists. split; [right; right; left; reflexivity|]. split; [reflexivity|].
        pose proof (ceil_div1000_pos (RateLimiter.windowStart b + RateLimiter.cfg_windowMs c - now)
                      ltac:(lia)).
        pose proof (ceil_div1000_spec (RateLimiter.windowStart b + RateLimiter.cfg_windowMs c - now)).
        rewrite Z.max_r by lia. lia.
      * split; [rewrite lookup_insert_eq; reflexivity|].
        split; [intros H; lia|]. intros _. reflexivity.
  - simpl. split; [tauto|]. split.
    { intros k Hk. apply lookup_insert_ne. congruence. }
    split; [intros _; split; [apply lookup_insert_eq | reflexivity]|].
    intros b' Hb'. discriminate.
Qed.

(** The spec's scenario: window 1000 ms, limit 3.  Three requests in the
    window pass with remaining quota 2, 1, 0; the fourth gets 429 with
    [Retry-After] 1; after the window a request passes with a fresh count. *)
Definition rl_cfg : RateLimiter.rate_config := RateLimiter.mkRateConfig 1000 3 3 3.

Fixpoint rl_run (ts : list Z) (b : RateLimiter.buckets_map)
  : list (RateLimiter.headers * mw_result) :=
  match ts with
  | [] => []
  | t :: r =>
      let '(b', hs, res) := RateLimiter.rateLimit "auth" rl_cfg t "10.0.0.1" b in
      (hs, res) :: rl_run r b'
  end.

Example rateLimit_scenario :
  rl_run [0; 100; 200; 300; 1000] ∅ =
  [([("X-RateLimit-Limit", 3); ("X-RateLimit-Remaining", 2)], Next);
   ([("X-RateLimit-Limit", 3); ("X-RateLimit-Remaining", 1)], Next);
   ([("X-RateLimit-Limit", 3); ("X-RateLimit-Remaining", 0)], Next);
   ([("X-RateLimit-Limit", 3); ("X-RateLimit-Remaining", 0); ("Retry-After", 1)],
    Respond (mkResponse 429 [("error", JStr "Too many requests"); ("scope", JStr "auth")]));
   ([("X-RateLimit-Limit", 3); ("X-RateLimit-Remaining", 2)], Next)].
Proof. vm_compute. reflexivity. Qed.
(* ================================================================== *)
(** * Further properties of the server code *)

(* ------------------------------------------------------------------ *)
(** ** String helpers *)

Module StringFacts.

(** [c] occurs in [s]. *)
Fixpoint has_char (c : ascii) (s : string) : bool :=
  match s with
  | EmptyString => false
  | String d r => Ascii.eqb d c || has_char c r
  end.

(** [s] is empty or starts with a non-blank character. *)
Definition starts_nonws (s : string) : Prop :=
  match s with
  | EmptyString => True
  | String c _ => is_ws c = false
  end.

Lemma ws_lower (c : ascii) : is_ws (ascii_lower c) = is_ws c.
Proof. destruct c as [[] [] [] [] [] [] [] []]; reflexivity. Qed.

Lemma lower_is_char (c d : ascii) :
  (d = ","%char \/ d = ":"%char) -> ascii_lower c = d -> c = d.
Proof.
  intros [-> | ->]; destruct c as [[] [] [] [] [] [] [] []]; vm_compute;
    first [reflexivity | discriminate].
Qed.

Lemma lower_keeps_char (d : ascii) :
  (d = ","%char \/ d = ":"%char) -> ascii_lower d = d.
Proof. intros [-> | ->]; reflexivity. Qed.

Lemma str_app_cons (c : ascii) (s t : string) : String c s ++ t = String c (s ++ t).
Proof. reflexivity. Qed.

Lemma string_app_nil (s : string) : s ++ "" = s.
Proof.
  induction s as [|c s IH]; [reflexivity|]. rewrite str_app_cons. f_equal. exact IH.
Qed.

Lemma string_length_app (s t : string) :
  String.length (s ++ t) = (String.length s + String.length t)%nat.
Proof.
  induction s as [|c s IH]; [reflexivity|]. rewrite str_app_cons. simpl. f_equal. exact IH.
 Qed.

Lemma toLowerCase_length (s : string) : String.length (toLowerCase s) = String.length s.
Proof. induction s as [|c s IH]; simpl; [reflexivity | f_equal; exact IH]. Qed.

Lemma toLowerCase_app (s t : string) : toLowerCase (s ++ t) = toLowerCase s ++ toLowerCase t.
Proof.
  induction s as [|c s IH]; [reflexivity|]. rewrite str_app_cons. simpl. rewrite str_app_cons, IH. reflexivity.
 Qed.

Lemma toLowerCase_empty (s : string) : String.eqb (toLowerCase s) "" = String.eqb s "".
Proof. destruct s; reflexivity. Qed.

Lemma js_split_nonnil (sep : ascii) (s : string) : js_split sep s <> [].
Proof.
  induction s as [|c s IH]; simpl; [discriminate|].
  destruct (Ascii.eqb c sep); [discriminate|].
  destruct (js_split sep s); [contradiction | discriminate].
Qed.

Lemma first_part_nil (sep : ascii) : first_part sep "" = "".
Proof. reflexivity. Qed.

Lemma first_part_sep (sep : ascii) (t : string) : first_part sep (String sep t) = "".
Proof. unfold first_part. simpl. now rewrite Ascii.eqb_refl. Qed.

Lemma first_part_cons (sep c : ascii) (t : string) :
  Ascii.eqb c sep = false -> first_part sep (String c t) = String c (first_part sep t).
Proof.
  intros Hc. unfold first_part. simpl. rewrite Hc.
  pose proof (js_split_nonnil sep t) as Hn.
  destruct (js_split sep t); [contradiction | reflexivity].
Qed.

Lemma first_part_app (sep : ascii) (s t : string) :
  has_char sep s = false -> first_part sep (s ++ t) = s ++ first_part sep t.
Proof.
  induction s as [|c s IH]; [reflexivity|].
  simpl. intros H. apply orb_false_iff in H as [Hc Hs].
  rewrite !str_app_cons, first_part_cons by exact Hc. now rewrite IH.
Qed.

Lemma js_split_parts (sep : ascii) (s : string) :
  forall v, In v (js_split sep s) -> has_char sep v = false.
Proof.
  induction s as [|c s IH]; simpl.
  - intros v [<- | []]. reflexivity.
  - destruct (Ascii.eqb c sep) eqn:Hc.
    + intros v [<- | Hv]; [reflexivity | exact (IH v Hv)].
    + destruct (js_split sep s) as [|w ws] eqn:E.
      * intros v [<- | []]. simpl. now rewrite Hc.
      * intros v [<- | Hv].
        -- simpl. rewrite Hc. apply IH. left. reflexivity.
        -- apply IH. right. exact Hv.
Qed.

Lemma first_part_no_sep (sep : ascii) (s : string) : has_char sep (first_part sep s) = false.
Proof.
  unfold first_part. pose proof (js_split_nonnil sep s) as Hn.
  destruct (js_split sep s) as [|w ws] eqn:E; [contradiction|].
  apply (js_split_parts sep s). rewrite E. left. reflexivity.
Qed.

Lemma has_char_lower (d : ascii) (s : string) :
  (d = ","%char \/ d = ":"%char) -> has_char d (toLowerCase s) = has_char d s.
Proof.
  intros Hd. induction s as [|c s IH]; simpl; [reflexivity|].
  rewrite IH. f_equal.
  destruct (Ascii.eqb c d) eqn:E.
  - apply Ascii.eqb_eq in E. subst c. rewrite lower_keeps_char by exact Hd.
    apply Ascii.eqb_refl.
  - destruct (Ascii.eqb (ascii_lower c) d) eqn:E'; [|reflexivity].
    apply Ascii.eqb_eq in E'. apply lower_is_char in E'; [|exact Hd].
    subst. now rewrite Ascii.eqb_refl in E.
Qed.

Lemma trim_start_starts (s : string) : starts_nonws (trim_start s).
Proof.
  induction s as [|c s IH]; simpl; [exact I|].
  destruct (is_ws c) eqn:E; [exact IH | exact E].
Qed.

Lemma trim_end_starts (s : string) : starts_nonws s -> starts_nonws (trim_end s).
Proof.
  destruct s as [|c s]; simpl; [tauto|].
  intros H. rewrite H. simpl. exact H.
Qed.

Lemma trim_end_idem (s : string) : trim_end (trim_end s) = trim_end s.
Proof.
  induction s as [|c s IH]; simpl; [reflexivity|].
  destruct (is_ws c && String.eqb (trim_end s) "") eqn:E; [reflexivity|].
  simpl. rewrite IH, E. reflexivity.
Qed.

Lemma trim_end_prefix (s : string) : exists z, s = trim_end s ++ z.
Proof.
  induction s as [|c s [z Hz]]; simpl; [exists ""; reflexivity|].
  destruct (is_ws c && String.eqb (trim_end s) ""); simpl.
  - exists (String c s). reflexivity.
  - exists z. rewrite str_app_cons, <- Hz. reflexivity.
Qed.

Lemma trim_end_lower (s : string) : trim_end (toLowerCase s) = toLowerCase (trim_end s).
Proof.
  induction s as [|c s IH]; simpl; [reflexivity|].
  rewrite IH, ws_lower, toLowerCase_empty.
  destruct (is_ws c && String.eqb (trim_end s) ""); reflexivity.
Qed.

Lemma starts_nonws_lower (s : string) : starts_nonws (toLowerCase s) <-> starts_nonws s.
Proof. destruct s as [|c s]; simpl; [tauto | now rewrite ws_lower]. Qed.

Lemma trim_start_nonws (s t : string) :
  s <> "" -> starts_nonws s -> trim_start (s ++ t) = s ++ t.
Proof.
  destruct s as [|c s]; [congruence|].
  rewrite str_app_cons. simpl. intros _ H. rewrite H. reflexivity.
Qed.

Lemma app_cons_nonempty (x : string) (c : ascii) (q : string) :
  String.eqb (x ++ String c q) "" = false.
Proof. destruct x; reflexivity. Qed.

Lemma trim_end_app_nonws (x : string) (c : ascii) (q : string) :
  is_ws c = false -> trim_end (x ++ String c q) = x ++ String c (trim_end q).
Proof.
  intros Hc. induction x as [|a x IH]; simpl.
  - rewrite Hc. reflexivity.
  - rewrite str_app_cons. simpl. rewrite IH, app_cons_nonempty, andb_false_r. reflexivity.
Qed.

Lemma has_char_app (d : ascii) (x z : string) :
  has_char d (x ++ z) = has_char d x || has_char d z.
Proof.
  induction x as [|c x IH]; [reflexivity|].
  rewrite str_app_cons. simpl. rewrite IH. apply orb_assoc.
Qed.

Lemma has_char_trim (d : ascii) (s : string) :
  has_char d s = false -> has_char d (js_trim s) = false.
Proof.
  unfold js_trim. intros H.
  assert (H1 : has_char d (trim_start s) = false).
  { induction s as [|c s IH]; simpl in *; [reflexivity|].
    apply orb_false_iff in H as [Hc Hs].
    destruct (is_ws c); [exact (IH Hs)|]. simpl. now rewrite Hc, Hs. }
  destruct (trim_end_prefix (trim_start s)) as [z Hz].
  rewrite Hz, has_char_app in H1. apply orb_false_iff in H1. tauto.
Qed.

(** A case variant of a trimmed, lower-cased name has no blank edge. *)
Lemma trim_end_variant (s w : string) :
  toLowerCase s = toLowerCase w -> trim_end w = w -> trim_end s = s.
Proof.
  intros Hl Hw.
  assert (H : toLowerCase (trim_end s) = toLowerCase s).
  { rewrite <- trim_end_lower, Hl, trim_end_lower, Hw. reflexivity. }
  destruct (trim_end_prefix s) as [z Hz].
  assert (Hlen : String.length (trim_end s) = String.length s).
  { rewrite <- (toLowerCase_length (trim_end s)), <- (toLowerCase_length s), H.
    reflexivity. }
  rewrite Hz in Hlen at 2. rewrite string_length_app in Hlen.
  destruct z as [|c z]; [now rewrite string_app_nil in Hz|].
  simpl in Hlen. lia.
Qed.

End StringFacts.

(* ------------------------------------------------------------------ *)
(** ** Host-header validation *)

Module HostFacts.
Import StringFacts HostValidation.

Lemma allowedHosts_entry (env h : string) :
  In h (allowedHosts env) ->
  h <> "" /\ exists v, has_char "," v = false /\ h = toLowerCase (js_trim v).
Proof.
  unfold allowedHosts. intros H.
  apply list_elem_of_In, list_elem_of_filter in H as [Hne Hin].
  apply list_elem_of_In, in_map_iff in Hin as [v [Hv Hin]].
  split; [exact Hne|]. exists v. split; [|symmetry; exact Hv].
  exact (js_split_parts _ _ _ Hin).
Qed.

(** [host_of] on a case variant of a configured entry, with or without a
    [":port"] suffix. *)
Lemma host_of_variant (v s suffix : string) :
  has_char "," v = false -> toLowerCase s = toLowerCase (js_trim v) ->
  toLowerCase s <> "" -> has_char ":" (toLowerCase s) = false ->
  (suffix = "" \/ exists port, suffix = String ":" port) ->
  s ++ suffix <> "" /\ host_of (s ++ suffix) = toLowerCase s.
Proof.
  intros Hv Hs Hne Hcolon Hsuf.
  set (w := js_trim v) in *.
  assert (Hw_start : starts_nonws w).
  { apply trim_end_starts, trim_start_starts. }
  assert (Hw_end : trim_end w = w) by apply trim_end_idem.
  assert (Hs_ne : s <> "") by (intros ->; apply Hne; reflexivity).
  assert (Hs_comma : has_char "," s = false).
  { rewrite <- has_char_lower by (left; reflexivity). rewrite Hs, has_char_lower by (left; reflexivity).
    apply has_char_trim. exact Hv. }
  assert (Hs_colon : has_char ":" s = false).
  { rewrite <- has_char_lower by (right; reflexivity). exact Hcolon. }
  assert (Hs_start : starts_nonws s).
  { apply starts_nonws_lower. rewrite Hs. apply starts_nonws_lower. exact Hw_start. }
  assert (Hs_end : trim_end s = s) by exact (trim_end_variant s w Hs Hw_end).
  split.
  { destruct s; [contradiction | discriminate]. }
  unfold host_of, js_trim.
  destruct Hsuf as [-> | [port ->]].
  - rewrite string_app_nil.
    rewrite <- (string_app_nil s) at 1.
    rewrite first_part_app by exact Hs_comma. rewrite first_part_nil, string_app_nil.
    rewrite <- (string_app_nil s) at 1.
    rewrite trim_start_nonws by assumption. rewrite string_app_nil, Hs_end.
    rewrite <- (string_app_nil s) at 1.
    rewrite first_part_app by exact Hs_colon. rewrite first_part_nil, string_app_nil.
    reflexivity.
  - rewrite first_part_app by exact Hs_comma.
    rewrite first_part_cons by reflexivity.
    rewrite trim_start_nonws by assumption.
    rewrite trim_end_app_nonws by reflexivity.
    rewrite first_part_app by exact Hs_colon. rewrite first_part_sep, string_app_nil.
    reflexivity.
Qed.

Lemma host_of_no_colon (raw : string) : has_char ":" (host_of raw) = false.
Proof.
  unfold host_of. rewrite has_char_lower by (right; reflexivity). apply first_part_no_sep.
Qed.

(** Host validation and the entries of [ALLOWED_HOSTS]: an entry without
    a [':'] is accepted whenever the request's effective host (a non-empty
    [X-Forwarded-Host], else [Host]) is the entry in any letter case, alone
    or followed by [":port"], whatever the other header says; an entry with
    a [':'] (a port, an IPv6 literal) never matches any request, since the
    host compared is cut at its first [':']. *)
Theorem validateHostHeader_accepts_configured_hosts (env h : string) :
  In h (allowedHosts env) ->
  (has_char ":" h = false ->
   forall (s suffix : string) (fwd host : option string),
   toLowerCase s = h ->
   (suffix = "" \/ exists port, suffix = String ":" port) ->
   (fwd = None \/ fwd = Some "") ->
   validateHostHeader (allowedHosts env) (Some (s ++ suffix)) host = Next /\
   validateHostHeader (allowedHosts env) fwd (Some (s ++ suffix)) = Next) /\
  (has_char ":" h = true -> forall raw, host_of raw <> h).
Proof.
  intros Hin. split.
  - intros Hcolon s suffix fwd host Hs Hsuf Hfwd.
    destruct (allowedHosts_entry env h Hin) as [Hne [v [Hv Hh]]].
    subst h.
    destruct (host_of_variant v s suffix Hv Hh Hne Hcolon Hsuf) as [Hraw Hhost].
    assert (Hnonempty : allowedHosts env <> []) by (intros E; rewrite E in Hin; destruct Hin).
    apply String.eqb_neq in Hraw.
    assert (Hmatch : str_in (host_of (s ++ suffix)) (allowedHosts env) = true).
    { rewrite Hhost. apply PermissionFacts.str_in_spec. exact Hin. }
    unfold validateHostHeader.
    destruct (allowedHosts env) as [|a l] eqn:E; [contradiction|].
    split.
    + rewrite Hraw. cbn -[str_in host_of]. rewrite Hraw, Hmatch. reflexivity.
    + destruct Hfwd as [-> | ->]; cbn -[str_in host_of]; rewrite Hraw, Hmatch; reflexivity.
  - intros Hc raw E. rewrite <- E, host_of_no_colon in Hc. discriminate.
Qed.

(** The host check never looks past its inputs' effective host: with an
    empty allow-list every request passes; a non-empty [X-Forwarded-Host]
    makes the [Host] header irrelevant.  With a non-empty list, a request
    passes exactly when its effective host is present, non-empty and, cut
    at its first [','] and [':'], trimmed and lower-cased, listed (so only
    through an entry without a [':']); every other request is answered
    400. *)
Theorem validateHostHeader_effective_host (allowed : list string) (fwd host : option string) :
  let rawHost := match fwd with Some f => if String.eqb f "" then host else Some f | None => host end in
  (allowed = [] -> validateHostHeader allowed fwd host = Next) /\
  (forall f host', f <> "" ->
     validateHostHeader allowed (Some f) host = validateHostHeader allowed (Some f) host') /\
  (allowed <> [] -> validateHostHeader allowed fwd host = Next ->
   exists raw h,
     rawHost = Some raw /\
     host_of raw = h /\ In h allowed /\ has_char ":" h = false) /\
  (allowed <> [] ->
   (exists raw, rawHost = Some raw /\ raw <> "" /\ In (host_of raw) allowed) ->
   validateHostHeader allowed fwd host = Next) /\
  (validateHostHeader allowed fwd host = Next \/
   exists msg, validateHostHeader allowed fwd host
               = Respond (mkResponse 400 [("error", JStr msg)])).
Proof.
  cbv zeta. split; [|split; [|split; [|split]]].
  - intros ->. reflexivity.
  - intros f host' Hf. apply String.eqb_neq in Hf.
    unfold validateHostHeader. rewrite Hf. reflexivity.
  - intros Hne. unfold validateHostHeader.
    destruct allowed as [|a l]; [contradiction|].
    destruct (match fwd with Some f => if String.eqb f "" then host else Some f | None => host end)
      as [raw|] eqn:E; [|discriminate].
    destruct (String.eqb raw ""); [discriminate|].
    destruct (str_in (host_of raw) (a :: l)) eqn:Hin; [|discriminate].
    intros _. exists raw, (host_of raw). split; [reflexivity|]. split; [reflexivity|].
    split; [apply PermissionFacts.str_in_spec; exact Hin | apply host_of_no_colon].
  - intros Hne [raw [E [Hr Hin]]]. unfold validateHostHeader.
    destruct allowed as [|a l]; [contradiction|].
    rewrite E. apply String.eqb_neq in Hr. rewrite Hr.
    apply PermissionFacts.str_in_spec in Hin. rewrite Hin. reflexivity.
  - unfold validateHostHeader.
    destruct allowed as [|a l]; [left; reflexivity|].
    destruct (match fwd with Some f => if String.eqb f "" then host else Some f | None => host end)
      as [raw|]; [|right; eexists; reflexivity].
    destruct (String.eqb raw ""); [right; eexists; reflexivity|].
    destruct (str_in (host_of raw) (a :: l)); [left; reflexivity | right; eexists; reflexivity].
Qed.

(** With [ALLOWED_HOSTS = "example.com, api.example.com:8080"], a request
    for [EXAMPLE.com:443] is let through, and the entry written with its
    port matches nothing. *)
Lemma validateHostHeader_accepts_configured_hosts_witness :
  In "example.com" (allowedHosts "example.com, api.example.com:8080") /\
  In "api.example.com:8080" (allowedHosts "example.com, api.example.com:8080") /\
  (validateHostHeader (allowedHosts "example.com, api.example.com:8080")
     (Some ("EXAMPLE.com" ++ ":443")) None = Next /\
   validateHostHeader (allowedHosts "example.com, api.example.com:8080")
     None (Some ("EXAMPLE.com" ++ ":443")) = Next) /\
  (forall raw, host_of raw <> "api.example.com:8080").
Proof.
  assert (H1 : In "example.com" (allowedHosts "example.com, api.example.com:8080"))
    by (vm_compute; left; reflexivity).
  assert (H2 : In "api.example.com:8080" (allowedHosts "example.com, api.example.com:8080"))
    by (vm_compute; right; left; reflexivity).
  split; [exact H1|]. split; [exact H2|]. split.
  - apply (proj1 (validateHostHeader_accepts_configured_hosts _ _ H1) ltac:(vm_compute; reflexivity)
             "EXAMPLE.com" ":443" None None).
    + vm_compute. reflexivity.
    + right. exists "443". reflexivity.
    + left. reflexivity.
  - exact (proj2 (validateHostHeader_accepts_configured_hosts _ _ H2) ltac:(vm_compute; reflexivity)).
Defined.

End HostFacts.

(* ------------------------------------------------------------------ *)
(** ** Permission lists, permission gates and the admin checks *)

Module AclFacts.
Import Permissions.

Lemma str_in_subset (p : string) (l1 l2 : list string) :
  forallb (fun x => str_in x l2) l1 = true -> str_in p l1 = true -> str_in p l2 = true.
Proof.
  intros H Hp. apply PermissionFacts.str_in_spec in Hp.
  rewrite forallb_forall in H. exact (H p Hp).
Qed.

Lemma insert_sorted_In (x y : string) (l : list string) :
  In x (insert_sorted y l) <-> x = y \/ In x l.
Proof.
  induction l as [|z l IH]; simpl.
  - intuition congruence.
  - destruct (String.leb y z); simpl; [intuition congruence|]. rewrite IH. intuition congruence.
Qed.

Lemma sort_strings_In (x : string) (l : list string) : In x (sort_strings l) <-> In x l.
Proof.
  induction l as [|y l IH]; simpl; [tauto|].
  rewrite insert_sorted_In, IH. intuition congruence.
Qed.

Lemma str_in_sort_strings (x : string) (l : list string) :
  str_in x (sort_strings l) = str_in x l.
Proof.
  apply eq_bool_prop_intro. rewrite !Is_true_true, !PermissionFacts.str_in_spec.
  apply sort_strings_In.
Qed.

Lemma getPermissionsByRole_or_user (r : string) :
  getPermissionsByRole (Some (Auth.or_str "USER" r)) = getPermissionsByRole (Some r).
Proof.
  unfold Auth.or_str. destruct (String.eqb_spec r "") as [->|_]; reflexivity.
Qed.

(** The five role sets, as sorted lists. *)
Lemma getRolePermissionList_sorted (r : option string) :
  Sorted (fun a b => String.compare a b = Lt) (getRolePermissionList r).
Proof.
  unfold getRolePermissionList. rewrite <- PermissionFacts.getPermissionsByRole_normalized.
  pose proof (PermissionFacts.normalizeRole_cases r) as H.
  simpl in H. destruct H as [H|[H|[H|[H|[H|[]]]]]]; rewrite <- H;
    vm_compute; repeat constructor.
Qed.

(** Every permission a role gains when promoted along READ_ONLY, USER,
    MODERATOR, ADMIN, SUPER_ADMIN is kept: each role holds every
    permission of the roles below it. *)
Theorem role_permissions_nested (p : option string) :
  (hasPermission (Some READ_ONLY) p = true -> hasPermission (Some USER) p = true) /\
  (hasPermission (Some USER) p = true -> hasPermission (Some MODERATOR) p = true) /\
  (hasPermission (Some MODERATOR) p = true -> hasPermission (Some ADMIN) p = true) /\
  (hasPermission (Some ADMIN) p = true -> hasPermission (Some SUPER_ADMIN) p = true).
Proof.
  destruct p as [p|]; [|repeat split; discriminate].
  unfold hasPermission. destruct (String.eqb p ""); [repeat split; discriminate|].
  repeat split; apply str_in_subset; vm_compute; reflexivity.
Qed.

(** [requireAnyPermission(ps)] lets a request through exactly when
    [requirePermission(p)] would for some [p] of [ps]; when it refuses, it
    answers what [requirePermission] answers for a permission nobody holds
    (401 without [req.user], 403 with one).  With the default [ps = []] it
    refuses every request. *)
Theorem requireAnyPermission_is_any_requirePermission (ps : list (option string))
  (ru : option req_user) :
  (Acl.requireAnyPermission ps ru = Next <->
   exists p, In p ps /\ Acl.requirePermission p ru = Next) /\
  (Acl.requireAnyPermission ps ru <> Next ->
   Acl.requireAnyPermission ps ru = Acl.requirePermission None ru) /\
  Acl.requireAnyPermission [] ru <> Next.
Proof.
  destruct ru as [u|].
  - unfold Acl.requireAnyPermission, Acl.requirePermission. split; [|split].
    + destruct (existsb _ ps) eqn:E; simpl.
      * apply existsb_exists in E as [p [Hp Hh]].
        split; [intros _ | reflexivity]. exists p. rewrite Hh. split; [exact Hp | reflexivity].
      * split; [discriminate|]. intros [p [Hp Hn]].
        destruct (hasPermission _ p) eqn:Hh; [|discriminate].
        assert (Hc : existsb (fun permission => hasPermission (Some (normalizeRole (ru_role u))) permission) ps = true)
          by (apply existsb_exists; exists p; auto).
        rewrite Hc in E. discriminate.
    + destruct (existsb _ ps); simpl; [congruence | reflexivity].
    + discriminate.
  - split; [|split].
    + split; [discriminate|]. intros [p [_ H]]. discriminate.
    + reflexivity.
    + discriminate.
Qed.

(** [attachPermissionContext] leaves [req.user] with its normalized role
    and a strictly sorted permission list that holds exactly the
    permissions [requirePermission] grants it; it changes no gate's
    decision and a second pass changes nothing. *)
Theorem attachPermissionContext_consistent (u : req_user) :
  exists u' perms,
    Acl.attachPermissionContext (Some u) = Some (u', perms) /\
    Sorted (fun a b => String.compare a b = Lt) perms /\
    (forall p, p <> "" -> (In p perms <-> Acl.requirePermission (Some p) (Some u') = Next)) /\
    (forall p, Acl.requirePermission p (Some u') = Acl.requirePermission p (Some u)) /\
    Acl.attachPermissionContext (Some u') = Some (u', perms).
Proof.
  eexists _, _. split; [reflexivity|].
  split; [apply getRolePermissionList_sorted|].
  split; [|split].
  - intros p Hp. unfold Acl.requirePermission. cbn [ru_role].
    rewrite PermissionFacts.normalizeRole_idem.
    unfold getRolePermissionList. rewrite sort_strings_In.
    rewrite <- hasPermission_normalized by exact Hp.
    rewrite PermissionFacts.normalizeRole_idem.
    destruct (hasPermission _ _); simpl; split; congruence.
  - intros p. unfold Acl.requirePermission. cbn [ru_role].
    rewrite PermissionFacts.normalizeRole_idem. reflexivity.
  - unfold Acl.attachPermissionContext. cbn [ru_role ru_id ru_username ru_status ru_session_version].
    rewrite PermissionFacts.normalizeRole_idem. reflexivity.
Qed.

(** The [is_admin] flag of [buildUserResponse] agrees with the
    [requireAdmin] gate (both: the role holds [admin.panel.access], i.e. is
    SUPER_ADMIN, ADMIN or MODERATOR), while [isAdmin] holds only for
    SUPER_ADMIN and ADMIN: a MODERATOR is reported [is_admin: true] and
    passes [requireAdmin], yet [isAdmin] is false for it. *)
Theorem buildUserResponse_is_admin_matches_requireAdmin (u : user) :
  (AuthConfig.ur_is_admin (AuthConfig.buildUserResponse u) = true <->
   AdminAuth.requireAdmin (Some (Auth.req_user_of u)) = Next) /\
  (AuthConfig.ur_is_admin (AuthConfig.buildUserResponse u) = true <->
   In (normalizeRole (Some (role u))) [SUPER_ADMIN; ADMIN; MODERATOR]) /\
  (AdminAuth.isAdmin (Some (role u)) = true <->
   In (normalizeRole (Some (role u))) [SUPER_ADMIN; ADMIN]).
Proof.
  assert (Hflag : AuthConfig.ur_is_admin (AuthConfig.buildUserResponse u) =
                  str_in ADMIN_PANEL_ACCESS (getPermissionsByRole (Some (role u)))).
  { simpl. unfold getRolePermissionList.
    rewrite str_in_sort_strings, getPermissionsByRole_or_user. reflexivity. }
  split; [|split].
  - rewrite Hflag. unfold AdminAuth.requireAdmin, Acl.requirePermission, Auth.req_user_of.
    cbn [ru_role]. unfold hasPermission, ADMIN_PANEL_ACCESS. cbn [String.eqb Ascii.eqb Bool.eqb].
    rewrite PermissionFacts.getPermissionsByRole_normalized.
    destruct (str_in _ _); simpl; split; congruence.
  - rewrite Hflag, <- PermissionFacts.getPermissionsByRole_normalized.
    pose proof (PermissionFacts.normalizeRole_cases (Some (role u))) as H.
    cbn [In] in H. destruct H as [H|[H|[H|[H|[H|[]]]]]]; rewrite <- H; vm_compute;
      split; intros; try reflexivity; try tauto; try discriminate;
      repeat match goal with Hx : _ \/ _ |- _ => destruct Hx as [Hx|Hx] end;
      try discriminate; try contradiction.
  - unfold AdminAuth.isAdmin, normalizeRole.
    destruct (String.eqb_spec (role u) "") as [->|Hne]; [simpl; split; [discriminate|]|].
    + intros [H|[H|[]]]; discriminate.
    + destruct (String.eqb_spec (toUpperCase (role u)) SUPER_ADMIN) as [H1|H1].
      { rewrite H1. simpl. tauto. }
      destruct (String.eqb_spec (toUpperCase (role u)) ADMIN) as [H2|H2].
      { rewrite H2. simpl. tauto. }
      simpl. split; [discriminate|].
      destruct (rolePermissions_get (toUpperCase (role u)));
        intros [H|[H|[]]]; try congruence; discriminate.
Qed.

End AclFacts.

(* ------------------------------------------------------------------ *)
(** ** The settings repository and its cache *)

Module ConfigFacts.
Import SystemConfig.

(** A client's sequence of calls to the repository, each at its own time. *)
Inductive config_op :=
  | OpGetSetting (key fallbackValue : string) (t : Z)
  | OpSetSetting (key value : string) (t : Z)
  | OpGetFeatureFlag (key : string) (fallbackValue : bool) (t : Z)
  | OpSetFeatureFlag (key : string) (enabled : bool) (t : Z).

Definition step_op (st : config_state) (op : config_op) : config_state :=
  match op with
  | OpGetSetting k fb t => (getSetting st k fb t).2
  | OpSetSetting k v t => setSetting st k v t
  | OpGetFeatureFlag k fb t => (getFeatureFlag st k fb t).2
  | OpSetFeatureFlag k e t => setFeatureFlag st k e t
  end.

Definition run_ops (st : config_state) (ops : list config_op) : config_state :=
  fold_left step_op ops st.

Definition writes_setting (k : string) (op : config_op) : bool :=
  match op with OpSetSetting k' _ _ => String.eqb k' k | _ => false end.

Definition writes_flag (k : string) (op : config_op) : bool :=
  match op with OpSetFeatureFlag k' _ _ => String.eqb k' k | _ => false end.

(** The table holds [v] for [k] and the cache holds nothing else for it. *)
Definition setting_holds (st : config_state) (k v : string) : Prop :=
  settings st !! k = Some v /\ forall c t0, settingCache st !! k = Some (c, t0) -> c = v.

Definition flag_holds (st : config_state) (k : string) (e : bool) : Prop :=
  flags st !! k = Some e /\ forall c t0, flagCache st !! k = Some (c, t0) -> c = e.

Lemma readCached_Some {A : Type} (cache : gmap string (A * Z)) (k : string) (t : Z) (x : A) :
  readCached cache k t = Some x -> exists t0, cache !! k = Some (x, t0) /\ t - t0 < CACHE_TTL_MS.
Proof.
  unfold readCached, isFresh. destruct (cache !! k) as [[c t0]|]; simpl; [|discriminate].
  destruct (Z.ltb_spec (t - t0) CACHE_TTL_MS); simpl; [|discriminate].
  intros [= <-]. eauto.
Qed.

Lemma readCached_None {A : Type} (cache : gmap string (A * Z)) (k : string) (t : Z) :
  readCached cache k t = None ->
  forall x t0, cache !! k = Some (x, t0) -> CACHE_TTL_MS <= t - t0.
Proof.
  unfold readCached, isFresh. intros H x t0 E. rewrite E in H. simpl in H.
  destruct (Z.ltb_spec (t - t0) CACHE_TTL_MS); simpl in H; [discriminate | lia].
Qed.

Lemma setting_holds_read (st : config_state) (k v fb : string) (t : Z) :
  setting_holds st k v -> (getSetting st k fb t).1 = v.
Proof.
  intros [Ht Hc]. unfold getSetting.
  destruct (readCached (settingCache st) k t) as [x|] eqn:R; simpl.
  - apply readCached_Some in R as [t0 [E _]]. exact (Hc _ _ E).
  - rewrite Ht. reflexivity.
Qed.

Lemma flag_holds_read (st : config_state) (k : string) (e fb : bool) (t : Z) :
  flag_holds st k e -> (getFeatureFlag st k fb t).1 = e.
Proof.
  intros [Ht Hc]. unfold getFeatureFlag.
  destruct (readCached (flagCache st) k t) as [x|] eqn:R; simpl.
  - apply readCached_Some in R as [t0 [E _]]. exact (Hc _ _ E).
  - rewrite Ht. reflexivity.
Qed.

Lemma setting_holds_getSetting (st : config_state) (k v k' fb : string) (t : Z) :
  setting_holds st k v -> setting_holds (getSetting st k' fb t).2 k v.
Proof.
  intros [Ht Hc]. unfold setting_holds, getSetting.
  destruct (readCached (settingCache st) k' t); cbn [snd settings settingCache]; [split; auto|].
  split; [exact Ht|]. intros c t0.
  destruct (decide (k' = k)) as [->|Hne].
  - rewrite lookup_insert_eq, Ht. congruence.
  - rewrite lookup_insert_ne by exact Hne. apply Hc.
Qed.

Lemma setting_holds_setSetting (st : config_state) (k v : string) (t : Z) :
  setting_holds (setSetting st k v t) k v.
Proof.
  unfold setting_holds, setSetting. split; cbn [settings settingCache]; [apply lookup_insert_eq|].
  rewrite lookup_insert_eq. congruence.
Qed.

Lemma setting_holds_setSetting_ne (st : config_state) (k v k' v' : string) (t : Z) :
  k' <> k -> setting_holds st k v -> setting_holds (setSetting st k' v' t) k v.
Proof.
  intros Hne [Ht Hc]. unfold setting_holds, setSetting. split; cbn [settings settingCache].
  - rewrite lookup_insert_ne by exact Hne. exact Ht.
  - rewrite lookup_insert_ne by exact Hne. exact Hc.
Qed.

Lemma setting_holds_getFeatureFlag (st : config_state) (k v k' : string) (fb : bool) (t : Z) :
  setting_holds st k v -> setting_holds (getFeatureFlag st k' fb t).2 k v.
Proof.
  intros H. unfold getFeatureFlag. destruct (readCached _ _ _); exact H.
Qed.

Lemma setting_holds_setFeatureFlag (st : config_state) (k v k' : string) (e : bool) (t : Z) :
  setting_holds st k v -> setting_holds (setFeatureFlag st k' e t) k v.
Proof. intros H. exact H. Qed.

Lemma flag_holds_getFeatureFlag (st : config_state) (k k' : string) (e fb : bool) (t : Z) :
  flag_holds st k e -> flag_holds (getFeatureFlag st k' fb t).2 k e.
Proof.
  intros [Ht Hc]. unfold flag_holds, getFeatureFlag.
  destruct (readCached (flagCache st) k' t); cbn [snd flags flagCache]; [split; auto|].
  split; [exact Ht|]. intros c t0.
  destruct (decide (k' = k)) as [->|Hne].
  - rewrite lookup_insert_eq, Ht. congruence.
  - rewrite lookup_insert_ne by exact Hne. apply Hc.
Qed.

Lemma flag_holds_setFeatureFlag (st : config_state) (k : string) (e : bool) (t : Z) :
  flag_holds (setFeatureFlag st k e t) k e.
Proof.
  unfold flag_holds, setFeatureFlag. split; cbn [flags flagCache]; [apply lookup_insert_eq|].
  rewrite lookup_insert_eq. congruence.
Qed.

Lemma flag_holds_setFeatureFlag_ne (st : config_state) (k k' : string) (e e' : bool) (t : Z) :
  k' <> k -> flag_holds st k e -> flag_holds (setFeatureFlag st k' e' t) k e.
Proof.
  intros Hne [Ht Hc]. unfold flag_holds, setFeatureFlag. split; cbn [flags flagCache].
  - rewrite lookup_insert_ne by exact Hne. exact Ht.
  - rewrite lookup_insert_ne by exact Hne. exact Hc.
Qed.

Lemma flag_holds_getSetting (st : config_state) (k k' fb : string) (e : bool) (t : Z) :
  flag_holds st k e -> flag_holds (getSetting st k' fb t).2 k e.
Proof.
  intros H. unfold getSetting. destruct (readCached _ _ _); exact H.
Qed.

Lemma flag_holds_setSetting (st : config_state) (k k' v : string) (e : bool) (t : Z) :
  flag_holds st k e -> flag_holds (setSetting st k' v t) k e.
Proof. intros H. exact H. Qed.

Lemma setting_holds_run (st : config_state) (k v : string) (ops : list config_op) :
  setting_holds st k v -> forallb (fun op => negb (writes_setting k op)) ops = true ->
  setting_holds (run_ops st ops) k v.
Proof.
  unfold run_ops. revert st. induction ops as [|op ops IH]; intros st H Hops; simpl in *; [exact H|].
  apply andb_prop in Hops as [Hop Hops]. apply IH; [|exact Hops].
  destruct op as [k' fb t|k' v' t|k' fb t|k' e t]; simpl.
  - apply setting_holds_getSetting; exact H.
  - simpl in Hop. destruct (String.eqb_spec k' k); [discriminate|].
    apply setting_holds_setSetting_ne; assumption.
  - apply setting_holds_getFeatureFlag; exact H.
  - apply setting_holds_setFeatureFlag; exact H.
Qed.

Lemma flag_holds_run (st : config_state) (k : string) (e : bool) (ops : list config_op) :
  flag_holds st k e -> forallb (fun op => negb (writes_flag k op)) ops = true ->
  flag_holds (run_ops st ops) k e.
Proof.
  unfold run_ops. revert st. induction ops as [|op ops IH]; intros st H Hops; simpl in *; [exact H|].
  apply andb_prop in Hops as [Hop Hops]. apply IH; [|exact Hops].
  destruct op as [k' fb t|k' v' t|k' fb t|k' e' t]; simpl.
  - apply flag_holds_getSetting; exact H.
  - apply flag_holds_setSetting; exact H.
  - apply flag_holds_getFeatureFlag; exact H.
  - simpl in Hop. destruct (String.eqb_spec k' k); [discriminate|].
    apply flag_holds_setFeatureFlag_ne; assumption.
Qed.

(** Read-your-writes through the cache: after [setSetting(k, v)] (resp.
    [setFeatureFlag(k, e)]), every later [getSetting(k, ...)] (resp.
    [getFeatureFlag(k, ...)]) returns [v] (resp. [e]), at any time and with
    any fallback, whatever other reads and writes of other keys come in
    between. *)
Theorem setSetting_read_your_writes (st : config_state) (k v : string) (e : bool)
  (now : Z) (ops : list config_op) :
  (forallb (fun op => negb (writes_setting k op)) ops = true ->
   forall fb t, (getSetting (run_ops (setSetting st k v now) ops) k fb t).1 = v) /\
  (forallb (fun op => negb (writes_flag k op)) ops = true ->
   forall fb t, (getFeatureFlag (run_ops (setFeatureFlag st k e now) ops) k fb t).1 = e).
Proof.
  split.
  - intros Hops fb t. apply setting_holds_read, setting_holds_run; [|exact Hops].
    apply setting_holds_setSetting.
  - intros Hops fb t. apply flag_holds_read, flag_holds_run; [|exact Hops].
    apply flag_holds_setFeatureFlag.
Qed.

(** The cache hides writes made behind the repository's back (another
    process, direct SQL): while the entry cached at [t0] is less than
    [CACHE_TTL_MS] = 5000 ms old, [getSetting] returns it and changes
    nothing, whatever the table now holds; once it is older, the table's
    row (or the fallback when there is none) is read and cached at [t].
    Whatever it returns is the table's value or fallback, or a value cached
    less than 5000 ms before.  [getBooleanSetting] with no row and no fresh
    cache entry returns its fallback. *)
Theorem getSetting_cache_window (st : config_state) (k fb : string) (t : Z) :
  (forall c t0, settingCache st !! k = Some (c, t0) ->
     (t - t0 < CACHE_TTL_MS -> getSetting st k fb t = (c, st)) /\
     (CACHE_TTL_MS <= t - t0 ->
        let v := match settings st !! k with Some x => x | None => fb end in
        (getSetting st k fb t).1 = v /\ settingCache (getSetting st k fb t).2 !! k = Some (v, t))) /\
  ((getSetting st k fb t).1 = match settings st !! k with Some x => x | None => fb end \/
   exists t0, settingCache st !! k = Some ((getSetting st k fb t).1, t0) /\ t - t0 < CACHE_TTL_MS) /\
  (settings st !! k = None -> readCached (settingCache st) k t = None ->
   forall b, (getBooleanSetting st k b t).1 = b).
Proof.
  split; [|split].
  - intros c t0 E. unfold getSetting, readCached, isFresh. rewrite E. simpl.
    split; intros Hlt.
    + destruct (Z.ltb_spec (t - t0) CACHE_TTL_MS); [reflexivity | lia].
    + destruct (Z.ltb_spec (t - t0) CACHE_TTL_MS); [lia|]. simpl.
      split; [reflexivity|]. cbn [snd settingCache]. apply lookup_insert_eq.
  - unfold getSetting. destruct (readCached (settingCache st) k t) as [x|] eqn:R; simpl.
    + right. apply readCached_Some in R. exact R.
    + left. reflexivity.
  - intros Hn R b. unfold getBooleanSetting, getSetting. rewrite R, Hn. simpl.
    destruct b; reflexivity.
Qed.

End ConfigFacts.

(* ------------------------------------------------------------------ *)
(** ** [PATCH /settings] *)

Module SettingsFacts.
Import SystemConfig SettingsRoute ConfigFacts.

(** The nine [setSetting] calls of the handler, in order, with the value
    each writes ([None] when the field is [undefined]). *)
Definition written_settings (b : settings_body) : list (string * option string) :=
  [("registration.mode", option_map toUpperCase (sb_registrationMode b));
   ("community.mode", option_map toUpperCase (sb_communityMode b));
   ("maintenance.mode", option_map toUpperCase (sb_maintenanceMode b));
   ("security.lockout.max_attempts", sb_lockoutMaxAttempts b);
   ("security.lockout.duration_minutes", sb_lockoutDurationMinutes b);
   ("security.rate_limit.window_ms", sb_rateLimitWindowMs b);
   ("security.rate_limit.auth_max", sb_authRateLimit b);
   ("security.rate_limit.public_max", sb_publicRateLimit b);
   ("security.rate_limit.general_max", sb_generalRateLimit b)].

(** The value the last entry for [k] of [featureFlags] gives it. *)
Definition last_flag (entries : list (string * bool)) (k : string) : option bool :=
  fold_left (fun acc (e : string * bool) => if String.eqb e.1 k then Some e.2 else acc) entries None.

Definition set_step (now : Z) (s : config_state) (kv : string * option string) : config_state :=
  set_if_defined s kv.1 kv.2 now.

Definition flag_step (now : Z) (s : config_state) (e : string * bool) : config_state :=
  setFeatureFlag s e.1 e.2 now.

Lemma invalid_value_false (o : option string) (l : list string) :
  invalid_value (option_map toUpperCase o) l = false <->
  (forall r, o = Some r -> In (toUpperCase r) l).
Proof.
  destruct o as [r|]; simpl.
  - rewrite negb_false_iff, PermissionFacts.str_in_spec. split.
    + intros H r' [= <-]. exact H.
    + intros H. apply H. reflexivity.
  - split; [intros _ r' [=] | reflexivity].
Qed.

Lemma patchSettings_valid (b : settings_body) (now : Z) (st : config_state) :
  invalid_value (option_map toUpperCase (sb_registrationMode b)) ["OPEN"; "APPROVAL"; "CLOSED"] = false ->
  invalid_value (option_map toUpperCase (sb_communityMode b)) ["ON"; "OFF"] = false ->
  invalid_value (option_map toUpperCase (sb_maintenanceMode b)) ["ON"; "OFF"] = false ->
  patchSettings b now st =
  let st1 := fold_left (set_step now) (written_settings b) st in
  let st2 := match sb_featureFlags b with
             | Some entries => fold_left (flag_step now) entries st1
             | None => st1 end in
  let '(foundation, st3) := getFoundationSettings st2 now in
  mkSettingsOut (mkResponse 200 (zip (map fst foundation_keys) (map JStr foundation)))
    st3 ["admin.settings.update"].
Proof. intros H1 H2 H3. unfold patchSettings. rewrite H1, H2, H3. reflexivity. Qed.

Lemma written_keys (b : settings_body) : map fst (written_settings b) = map fst foundation_keys.
Proof. reflexivity. Qed.

Lemma foundation_keys_nodup : NoDup (map fst foundation_keys).
Proof. apply (bool_decide_unpack _). vm_compute. exact I. Qed.

Lemma set_if_defined_holds_ne (st : config_state) (k v k' : string) (o : option string) (now : Z) :
  k' <> k -> setting_holds st k v -> setting_holds (set_if_defined st k' o now) k v.
Proof.
  intros Hne H. destruct o; simpl; [apply setting_holds_setSetting_ne|]; assumption.
Qed.

Lemma fold_set_holds_frame (l : list (string * option string)) (st : config_state) (k v : string) (now : Z) :
  ~ In k (map fst l) -> setting_holds st k v -> setting_holds (fold_left (set_step now) l st) k v.
Proof.
  revert st. induction l as [|[k0 o0] l IH]; intros st Hn H; simpl in *; [exact H|].
  apply IH; [tauto|]. unfold set_step. cbn [fst snd].
  apply set_if_defined_holds_ne; [|exact H]. intros ->. tauto.
Qed.

Lemma fold_set_holds (l : list (string * option string)) (st : config_state) (k v : string) (now : Z) :
  NoDup (map fst l) -> In (k, Some v) l -> setting_holds (fold_left (set_step now) l st) k v.
Proof.
  revert st. induction l as [|[k0 o0] l IH]; intros st Hnd Hin; [destruct Hin|].
  simpl in Hnd. inversion Hnd as [|? ? Hnotin Hnd']; subst. simpl.
  destruct Hin as [[= -> ->]|Hin].
  - apply fold_set_holds_frame; [intros Hc; apply Hnotin, list_elem_of_In, Hc|]. unfold set_step. cbn [fst snd set_if_defined].
    apply setting_holds_setSetting.
  - apply IH; assumption.
Qed.

Lemma fold_set_other (l : list (string * option string)) (st : config_state) (k : string) (now : Z) :
  ~ In k (map fst l) -> settings (fold_left (set_step now) l st) !! k = settings st !! k.
Proof.
  revert st. induction l as [|[k0 o0] l IH]; intros st Hn; simpl in *; [reflexivity|].
  rewrite IH by tauto. unfold set_step. simpl. destruct o0; simpl; [|reflexivity].
  apply lookup_insert_ne. intros ->. tauto.
Qed.

Lemma fold_flag_settings (entries : list (string * bool)) (st : config_state) (now : Z) :
  settings (fold_left (flag_step now) entries st) = settings st /\
  settingCache (fold_left (flag_step now) entries st) = settingCache st.
Proof.
  revert st. induction entries as [|e entries IH]; intros st; simpl; [auto|].
  destruct (IH (flag_step now st e)) as [E1 E2]. rewrite E1, E2. split; reflexivity.
Qed.

Lemma fold_flag_setting_holds (entries : list (string * bool)) (st : config_state) (k v : string) (now : Z) :
  setting_holds st k v -> setting_holds (fold_left (flag_step now) entries st) k v.
Proof.
  intros [H1 H2]. destruct (fold_flag_settings entries st now) as [E1 E2].
  split; [rewrite E1 | rewrite E2]; assumption.
Qed.

Lemma last_flag_go_some (entries : list (string * bool)) (k : string) (x : bool) :
  fold_left (fun acc (e : string * bool) => if String.eqb e.1 k then Some e.2 else acc)
    entries (Some x) <> None.
Proof.
  revert x. induction entries as [|[k1 e1] entries IH]; intros x; simpl; [discriminate|].
  destruct (String.eqb k1 k); apply IH.
Qed.

Lemma fold_flag_last (entries : list (string * bool)) (st : config_state) (k : string)
  (acc : option bool) (now : Z) :
  (forall e, acc = Some e -> flag_holds st k e) ->
  forall e, fold_left (fun acc (e : string * bool) => if String.eqb e.1 k then Some e.2 else acc)
              entries acc = Some e ->
  flag_holds (fold_left (flag_step now) entries st) k e.
Proof.
  revert st acc. induction entries as [|[k1 e1] entries IH]; intros st acc Hacc; simpl.
  - exact Hacc.
  - apply IH. destruct (String.eqb_spec k1 k) as [->|Hne].
    + intros e [= <-]. apply flag_holds_setFeatureFlag.
    + intros e He. apply flag_holds_setFeatureFlag_ne; [exact Hne | exact (Hacc e He)].
Qed.

Lemma fold_flag_none (entries : list (string * bool)) (st : config_state) (k : string) (now : Z) :
  last_flag entries k = None -> flags (fold_left (flag_step now) entries st) !! k = flags st !! k.
Proof.
  unfold last_flag. revert st. induction entries as [|[k1 e1] entries IH]; intros st Hl; simpl in *.
  - reflexivity.
  - destruct (String.eqb_spec k1 k) as [->|Hne].
    + exfalso. exact (last_flag_go_some entries k e1 Hl).
    + rewrite IH by exact Hl. simpl. apply lookup_insert_ne. exact Hne.
Qed.

Lemma read_settings_frame (keys : list (string * string)) (st : config_state) (now : Z) :
  settings (read_settings st keys now).2 = settings st /\
  flags (read_settings st keys now).2 = flags st.
Proof.
  revert st. induction keys as [|[k fb] keys IH]; intros st; simpl; [auto|].
  destruct (getSetting st k fb now) as [v st1] eqn:G.
  destruct (read_settings st1 keys now) as [vs st2] eqn:R. simpl.
  assert (Hg : settings st1 = settings st /\ flags st1 = flags st).
  { unfold getSetting in G. destruct (readCached _ _ _); injection G as <- <-; auto. }
  specialize (IH st1). rewrite R in IH. simpl in IH. destruct IH, Hg. split; congruence.
Qed.

Lemma read_settings_holds (keys : list (string * string)) (st : config_state) (k v : string) (now : Z) :
  setting_holds st k v -> setting_holds (read_settings st keys now).2 k v.
Proof.
  revert st. induction keys as [|[k0 fb] keys IH]; intros st H; simpl; [exact H|].
  destruct (getSetting st k0 fb now) as [v0 st1] eqn:G.
  destruct (read_settings st1 keys now) as [vs st2] eqn:R. simpl.
  specialize (IH st1). rewrite R in IH. apply IH.
  replace st1 with (getSetting st k0 fb now).2 by (rewrite G; reflexivity).
  apply setting_holds_getSetting. exact H.
Qed.

Lemma read_settings_flag_holds (keys : list (string * string)) (st : config_state) (k : string)
  (e : bool) (now : Z) :
  flag_holds st k e -> flag_holds (read_settings st keys now).2 k e.
Proof.
  revert st. induction keys as [|[k0 fb] keys IH]; intros st H; simpl; [exact H|].
  destruct (getSetting st k0 fb now) as [v0 st1] eqn:G.
  destruct (read_settings st1 keys now) as [vs st2] eqn:R. simpl.
  specialize (IH st1). rewrite R in IH. apply IH.
  replace st1 with (getSetting st k0 fb now).2 by (rewrite G; reflexivity).
  apply flag_holds_getSetting. exact H.
Qed.

Lemma read_settings_body (keys : list (string * string)) (st : config_state) (k v fb : string) (now : Z) :
  setting_holds st k v -> In (k, fb) keys ->
  In (k, JStr v) (zip (map fst keys) (map JStr (read_settings st keys now).1)).
Proof.
  revert st. induction keys as [|[k0 fb0] keys IH]; intros st H Hin; [destruct Hin|].
  simpl. destruct (getSetting st k0 fb0 now) as [v0 st1] eqn:G.
  destruct (read_settings st1 keys now) as [vs st2] eqn:R. simpl.
  destruct Hin as [[= -> ->]|Hin].
  - left. f_equal. f_equal.
    pose proof (setting_holds_read st k v fb now H) as Hv. rewrite G in Hv. simpl in Hv.
    exact Hv.
  - right. specialize (IH st1). rewrite R in IH. apply IH; [|exact Hin].
    replace st1 with (getSetting st k0 fb0 now).2 by (rewrite G; reflexivity).
    apply setting_holds_getSetting. exact H.
Qed.

(** [PATCH /settings] answers 200 exactly when each mode it is given is,
    once upper-cased, one the handler accepts (registration: OPEN,
    APPROVAL, CLOSED; community and maintenance: ON, OFF).  Otherwise it
    answers 400 with one of the three messages, and nothing is written and
    no audit entry is made, even when other fields of the body are valid:
    the validation runs before the first [setSetting]. *)
Theorem patchSettings_validation (b : settings_body) (now : Z) (st : config_state) :
  (code (s_resp (patchSettings b now st)) = 200 <->
   (forall r, sb_registrationMode b = Some r -> In (toUpperCase r) ["OPEN"; "APPROVAL"; "CLOSED"]) /\
   (forall c, sb_communityMode b = Some c -> In (toUpperCase c) ["ON"; "OFF"]) /\
   (forall m, sb_maintenanceMode b = Some m -> In (toUpperCase m) ["ON"; "OFF"])) /\
  (code (s_resp (patchSettings b now st)) = 200 ->
   s_audit (patchSettings b now st) = ["admin.settings.update"]) /\
  (code (s_resp (patchSettings b now st)) <> 200 ->
   exists m, In m ["Invalid registration mode"; "Invalid community mode"; "Invalid maintenance mode"] /\
   patchSettings b now st = mkSettingsOut (AdminRoutes.msg 400 m) st []).
Proof.
  destruct (invalid_value (option_map toUpperCase (sb_registrationMode b)) ["OPEN"; "APPROVAL"; "CLOSED"]) eqn:V1;
  [|destruct (invalid_value (option_map toUpperCase (sb_communityMode b)) ["ON"; "OFF"]) eqn:V2;
  [|destruct (invalid_value (option_map toUpperCase (sb_maintenanceMode b)) ["ON"; "OFF"]) eqn:V3]].
  - assert (E : patchSettings b now st = mkSettingsOut (AdminRoutes.msg 400 "Invalid registration mode") st [])
      by (unfold patchSettings; rewrite V1; reflexivity).
    rewrite E. cbn [s_resp s_state s_audit code AdminRoutes.msg]. split; [|split; [discriminate|]].
    + split; [discriminate|]. intros [H _]. apply invalid_value_false in H. congruence.
    + intros _. eexists. split; [left; reflexivity | reflexivity].
  - assert (E : patchSettings b now st = mkSettingsOut (AdminRoutes.msg 400 "Invalid community mode") st [])
      by (unfold patchSettings; rewrite V1, V2; reflexivity).
    rewrite E. cbn [s_resp s_state s_audit code AdminRoutes.msg]. split; [|split; [discriminate|]].
    + split; [discriminate|]. intros [_ [H _]]. apply invalid_value_false in H. congruence.
    + intros _. eexists. split; [right; left; reflexivity | reflexivity].
  - assert (E : patchSettings b now st = mkSettingsOut (AdminRoutes.msg 400 "Invalid maintenance mode") st [])
      by (unfold patchSettings; rewrite V1, V2, V3; reflexivity).
    rewrite E. cbn [s_resp s_state s_audit code AdminRoutes.msg]. split; [|split; [discriminate|]].
    + split; [discriminate|]. intros [_ [_ H]]. apply invalid_value_false in H. congruence.
    + intros _. eexists. split; [right; right; left; reflexivity | reflexivity].
  - rewrite (patchSettings_valid b now st V1 V2 V3). cbv zeta.
    destruct (getFoundationSettings _ now). cbn [s_resp s_audit code].
    split; [|split; [reflexivity | intros []; reflexivity]].
    split; [intros _|reflexivity].
    split; [apply (proj1 (invalid_value_false _ _)); exact V1|].
    split; apply (proj1 (invalid_value_false _ _)); assumption.
Qed.

(** What a successful [PATCH /settings] leaves behind.  Every setting it
    writes is listed with its new value in the response and is what every
    later [getSetting] returns, at any time, until that key is written
    again (the modes upper-cased, so for instance [normalizeRegistrationMode]
    and the maintenance check see the new mode at once, despite the
    5-second cache); each feature flag takes the value of its last entry in
    [featureFlags]; settings outside the nine keys and flags not listed are
    untouched.  Composed with [requireCommunityMode]: [communityMode: "off"]
    closes the community routes (404) at every later time, and
    [communityMode: "on"] together with
    [featureFlags: {"community.public_library": true}] opens them. *)
Theorem patchSettings_effect (b : settings_body) (now : Z) (st : config_state) :
  code (s_resp (patchSettings b now st)) = 200 ->
  (forall k v, In (k, Some v) (written_settings b) ->
     In (k, JStr v) (body (s_resp (patchSettings b now st))) /\
     forall ops, forallb (fun op => negb (writes_setting k op)) ops = true ->
     forall fb t, (getSetting (run_ops (s_state (patchSettings b now st)) ops) k fb t).1 = v) /\
  (forall entries k e, sb_featureFlags b = Some entries -> last_flag entries k = Some e ->
     forall ops, forallb (fun op => negb (writes_flag k op)) ops = true ->
     forall fb t, (getFeatureFlag (run_ops (s_state (patchSettings b now st)) ops) k fb t).1 = e) /\
  (forall k, ~ In k (map fst foundation_keys) ->
     settings (s_state (patchSettings b now st)) !! k = settings st !! k) /\
  (forall k, (forall entries, sb_featureFlags b = Some entries -> last_flag entries k = None) ->
     flags (s_state (patchSettings b now st)) !! k = flags st !! k) /\
  (forall c, sb_communityMode b = Some c -> toUpperCase c = "OFF" -> forall t,
     (Community.requireCommunityMode (s_state (patchSettings b now st)) t).1 =
     Respond (mkResponse 404 [("error", JStr "Community mode is disabled")])) /\
  (forall c entries, sb_communityMode b = Some c -> toUpperCase c = "ON" ->
     sb_featureFlags b = Some entries -> last_flag entries "community.public_library" = Some true ->
     forall t, (Community.requireCommunityMode (s_state (patchSettings b now st)) t).1 = Next).
Proof.
  intros H200. apply patchSettings_validation in H200 as [R1 [R2 R3]].
  apply invalid_value_false in R1, R2, R3.
  rewrite (patchSettings_valid b now st R1 R2 R3). cbv zeta.
  set (st1 := fold_left (set_step now) (written_settings b) st).
  set (st2 := match sb_featureFlags b with
              | Some entries => fold_left (flag_step now) entries st1
              | None => st1 end).
  assert (Hnd : NoDup (map fst (written_settings b)))
    by (rewrite written_keys; exact foundation_keys_nodup).
  assert (Hs2 : forall k v, In (k, Some v) (written_settings b) -> setting_holds st2 k v).
  { intros k v Hin. pose proof (fold_set_holds _ st k v now Hnd Hin) as H1.
    subst st2. destruct (sb_featureFlags b); [apply fold_flag_setting_holds|]; exact H1. }
  assert (Hf2 : forall entries k e, sb_featureFlags b = Some entries -> last_flag entries k = Some e ->
                flag_holds st2 k e).
  { intros entries k e Hb Hl. subst st2. rewrite Hb.
    apply (fold_flag_last entries st1 k None now); [discriminate | exact Hl]. }
  pose proof (read_settings_frame foundation_keys st2 now) as [Fs Ff].
  unfold getFoundationSettings.
  destruct (read_settings st2 foundation_keys now) as [foundation st3] eqn:RS. cbn [fst snd] in Fs, Ff. cbn [s_resp s_state body].
  assert (Hs3 : forall k v, In (k, Some v) (written_settings b) -> setting_holds st3 k v).
  { intros k v Hin. pose proof (read_settings_holds foundation_keys st2 k v now (Hs2 k v Hin)) as H.
    rewrite RS in H. exact H. }
  assert (Hf3 : forall entries k e, sb_featureFlags b = Some entries -> last_flag entries k = Some e ->
                flag_holds st3 k e).
  { intros entries k e Hb Hl.
    pose proof (read_settings_flag_holds foundation_keys st2 k e now (Hf2 entries k e Hb Hl)) as H.
    rewrite RS in H. exact H. }
  split; [|split; [|split; [|split; [|split]]]].
  - intros k v Hin. split.
    + assert (Hk : In k (map fst foundation_keys))
        by (rewrite <- (written_keys b); apply (in_map fst _ (k, Some v)) in Hin; exact Hin).
      apply in_map_iff in Hk as [[k' fb] [Hk' Hfb]]. simpl in Hk'. subst k'.
      pose proof (read_settings_body foundation_keys st2 k v fb now (Hs2 k v Hin) Hfb) as H.
      rewrite RS in H. exact H.
    + intros ops Hops fb t. apply setting_holds_read, setting_holds_run; [|exact Hops].
      exact (Hs3 k v Hin).
  - intros entries k e Hb Hl ops Hops fb t. apply flag_holds_read, flag_holds_run; [|exact Hops].
    exact (Hf3 entries k e Hb Hl).
  - intros k Hk. rewrite Fs. subst st2.
    assert (Hst1 : settings st1 !! k = settings st !! k)
      by (apply fold_set_other; rewrite written_keys; exact Hk).
    destruct (sb_featureFlags b); [|exact Hst1].
    rewrite (proj1 (fold_flag_settings _ _ _)). exact Hst1.
  - intros k Hk. rewrite Ff. subst st2.
    assert (Hst1 : flags st1 = flags st).
    { subst st1. clear. generalize st. induction (written_settings b) as [|[k0 o0] l IH];
        intros s; simpl; [reflexivity|]. rewrite IH. unfold set_step. simpl.
      destruct o0; reflexivity. }
    destruct (sb_featureFlags b) as [entries|]; [|exact (f_equal (lookup k) Hst1)].
    rewrite fold_flag_none by (apply Hk; reflexivity). rewrite Hst1. reflexivity.
  - intros c Hc Hoff t. unfold Community.requireCommunityMode, Community.isCommunityModeEnabled.
    assert (Hin : In ("community.mode", Some (toUpperCase c)) (written_settings b))
      by (simpl; rewrite Hc; simpl; tauto).
    pose proof (setting_holds_read st3 _ _ "OFF" t (Hs3 _ _ Hin)) as Hv.
    destruct (getSetting st3 "community.mode" "OFF" t) as [mode st4]. simpl in Hv. subst mode.
    destruct (getFeatureFlag st4 "community.public_library" true t) as [fl st5].
    rewrite Hoff. reflexivity.
  - intros c entries Hc Hon Hb Hl t.
    unfold Community.requireCommunityMode, Community.isCommunityModeEnabled.
    assert (Hin : In ("community.mode", Some (toUpperCase c)) (written_settings b))
      by (simpl; rewrite Hc; simpl; tauto).
    pose proof (setting_holds_read st3 _ _ "OFF" t (Hs3 _ _ Hin)) as Hv.
    pose proof (flag_holds_getSetting st3 "community.public_library" "community.mode" "OFF" true t
                  (Hf3 entries _ true Hb Hl)) as Hf4.
    destruct (getSetting st3 "community.mode" "OFF" t) as [mode st4]. simpl in Hv, Hf4. subst mode.
    pose proof (flag_holds_read st4 _ true true t Hf4) as Hfl.
    destruct (getFeatureFlag st4 "community.public_library" true t) as [fl st5].
    simpl in Hfl. subst fl. rewrite Hon. reflexivity.
Qed.

(** A body that closes registration and opens the public library flag. *)
Definition example_settings_body : settings_body :=
  mkSettingsBody (Some "closed") None (Some "off") (Some "3") None None None None None
    (Some [("community.public_library", false); ("community.public_library", true)]).

Definition empty_config : config_state := mkConfig ∅ ∅ ∅ ∅.

Lemma patchSettings_effect_witness :
  code (s_resp (patchSettings example_settings_body 0 empty_config)) = 200 /\
  (forall ops, forallb (fun op => negb (writes_setting "registration.mode" op)) ops = true ->
   forall fb t, (getSetting (run_ops (s_state (patchSettings example_settings_body 0 empty_config)) ops)
                   "registration.mode" fb t).1 = "CLOSED").
Proof.
  assert (H : code (s_resp (patchSettings example_settings_body 0 empty_config)) = 200)
    by (vm_compute; reflexivity).
  split; [exact H|].
  apply (proj2 (proj1 (patchSettings_effect example_settings_body 0 empty_config H)
                  "registration.mode" "CLOSED" ltac:(vm_compute; left; reflexivity))).
Defined.

End SettingsFacts.

(* ------------------------------------------------------------------ *)
(** ** Schema migration of [users] and [snippets] *)

Module MigrationFacts.
Import Migration.

(** One [ALTER TABLE ... ADD COLUMN c DEFAULT d] on a row, [present] telling
    whether the column was already there. *)
Definition addc (present : bool) (c : string) (d : sqlv) (r : row) : row :=
  if present then r else <[c := d]> r.

(** The six [ensureColumn] calls of [ensureUsersColumns] on a row of a
    table whose columns were [cols]. *)
Definition pre_users (cols : list string) (r : row) : row :=
  addc (str_in "session_version" cols) "session_version" (SInt 1)
  (addc (str_in "force_password_reset" cols) "force_password_reset" (SInt 0)
  (addc (str_in "locked_until" cols) "locked_until" SNull
  (addc (str_in "failed_login_attempts" cols) "failed_login_attempts" (SInt 0)
  (addc (str_in "status" cols) "status" (SText "ACTIVE")
  (addc (str_in "role" cols) "role" (SText "USER") r))))).

(** The whole migration on the row with rowid [k]. *)
Definition users_row (cols : list string) (k : Z) (r : row) : row :=
  fix_session_version k (fill_failed k (fix_status k (fill_status k
    (fix_role k (fill_role k (pre_users cols r)))))).

Definition pre_snippets (cols : list string) (r : row) : row :=
  addc (str_in "visibility" cols) "visibility" (SText "PRIVATE") r.

Definition snippets_row (cols : list string) (k : Z) (r : row) : row :=
  fix_visibility k (fill_visibility k (pre_snippets cols r)).

Definition users_added_columns : list string :=
  ["role"; "status"; "failed_login_attempts"; "locked_until"; "force_password_reset";
   "session_version"].

Lemma col_ins_eq (r : row) (c : string) (v : sqlv) : col (<[c := v]> r) c = v.
Proof. unfold col. rewrite lookup_insert_eq. reflexivity. Qed.

Lemma col_ins_ne (r : row) (c c' : string) (v : sqlv) : c' <> c -> col (<[c := v]> r) c' = col r c'.
Proof. intros H. unfold col. rewrite lookup_insert_ne by congruence. reflexivity. Qed.

Lemma addc_col (p : bool) (c : string) (d : sqlv) (r : row) (x : string) :
  x <> c -> col (addc p c d r) x = col r x.
Proof. intros H. destruct p; simpl; [reflexivity | apply col_ins_ne; exact H]. Qed.

Lemma addc_col_eq (p : bool) (c : string) (d : sqlv) (r : row) :
  col (addc p c d r) c = if p then col r c else d.
Proof. destruct p; simpl; [reflexivity | apply col_ins_eq]. Qed.

Lemma fill_role_col (k : Z) (r : row) (x : string) : x <> "role" -> col (fill_role k r) x = col r x.
Proof. intros H. unfold fill_role. destruct (is_null_or_empty _); [apply col_ins_ne; exact H | reflexivity]. Qed.

Lemma fix_role_col (k : Z) (r : row) (x : string) : x <> "role" -> col (fix_role k r) x = col r x.
Proof. intros H. unfold fix_role. destruct (sql_not_in _ _); [apply col_ins_ne; exact H | reflexivity]. Qed.

Lemma fill_status_col (k : Z) (r : row) (x : string) : x <> "status" -> col (fill_status k r) x = col r x.
Proof. intros H. unfold fill_status. destruct (is_null_or_empty _); [apply col_ins_ne; exact H | reflexivity]. Qed.

Lemma fix_status_col (k : Z) (r : row) (x : string) : x <> "status" -> col (fix_status k r) x = col r x.
Proof. intros H. unfold fix_status. destruct (sql_not_in _ _); [apply col_ins_ne; exact H | reflexivity]. Qed.

Lemma fill_failed_col (k : Z) (r : row) (x : string) :
  x <> "failed_login_attempts" -> col (fill_failed k r) x = col r x.
Proof. intros H. unfold fill_failed. destruct (col r _); try reflexivity. apply col_ins_ne; exact H. Qed.

Lemma fix_session_version_col (k : Z) (r : row) (x : string) :
  x <> "session_version" -> col (fix_session_version k r) x = col r x.
Proof.
  intros H. unfold fix_session_version.
  destruct (col r _); [apply col_ins_ne; exact H| |]; destruct (sql_lt_int _ _);
    try reflexivity; apply col_ins_ne; exact H.
Qed.

Lemma fill_visibility_col (k : Z) (r : row) (x : string) :
  x <> "visibility" -> col (fill_visibility k r) x = col r x.
Proof. intros H. unfold fill_visibility. destruct (is_null_or_empty _); [apply col_ins_ne; exact H | reflexivity]. Qed.

Lemma fix_visibility_col (k : Z) (r : row) (x : string) :
  x <> "visibility" -> col (fix_visibility k r) x = col r x.
Proof. intros H. unfold fix_visibility. destruct (sql_not_in _ _); [apply col_ins_ne; exact H | reflexivity]. Qed.

Ltac frame_cols :=
  repeat first
    [ rewrite fix_session_version_col by discriminate
    | rewrite fill_failed_col by discriminate
    | rewrite fix_status_col by discriminate
    | rewrite fill_status_col by discriminate
    | rewrite fix_role_col by discriminate
    | rewrite fill_role_col by discriminate
    | rewrite fix_visibility_col by discriminate
    | rewrite fill_visibility_col by discriminate
    | rewrite addc_col by discriminate ].

(** A [CASE]-then-[NOT IN] pair leaves a value of the list in the column. *)
Lemma fill_fix_valid (c : string) (vals : list string) (dflt : string) (r1 r2 : row) :
  col r1 c <> SNull -> In dflt vals ->
  r2 = (if sql_not_in (col r1 c) vals then <[c := SText dflt]> r1 else r1) ->
  exists x, col r2 c = SText x /\ In x vals.
Proof.
  intros Hn Hd ->. destruct (col r1 c) as [|z|s] eqn:C; [contradiction| |]; cbn [sql_not_in].
  - exists dflt. rewrite col_ins_eq. auto.
  - destruct (str_in s vals) eqn:S; cbn [negb].
    + exists s. rewrite C. split; [reflexivity | apply PermissionFacts.str_in_spec; exact S].
    + exists dflt. rewrite col_ins_eq. auto.
Qed.

Lemma fill_nonnull (c : string) (r : row) (v : sqlv) :
  v <> SNull -> col (if is_null_or_empty (col r c) then <[c := v]> r else r) c <> SNull.
Proof.
  intros Hv. destruct (is_null_or_empty (col r c)) eqn:E; [rewrite col_ins_eq; exact Hv|].
  destruct (col r c); simpl in E; discriminate.
Qed.

Lemma users_row_role (cols : list string) (k : Z) (r : row) :
  exists x, col (users_row cols k r) "role" = SText x /\ In x ROLE_VALUES.
Proof.
  unfold users_row. frame_cols.
  eapply (fill_fix_valid "role" ROLE_VALUES "USER"); [| simpl; tauto | reflexivity].
  unfold fill_role. apply fill_nonnull. discriminate.
Qed.

Lemma users_row_status (cols : list string) (k : Z) (r : row) :
  exists x, col (users_row cols k r) "status" = SText x /\ In x STATUS_VALUES.
Proof.
  unfold users_row. frame_cols.
  eapply (fill_fix_valid "status" STATUS_VALUES "ACTIVE"); [| simpl; tauto | reflexivity].
  unfold fill_status. apply fill_nonnull. discriminate.
Qed.

Lemma users_row_failed (cols : list string) (k : Z) (r : row) :
  col (users_row cols k r) "failed_login_attempts" <> SNull.
Proof.
  unfold users_row. frame_cols. unfold fill_failed.
  match goal with |- col (match col ?R ?c with _ => _ end) _ <> _ => destruct (col R c) eqn:C end;
    [rewrite col_ins_eq|rewrite C|rewrite C]; discriminate.
Qed.

(** [failed_login_attempts] after the migration: the column's [DEFAULT 0]
    when the column is added, else a [NULL] becomes 0 and any other value
    (a negative count included) is kept. *)
Lemma users_row_failed_value (cols : list string) (k : Z) (r : row) :
  col (users_row cols k r) "failed_login_attempts" =
  match (if str_in "failed_login_attempts" cols then col r "failed_login_attempts" else SInt 0) with
  | SNull => SInt 0
  | v => v
  end.
Proof.
  assert (HP : col (fix_status k (fill_status k (fix_role k (fill_role k (pre_users cols r)))))
                 "failed_login_attempts" =
               if str_in "failed_login_attempts" cols then col r "failed_login_attempts" else SInt 0).
  { frame_cols. unfold pre_users. frame_cols. rewrite addc_col_eq. frame_cols. reflexivity. }
  unfold users_row. rewrite fix_session_version_col by discriminate. unfold fill_failed.
  rewrite <- HP.
  match goal with |- col (match col ?R ?c with _ => _ end) _ = _ => destruct (col R c) eqn:C end;
    [rewrite col_ins_eq | rewrite C | rewrite C]; reflexivity.
Qed.

Lemma users_row_session (cols : list string) (k : Z) (r : row) :
  col (users_row cols k r) "session_version" <> SNull /\
  forall z, col (users_row cols k r) "session_version" = SInt z -> 1 <= z.
Proof.
  unfold users_row. set (r5 := fill_failed k _). unfold fix_session_version.
  destruct (col r5 "session_version") as [|z|s] eqn:C; cbn [sql_lt_int].
  - rewrite col_ins_eq. split; [discriminate | intros z [= <-]; lia].
  - destruct (Z.ltb_spec z 1).
    + rewrite col_ins_eq. split; [discriminate | intros z' [= <-]; lia].
    + rewrite C. split; [discriminate | intros z' [= <-]; lia].
  - rewrite C. split; discriminate.
Qed.

Lemma users_row_frame (cols : list string) (k : Z) (r : row) (c : string) :
  ~ In c users_added_columns -> col (users_row cols k r) c = col r c.
Proof.
  intros Hc. simpl in Hc. unfold users_row, pre_users.
  rewrite fix_session_version_col, fill_failed_col, fix_status_col, fill_status_col,
    fix_role_col, fill_role_col, !addc_col by (intros ->; apply Hc; auto 8). reflexivity.
Qed.

(** On a row that is already normalized, with every column present, the
    migration changes nothing. *)
Lemma users_row_id (cols : list string) (k : Z) (r : row) :
  forallb (fun c => str_in c cols) users_added_columns = true ->
  (exists x, col r "role" = SText x /\ In x ROLE_VALUES) ->
  (exists x, col r "status" = SText x /\ In x STATUS_VALUES) ->
  col r "failed_login_attempts" <> SNull ->
  col r "session_version" <> SNull ->
  (forall z, col r "session_version" = SInt z -> 1 <= z) ->
  users_row cols k r = r.
Proof.
  intros Hcols [x [Hx Vx]] [y [Hy Vy]] Hf Hs1 Hs2.
  simpl in Hcols. repeat rewrite andb_true_iff in Hcols.
  destruct Hcols as [H1 [H2 [H3 [H4 [H5 [H6 _]]]]]].
  unfold users_row, pre_users, addc. rewrite H1, H2, H3, H4, H5, H6.
  assert (Ex : x <> "") by (intros ->; simpl in Vx; intuition discriminate).
  assert (Ey : y <> "") by (intros ->; simpl in Vy; intuition discriminate).
  unfold fill_role. rewrite Hx. cbn [is_null_or_empty].
  rewrite (proj2 (String.eqb_neq _ _) Ex).
  unfold fix_role. rewrite Hx. cbn [sql_not_in].
  rewrite (proj2 (PermissionFacts.str_in_spec _ _) Vx). cbn [negb].
  unfold fill_status. rewrite Hy. cbn [is_null_or_empty].
  rewrite (proj2 (String.eqb_neq _ _) Ey).
  unfold fix_status. rewrite Hy. cbn [sql_not_in].
  rewrite (proj2 (PermissionFacts.str_in_spec _ _) Vy). cbn [negb].
  unfold fill_failed. destruct (col r "failed_login_attempts") as [|zf|sf]; [contradiction| |];
  unfold fix_session_version; destruct (col r "session_version") as [|z|s] eqn:C;
    try contradiction; cbn [sql_lt_int]; try reflexivity;
  (destruct (Z.ltb_spec z 1); [specialize (Hs2 z eq_refl); lia | reflexivity]).
Qed.

Lemma forallb_false_ex {A : Type} (p : A -> bool) (l : list A) :
  forallb p l = false -> exists x, In x l /\ p x = false.
Proof.
  induction l as [|a l IH]; simpl; [discriminate|].
  destruct (p a) eqn:E; simpl; [intros H; destruct (IH H) as [x [? ?]]; eauto | eauto].
Qed.

Lemma ensureColumn_cols (t : sql_table) (c : string) (d : sqlv) (x : string) :
  str_in x (columns (ensureColumn t c d)) = str_in x (columns t) || String.eqb x c.
Proof.
  unfold ensureColumn. destruct (str_in c (columns t)) eqn:E; cbn [columns].
  - destruct (String.eqb_spec x c) as [->|_]; [rewrite E; reflexivity | apply eq_sym, orb_false_r].
  - unfold str_in. rewrite existsb_app. simpl. rewrite orb_false_r. reflexivity.
Qed.

Lemma str_in_cols_ensure (t : sql_table) (c c' : string) (d : sqlv) :
  c <> c' -> str_in c (columns (ensureColumn t c' d)) = str_in c (columns t).
Proof.
  intros H. rewrite ensureColumn_cols, (proj2 (String.eqb_neq _ _) H). apply orb_false_r.
Qed.

Lemma str_in_cols_ensure_eq (t : sql_table) (c : string) (d : sqlv) :
  str_in c (columns (ensureColumn t c d)) = true.
Proof. rewrite ensureColumn_cols, String.eqb_refl. apply orb_true_r. Qed.

Lemma ensureColumn_lookup (t : sql_table) (c : string) (d : sqlv) (k : Z) :
  rows (ensureColumn t c d) !! k = addc (str_in c (columns t)) c d <$> rows t !! k.
Proof.
  unfold ensureColumn, addc. destruct (str_in c (columns t)); cbn [rows].
  - destruct (rows t !! k); reflexivity.
  - apply lookup_fmap.
Qed.

Lemma ensureColumn_present (t : sql_table) (c : string) (d : sqlv) :
  str_in c (columns t) = true -> ensureColumn t c d = t.
Proof. unfold ensureColumn. intros ->. reflexivity. Qed.

Lemma exec_update_Some (t : sql_table) (refs : list string) (f : Z -> row -> row) (t' : sql_table) :
  exec_update t refs f = Some t' ->
  (forall c, In c refs -> str_in c (columns t) = true) /\
  columns t' = columns t /\ forall k, rows t' !! k = f k <$> rows t !! k.
Proof.
  unfold exec_update. destruct (forallb _ refs) eqn:E; [|discriminate]. intros [= <-].
  split; [rewrite forallb_forall in E; exact E|]. split; [reflexivity|].
  intros k. cbn [rows]. rewrite map_lookup_imap. destruct (rows t !! k); reflexivity.
Qed.

Lemma exec_update_None (t : sql_table) (refs : list string) (f : Z -> row -> row) :
  exec_update t refs f = None -> exists c, In c refs /\ str_in c (columns t) = false.
Proof.
  unfold exec_update. destruct (forallb _ refs) eqn:E; [discriminate|]. intros _.
  apply forallb_false_ex. exact E.
Qed.

Lemma exec_update_ok (t : sql_table) (refs : list string) (f : Z -> row -> row) :
  forallb (fun c => str_in c (columns t)) refs = true -> exists t', exec_update t refs f = Some t'.
Proof. unfold exec_update. intros ->. eauto. Qed.

Ltac dest_exec H name E :=
  match type of H with
  | context [exec_update ?t ?refs ?f] => destruct (exec_update t refs f) as [name|] eqn:E
  end.

Ltac cols_ensure :=
  repeat first [ rewrite str_in_cols_ensure by discriminate | rewrite str_in_cols_ensure_eq ].

Ltac cols_ensure_in H :=
  repeat first [ rewrite str_in_cols_ensure in H by discriminate | rewrite str_in_cols_ensure_eq in H ].

Lemma ensureUsersColumns_Some (t t' : sql_table) :
  ensureUsersColumns t = Some t' ->
  str_in "is_admin" (columns t) = true /\ str_in "is_active" (columns t) = true /\
  (forall x, str_in x (columns t') = true <-> str_in x (columns t) = true \/ In x users_added_columns) /\
  (forallb (fun c => str_in c (columns t)) users_added_columns = true -> columns t' = columns t) /\
  forall k, rows t' !! k = users_row (columns t) k <$> rows t !! k.
Proof.
  unfold ensureUsersColumns. intros H. cbv zeta in H.
  dest_exec H t7 E7; [|discriminate]. simpl in H.
  dest_exec H t8 E8; [|discriminate]. simpl in H.
  dest_exec H t9 E9; [|discriminate]. simpl in H.
  dest_exec H t10 E10; [|discriminate]. simpl in H.
  dest_exec H t11 E11; [|discriminate]. simpl in H.
  apply exec_update_Some in E7 as [R7 [C7 L7]], E8 as [_ [C8 L8]], E9 as [R9 [C9 L9]],
    E10 as [_ [C10 L10]], E11 as [_ [C11 L11]], H as [_ [C12 L12]].
  pose proof (R7 "is_admin" ltac:(simpl; tauto)) as A. pose proof (R9 "is_active" ltac:(simpl; tauto)) as B.
  rewrite C8, C7 in B. cols_ensure_in A. cols_ensure_in B. split; [exact A|]. split; [exact B|].
  split; [|split].
  - intros x. rewrite C12, C11, C10, C9, C8, C7, !ensureColumn_cols, !orb_true_iff, !String.eqb_eq.
    simpl. intuition congruence.
  - intros Hall. simpl in Hall. repeat rewrite andb_true_iff in Hall.
    destruct Hall as [H1 [H2 [H3 [H4 [H5 [H6 _]]]]]].
    rewrite C12, C11, C10, C9, C8, C7.
    rewrite (ensureColumn_present t "role") by exact H1.
    rewrite (ensureColumn_present t "status") by exact H2.
    rewrite (ensureColumn_present t "failed_login_attempts") by exact H3.
    rewrite (ensureColumn_present t "locked_until") by exact H4.
    rewrite (ensureColumn_present t "force_password_reset") by exact H5.
    rewrite (ensureColumn_present t "session_version") by exact H6. reflexivity.
  - intros k. rewrite L12, L11, L10, L9, L8, L7, !ensureColumn_lookup. cols_ensure.
    unfold users_row, pre_users. destruct (rows t !! k); reflexivity.
Qed.

Lemma ensureUsersColumns_None (t : sql_table) :
  ensureUsersColumns t = None ->
  str_in "is_admin" (columns t) = false \/ str_in "is_active" (columns t) = false.
Proof.
  unfold ensureUsersColumns. intros H. cbv zeta in H.
  dest_exec H t7 E7; simpl in H.
  2:{ apply exec_update_None in E7 as [c [Hc Hn]].
      simpl in Hc. destruct Hc as [<-|[<-|[]]]; cols_ensure_in Hn; [discriminate | left; exact Hn]. }
  apply exec_update_Some in E7 as [_ [C7 _]].
  dest_exec H t8 E8; simpl in H.
  2:{ apply exec_update_None in E8 as [c [Hc Hn]]. simpl in Hc. destruct Hc as [<-|[]].
      rewrite C7 in Hn. cols_ensure_in Hn. discriminate. }
  apply exec_update_Some in E8 as [_ [C8 _]].
  dest_exec H t9 E9; simpl in H.
  2:{ apply exec_update_None in E9 as [c [Hc Hn]]. rewrite C8, C7 in Hn.
      simpl in Hc. destruct Hc as [<-|[<-|[]]]; cols_ensure_in Hn; [discriminate | right; exact Hn]. }
  apply exec_update_Some in E9 as [_ [C9 _]].
  dest_exec H t10 E10; simpl in H.
  2:{ apply exec_update_None in E10 as [c [Hc Hn]]. rewrite C9, C8, C7 in Hn.
      simpl in Hc. destruct Hc as [<-|[]]. cols_ensure_in Hn. discriminate. }
  apply exec_update_Some in E10 as [_ [C10 _]].
  dest_exec H t11 E11; simpl in H.
  2:{ apply exec_update_None in E11 as [c [Hc Hn]]. rewrite C10, C9, C8, C7 in Hn.
      simpl in Hc. destruct Hc as [<-|[]]. cols_ensure_in Hn. discriminate. }
  apply exec_update_Some in E11 as [_ [C11 _]].
  apply exec_update_None in H as [c [Hc Hn]]. rewrite C11, C10, C9, C8, C7 in Hn.
  simpl in Hc. destruct Hc as [<-|[]]. cols_ensure_in Hn. discriminate.
Qed.

Lemma fill_keeps (c : string) (r : row) (v : sqlv) (x : string) :
  col r c = SText x -> x <> "" ->
  (if is_null_or_empty (col r c) then <[c := v]> r else r) = r.
Proof.
  intros Hx Hne. rewrite Hx. cbn [is_null_or_empty].
  rewrite (proj2 (String.eqb_neq _ _) Hne). reflexivity.
Qed.

Lemma fix_keeps (c : string) (vals : list string) (v : sqlv) (r : row) (x : string) :
  col r c = SText x -> In x vals ->
  (if sql_not_in (col r c) vals then <[c := v]> r else r) = r.
Proof.
  intros Hx Hin. rewrite Hx. cbn [sql_not_in].
  rewrite (proj2 (PermissionFacts.str_in_spec _ _) Hin). reflexivity.
Qed.

Lemma in_values_nonempty (x : string) (vals : list string) :
  In x vals -> ~ In "" vals -> x <> "".
Proof. intros H1 H2 ->. contradiction. Qed.

Lemma pre_users_role (cols : list string) (r : row) :
  col (pre_users cols r) "role" = if str_in "role" cols then col r "role" else SText "USER".
Proof. unfold pre_users. frame_cols. rewrite addc_col_eq. frame_cols. reflexivity. Qed.

Lemma pre_users_status (cols : list string) (r : row) :
  col (pre_users cols r) "status" = if str_in "status" cols then col r "status" else SText "ACTIVE".
Proof. unfold pre_users. frame_cols. rewrite addc_col_eq. frame_cols. reflexivity. Qed.

Lemma users_row_role_cases (cols : list string) (k : Z) (r : row) :
  (str_in "role" cols = false -> col (users_row cols k r) "role" = SText "USER") /\
  (str_in "role" cols = true -> is_null_or_empty (col r "role") = true ->
     col (users_row cols k r) "role" =
     SText (if Z.eqb k 0 then "READ_ONLY"
            else if sql_eq_int (col r "is_admin") 1 then "ADMIN" else "USER")) /\
  (forall x, In x ROLE_VALUES -> str_in "role" cols = true -> col r "role" = SText x ->
     col (users_row cols k r) "role" = SText x).
Proof.
  unfold users_row. frame_cols.
  assert (Hadm : col (pre_users cols r) "is_admin" = col r "is_admin") by (unfold pre_users; frame_cols; reflexivity).
  split; [|split].
  - intros Hc. assert (HP : col (pre_users cols r) "role" = SText "USER") by (rewrite pre_users_role, Hc; reflexivity).
    unfold fix_role, fill_role.
    rewrite (fill_keeps "role" _ _ "USER") by (exact HP || discriminate).
    rewrite (fix_keeps "role" ROLE_VALUES _ _ "USER") by (exact HP || (simpl; tauto)). exact HP.
  - intros Hc Hn. assert (HP : col (pre_users cols r) "role" = col r "role") by (rewrite pre_users_role, Hc; reflexivity).
    unfold fix_role, fill_role. rewrite HP, Hn, Hadm.
    set (v := if Z.eqb k 0 then _ else _).
    assert (Hv : In v ROLE_VALUES) by (subst v; destruct (Z.eqb k 0); [|destruct (sql_eq_int _ 1)]; simpl; tauto).
    rewrite (fix_keeps "role" ROLE_VALUES _ _ v) by (exact Hv || apply col_ins_eq). apply col_ins_eq.
  - intros x Hx Hc Hr. assert (HP : col (pre_users cols r) "role" = SText x) by (rewrite pre_users_role, Hc; exact Hr).
    assert (Hne : x <> "") by (apply (in_values_nonempty x ROLE_VALUES Hx); simpl; intuition discriminate).
    unfold fix_role, fill_role.
    rewrite (fill_keeps "role" _ _ x) by assumption.
    rewrite (fix_keeps "role" ROLE_VALUES _ _ x) by assumption. exact HP.
Qed.

Lemma users_row_status_cases (cols : list string) (k : Z) (r : row) :
  (str_in "status" cols = false -> col (users_row cols k r) "status" = SText "ACTIVE") /\
  (str_in "status" cols = true -> is_null_or_empty (col r "status") = true ->
     col (users_row cols k r) "status" =
     SText (if sql_eq_int (col r "is_active") 0 then "SUSPENDED" else "ACTIVE")) /\
  (forall x, In x STATUS_VALUES -> str_in "status" cols = true -> col r "status" = SText x ->
     col (users_row cols k r) "status" = SText x).
Proof.
  unfold users_row. frame_cols.
  assert (HS : col (fix_role k (fill_role k (pre_users cols r))) "status" = col (pre_users cols r) "status")
    by (frame_cols; reflexivity).
  set (R := fix_role k (fill_role k (pre_users cols r))) in *.
  assert (Hact' : col R "is_active" = col r "is_active")
    by (subst R; frame_cols; unfold pre_users; frame_cols; reflexivity).
  split; [|split].
  - intros Hc. assert (HP : col R "status" = SText "ACTIVE") by (rewrite HS, pre_users_status, Hc; reflexivity).
    unfold fix_status, fill_status.
    rewrite (fill_keeps "status" _ _ "ACTIVE") by (exact HP || discriminate).
    rewrite (fix_keeps "status" STATUS_VALUES _ _ "ACTIVE") by (exact HP || (simpl; tauto)). exact HP.
  - intros Hc Hn. assert (HP : col R "status" = col r "status") by (rewrite HS, pre_users_status, Hc; reflexivity).
    unfold fix_status, fill_status. rewrite HP, Hn, Hact'.
    set (v := if sql_eq_int _ 0 then _ else _).
    assert (Hv : In v STATUS_VALUES) by (subst v; destruct (sql_eq_int _ 0); simpl; tauto).
    rewrite (fix_keeps "status" STATUS_VALUES _ _ v) by (exact Hv || apply col_ins_eq). apply col_ins_eq.
  - intros x Hx Hc Hr. assert (HP : col R "status" = SText x) by (rewrite HS, pre_users_status, Hc; exact Hr).
    assert (Hne : x <> "") by (apply (in_values_nonempty x STATUS_VALUES Hx); simpl; intuition discriminate).
    unfold fix_status, fill_status.
    rewrite (fill_keeps "status" _ _ x) by assumption.
    rewrite (fix_keeps "status" STATUS_VALUES _ _ x) by assumption. exact HP.
Qed.

Lemma snippets_row_vis (cols : list string) (k : Z) (r : row) :
  exists x, col (snippets_row cols k r) "visibility" = SText x /\ In x VISIBILITY_VALUES.
Proof.
  unfold snippets_row.
  eapply (fill_fix_valid "visibility" VISIBILITY_VALUES "PRIVATE"); [| simpl; tauto | reflexivity].
  unfold fill_visibility. apply fill_nonnull. discriminate.
Qed.

Lemma snippets_row_frame (cols : list string) (k : Z) (r : row) (c : string) :
  c <> "visibility" -> col (snippets_row cols k r) c = col r c.
Proof.
  intros Hc. unfold snippets_row, pre_snippets.
  rewrite fix_visibility_col, fill_visibility_col, addc_col by exact Hc. reflexivity.
Qed.

Lemma snippets_row_cases (cols : list string) (k : Z) (r : row) :
  (str_in "visibility" cols = false -> col (snippets_row cols k r) "visibility" = SText "PRIVATE") /\
  (str_in "visibility" cols = true -> is_null_or_empty (col r "visibility") = true ->
     col (snippets_row cols k r) "visibility" =
     SText (if sql_eq_int (col r "is_public") 1 then "PUBLIC" else "PRIVATE")) /\
  (forall x, In x VISIBILITY_VALUES -> str_in "visibility" cols = true -> col r "visibility" = SText x ->
     snippets_row cols k r = r).
Proof.
  unfold snippets_row.
  assert (Hpub : col (pre_snippets cols r) "is_public" = col r "is_public")
    by (unfold pre_snippets; frame_cols; reflexivity).
  assert (HP0 : col (pre_snippets cols r) "visibility" =
                if str_in "visibility" cols then col r "visibility" else SText "PRIVATE")
    by apply addc_col_eq.
  split; [|split].
  - intros Hc. rewrite Hc in HP0.
    unfold fix_visibility, fill_visibility.
    rewrite (fill_keeps "visibility" _ _ "PRIVATE") by (exact HP0 || discriminate).
    rewrite (fix_keeps "visibility" VISIBILITY_VALUES _ _ "PRIVATE") by (exact HP0 || (simpl; tauto)).
    exact HP0.
  - intros Hc Hn. rewrite Hc in HP0.
    unfold fix_visibility, fill_visibility. rewrite HP0, Hn, Hpub.
    set (v := if sql_eq_int _ 1 then _ else _).
    assert (Hv : In v VISIBILITY_VALUES) by (subst v; destruct (sql_eq_int _ 1); simpl; tauto).
    rewrite (fix_keeps "visibility" VISIBILITY_VALUES _ _ v) by (exact Hv || apply col_ins_eq).
    apply col_ins_eq.
  - intros x Hx Hc Hr. rewrite Hc, Hr in HP0.
    assert (Hne : x <> "") by (apply (in_values_nonempty x VISIBILITY_VALUES Hx); simpl; intuition discriminate).
    unfold fix_visibility, fill_visibility.
    rewrite (fill_keeps "visibility" _ _ x) by assumption.
    rewrite (fix_keeps "visibility" VISIBILITY_VALUES _ _ x) by assumption.
    unfold pre_snippets, addc. rewrite Hc. reflexivity.
Qed.

Lemma create_index_Some (t t' : sql_table) (cols : list string) :
  create_index t cols = Some t' -> t' = t /\ forall c, In c cols -> str_in c (columns t) = true.
Proof.
  unfold create_index. destruct (forallb _ cols) eqn:E; [|discriminate]. intros [= <-].
  split; [reflexivity|]. rewrite forallb_forall in E. exact E.
Qed.

Lemma create_index_None (t : sql_table) (cols : list string) :
  create_index t cols = None -> exists c, In c cols /\ str_in c (columns t) = false.
Proof.
  unfold create_index. destruct (forallb _ cols) eqn:E; [discriminate|]. intros _.
  apply forallb_false_ex. exact E.
Qed.

Lemma ensureSnippetColumns_Some (t t' : sql_table) :
  ensureSnippetColumns t = Some t' ->
  str_in "is_public" (columns t) = true /\
  str_in "user_id" (columns t) = true /\
  str_in "visibility" (columns t') = true /\
  (str_in "visibility" (columns t) = true -> columns t' = columns t) /\
  forall k, rows t' !! k = snippets_row (columns t) k <$> rows t !! k.
Proof.
  unfold ensureSnippetColumns. intros H. cbv zeta in H.
  dest_exec H t2 E2; [|discriminate]. simpl in H.
  dest_exec H t3 E3; [|discriminate]. simpl in H.
  destruct (create_index t3 ["visibility"]) as [t4|] eqn:E4; [|discriminate]. simpl in H.
  apply create_index_Some in E4 as [-> _]. apply create_index_Some in H as [-> I].
  apply exec_update_Some in E2 as [R2 [C2 L2]], E3 as [_ [C3 L3]].
  pose proof (R2 "is_public" ltac:(simpl; tauto)) as A. cols_ensure_in A.
  pose proof (I "user_id" ltac:(simpl; tauto)) as U. rewrite C3, C2 in U. cols_ensure_in U.
  split; [exact A|]. split; [exact U|]. split; [|split].
  - rewrite C3, C2. apply str_in_cols_ensure_eq.
  - intros Hv. rewrite C3, C2, ensureColumn_present by exact Hv. reflexivity.
  - intros k. rewrite L3, L2, ensureColumn_lookup.
    unfold snippets_row, pre_snippets. destruct (rows t !! k); reflexivity.
Qed.

Lemma ensureSnippetColumns_None (t : sql_table) :
  ensureSnippetColumns t = None ->
  str_in "is_public" (columns t) = false \/ str_in "user_id" (columns t) = false.
Proof.
  unfold ensureSnippetColumns. intros H. cbv zeta in H.
  dest_exec H t2 E2; simpl in H.
  2:{ apply exec_update_None in E2 as [c [Hc Hn]].
      simpl in Hc. destruct Hc as [<-|[<-|[]]]; cols_ensure_in Hn; [discriminate | left; exact Hn]. }
  apply exec_update_Some in E2 as [_ [C2 _]].
  dest_exec H t3 E3; simpl in H.
  2:{ apply exec_update_None in E3 as [c [Hc Hn]]. rewrite C2 in Hn.
      simpl in Hc. destruct Hc as [<-|[]]. cols_ensure_in Hn. discriminate. }
  apply exec_update_Some in E3 as [_ [C3 _]].
  destruct (create_index t3 ["visibility"]) as [t4|] eqn:E4; simpl in H.
  2:{ apply create_index_None in E4 as [c [Hc Hn]]. rewrite C3, C2 in Hn.
      simpl in Hc. destruct Hc as [<-|[]]. cols_ensure_in Hn. discriminate. }
  apply create_index_Some in E4 as [-> _].
  apply create_index_None in H as [c [Hc Hn]]. rewrite C3, C2 in Hn.
  simpl in Hc. destruct Hc as [<-|[<-|[]]]; cols_ensure_in Hn; [right; exact Hn | discriminate].
Qed.

Lemma table_eq (t1 t2 : sql_table) :
  columns t1 = columns t2 -> (forall k, rows t1 !! k = rows t2 !! k) -> t1 = t2.
Proof.
  destruct t1 as [c1 r1], t2 as [c2 r2]. cbn [columns rows]. intros -> H.
  f_equal. apply map_eq. exact H.
Qed.

(** [ensureUsersColumns] (the [users] part of the startup migration)
    succeeds exactly when the table has the legacy [is_admin] and
    [is_active] columns (the [UPDATE]s name them); it then keeps every row,
    adds the six columns, and leaves each row with a [role] among
    [ROLE_VALUES], a [status] among [STATUS_VALUES], a non-NULL
    [failed_login_attempts] (0 when the column is added or was NULL, the
    old value otherwise, a negative one included) and a non-NULL
    [session_version] that is at least 1 when an integer; every other
    column of the row is unchanged.  Running it again changes nothing. *)
Theorem ensureUsersColumns_normalizes (t : sql_table) :
  (ensureUsersColumns t = None <->
   str_in "is_admin" (columns t) = false \/ str_in "is_active" (columns t) = false) /\
  forall t', ensureUsersColumns t = Some t' ->
    (forall k, is_Some (rows t' !! k) <-> is_Some (rows t !! k)) /\
    (forall x, In x users_added_columns -> str_in x (columns t') = true) /\
    (forall k r', rows t' !! k = Some r' -> exists r, rows t !! k = Some r /\
       (exists x, col r' "role" = SText x /\ In x ROLE_VALUES) /\
       (exists x, col r' "status" = SText x /\ In x STATUS_VALUES) /\
       col r' "failed_login_attempts" <> SNull /\
       col r' "failed_login_attempts" =
         match (if str_in "failed_login_attempts" (columns t)
                then col r "failed_login_attempts" else SInt 0) with
         | SNull => SInt 0
         | v => v
         end /\
       col r' "session_version" <> SNull /\
       (forall z, col r' "session_version" = SInt z -> 1 <= z) /\
       (forall c, ~ In c users_added_columns -> col r' c = col r c)) /\
    ensureUsersColumns t' = Some t'.
Proof.
  assert (Hnorm : forall t', ensureUsersColumns t = Some t' ->
    forall k r', rows t' !! k = Some r' -> exists r, rows t !! k = Some r /\
       (exists x, col r' "role" = SText x /\ In x ROLE_VALUES) /\
       (exists x, col r' "status" = SText x /\ In x STATUS_VALUES) /\
       col r' "failed_login_attempts" <> SNull /\
       col r' "failed_login_attempts" =
         match (if str_in "failed_login_attempts" (columns t)
                then col r "failed_login_attempts" else SInt 0) with
         | SNull => SInt 0
         | v => v
         end /\
       col r' "session_version" <> SNull /\
       (forall z, col r' "session_version" = SInt z -> 1 <= z) /\
       (forall c, ~ In c users_added_columns -> col r' c = col r c)).
  { intros t' E k r' Hr'. apply ensureUsersColumns_Some in E as [_ [_ [_ [_ L]]]].
    rewrite L in Hr'. destruct (rows t !! k) as [r|]; [|discriminate].
    injection Hr' as <-. exists r. split; [reflexivity|].
    split; [apply users_row_role|]. split; [apply users_row_status|].
    split; [apply users_row_failed|]. split; [apply users_row_failed_value|].
    destruct (users_row_session (columns t) k r) as [S1 S2].
    split; [exact S1|]. split; [exact S2|]. intros c Hc. apply users_row_frame. exact Hc. }
  split.
  - split; [apply ensureUsersColumns_None|].
    destruct (ensureUsersColumns t) as [t'|] eqn:E; [|reflexivity].
    apply ensureUsersColumns_Some in E as [A [B _]]. rewrite A, B. intros [H|H]; discriminate.
  - intros t' E. pose proof (Hnorm t' E) as N.
    pose proof (ensureUsersColumns_Some t t' E) as [A [B [C [_ L]]]].
    assert (Hcols : forall x, In x users_added_columns -> str_in x (columns t') = true)
      by (intros x Hx; apply C; right; exact Hx).
    split; [|split; [exact Hcols|split; [exact N|]]].
    + intros k. rewrite L. destruct (rows t !! k); simpl; split; intros H; inversion H; eauto.
    + destruct (ensureUsersColumns t') as [t''|] eqn:E'.
      * apply ensureUsersColumns_Some in E' as [_ [_ [_ [C' L']]]].
        f_equal. apply table_eq.
        -- apply C'. apply forallb_forall. exact Hcols.
        -- intros k. rewrite L'. destruct (rows t' !! k) as [r'|] eqn:Hk; [|reflexivity].
           simpl. f_equal.
           destruct (N k r' Hk) as [r [_ [Hrole [Hstat [Hf [_ [Hs1 [Hs2 _]]]]]]]].
           apply users_row_id; try assumption. apply forallb_forall. exact Hcols.
      * apply ensureUsersColumns_None in E'.
        rewrite (proj2 (C "is_admin") (or_introl A)), (proj2 (C "is_active") (or_introl B)) in E'.
        destruct E'; discriminate.
Qed.

(** How the migration derives [role] and [status].  The legacy [is_admin]
    / [is_active] flags are consulted only when the column already exists
    and is NULL or empty for the row: row 0 becomes READ_ONLY, [is_admin = 1]
    ADMIN, otherwise USER; [is_active = 0] SUSPENDED, otherwise ACTIVE.
    When the column is added by the migration itself, [ALTER TABLE ... ADD
    COLUMN ... DEFAULT] has already filled it, so every existing user becomes
    USER (including legacy admins and row 0) and ACTIVE (including
    deactivated accounts).  A valid existing value is kept. *)
Theorem ensureUsersColumns_role_status (t t' : sql_table) (k : Z) (r r' : row) :
  ensureUsersColumns t = Some t' -> rows t !! k = Some r -> rows t' !! k = Some r' ->
  (str_in "role" (columns t) = false -> col r' "role" = SText "USER") /\
  (str_in "status" (columns t) = false -> col r' "status" = SText "ACTIVE") /\
  (str_in "role" (columns t) = true -> is_null_or_empty (col r "role") = true ->
     col r' "role" = SText (if Z.eqb k 0 then "READ_ONLY"
                            else if sql_eq_int (col r "is_admin") 1 then "ADMIN" else "USER")) /\
  (str_in "status" (columns t) = true -> is_null_or_empty (col r "status") = true ->
     col r' "status" = SText (if sql_eq_int (col r "is_active") 0 then "SUSPENDED" else "ACTIVE")) /\
  (forall x, In x ROLE_VALUES -> str_in "role" (columns t) = true -> col r "role" = SText x ->
     col r' "role" = SText x) /\
  (forall x, In x STATUS_VALUES -> str_in "status" (columns t) = true -> col r "status" = SText x ->
     col r' "status" = SText x).
Proof.
  intros E Hr Hr'. apply ensureUsersColumns_Some in E as [_ [_ [_ [_ L]]]].
  rewrite L, Hr in Hr'. injection Hr' as <-.
  destruct (users_row_role_cases (columns t) k r) as [R1 [R2 R3]].
  destruct (users_row_status_cases (columns t) k r) as [S1 [S2 S3]].
  repeat split; assumption.
Qed.

(** A [users] table from before roles: an admin (rowid 1) and a
    deactivated account (rowid 2). *)
Definition legacy_users : sql_table :=
  mkTable ["id"; "username"; "password_hash"; "is_admin"; "is_active"]
    (<[1 := <["username" := SText "alice"]> (<["is_admin" := SInt 1]> (<["is_active" := SInt 1]> ∅))]>
     (<[2 := <["username" := SText "bob"]> (<["is_admin" := SInt 0]> (<["is_active" := SInt 0]> ∅))]> ∅)).

Definition legacy_users_migrated : sql_table :=
  match ensureUsersColumns legacy_users with Some t => t | None => legacy_users end.

Definition row_at (t : sql_table) (k : Z) : row :=
  match rows t !! k with Some r => r | None => ∅ end.

Lemma ensureUsersColumns_role_status_witness :
  col (row_at legacy_users_migrated 1) "role" = SText "USER" /\
  col (row_at legacy_users_migrated 2) "status" = SText "ACTIVE".
Proof.
  split.
  - destruct (ensureUsersColumns_role_status legacy_users legacy_users_migrated 1
                (row_at legacy_users 1) (row_at legacy_users_migrated 1)
                ltac:(vm_compute; reflexivity) ltac:(vm_compute; reflexivity)
                ltac:(vm_compute; reflexivity)) as [R _].
    apply R. vm_compute. reflexivity.
  - destruct (ensureUsersColumns_role_status legacy_users legacy_users_migrated 2
                (row_at legacy_users 2) (row_at legacy_users_migrated 2)
                ltac:(vm_compute; reflexivity) ltac:(vm_compute; reflexivity)
                ltac:(vm_compute; reflexivity)) as [_ [S _]].
    apply S. vm_compute. reflexivity.
Defined.

(** [ensureSnippetColumns] succeeds exactly when the table has the legacy
    [is_public] column (an [UPDATE] names it) and a [user_id] column (an
    index is built on it); it keeps every row and leaves each with a
    [visibility] among [VISIBILITY_VALUES], every other column unchanged.
    [is_public] is consulted only when the [visibility] column already
    exists and is NULL or empty: when the migration adds the column, every
    existing snippet becomes PRIVATE, public ones included.  A row with a
    valid visibility is left as it is, and running it again changes
    nothing. *)
Theorem ensureSnippetColumns_normalizes (t : sql_table) :
  (ensureSnippetColumns t = None <->
   str_in "is_public" (columns t) = false \/ str_in "user_id" (columns t) = false) /\
  forall t', ensureSnippetColumns t = Some t' ->
    (forall k, is_Some (rows t' !! k) <-> is_Some (rows t !! k)) /\
    str_in "visibility" (columns t') = true /\
    (forall k r r', rows t !! k = Some r -> rows t' !! k = Some r' ->
       (exists x, col r' "visibility" = SText x /\ In x VISIBILITY_VALUES) /\
       (forall c, c <> "visibility" -> col r' c = col r c) /\
       (str_in "visibility" (columns t) = false -> col r' "visibility" = SText "PRIVATE") /\
       (str_in "visibility" (columns t) = true -> is_null_or_empty (col r "visibility") = true ->
          col r' "visibility" = SText (if sql_eq_int (col r "is_public") 1 then "PUBLIC" else "PRIVATE")) /\
       (forall x, In x VISIBILITY_VALUES -> str_in "visibility" (columns t) = true ->
          col r "visibility" = SText x -> r' = r)) /\
    ensureSnippetColumns t' = Some t'.
Proof.
  split.
  - split; [apply ensureSnippetColumns_None|].
    destruct (ensureSnippetColumns t) as [t'|] eqn:E; [|reflexivity].
    apply ensureSnippetColumns_Some in E as [A [U _]]. rewrite A, U. intros [H|H]; discriminate.
  - intros t' E. pose proof (ensureSnippetColumns_Some t t' E) as [A [U [V [_ L]]]].
    assert (Hrow : forall k r r', rows t !! k = Some r -> rows t' !! k = Some r' ->
                   r' = snippets_row (columns t) k r)
      by (intros k r r' H1 H2; rewrite L, H1 in H2; injection H2 as <-; reflexivity).
    split; [|split; [exact V|split]].
    + intros k. rewrite L. destruct (rows t !! k); simpl; split; intros H; inversion H; eauto.
    + intros k r r' H1 H2. rewrite (Hrow k r r' H1 H2).
      destruct (snippets_row_cases (columns t) k r) as [P1 [P2 P3]].
      split; [apply snippets_row_vis|]. split; [intros c Hc; apply snippets_row_frame; exact Hc|].
      split; [exact P1|]. split; [exact P2|]. intros x Hx Hc Hv. exact (P3 x Hx Hc Hv).
    + destruct (ensureSnippetColumns t') as [t''|] eqn:E'.
      * pose proof (ensureSnippetColumns_Some t' t'' E') as [_ [_ [_ [C' L']]]].
        f_equal. apply table_eq; [exact (C' V)|].
        intros k. rewrite L'. destruct (rows t' !! k) as [r'|] eqn:Hk; [|reflexivity].
        simpl. f_equal.
        assert (Hs : is_Some (rows t !! k)) by (rewrite L in Hk; destruct (rows t !! k); [eauto | discriminate]).
        destruct Hs as [r Hr].
        destruct (snippets_row_vis (columns t) k r) as [x [Hx Vx]].
        rewrite <- (Hrow k r r' Hr Hk) in Hx.
        exact (proj2 (proj2 (snippets_row_cases (columns t') k r')) x Vx V Hx).
      * apply ensureSnippetColumns_None in E'.
        assert (Hcols : forall c, c <> "visibility" ->
                        str_in c (columns t') = str_in c (columns t)).
        { intros c Hc. unfold ensureSnippetColumns in E. cbv zeta in E.
          dest_exec E t2 E2; [|discriminate]. simpl in E.
          dest_exec E t3 E3; [|discriminate]. simpl in E.
          destruct (create_index t3 ["visibility"]) as [t4|] eqn:E4; [|discriminate]. simpl in E.
          apply create_index_Some in E4 as [-> _]. apply create_index_Some in E as [-> _].
          apply exec_update_Some in E2 as [_ [C2 _]], E3 as [_ [C3 _]].
          rewrite C3, C2. apply str_in_cols_ensure. exact Hc. }
        rewrite !Hcols in E' by discriminate. destruct E'; congruence.
Qed.

End MigrationFacts.

(* ------------------------------------------------------------------ *)
(** ** Seeding the settings and feature flags *)

Module SeedFacts.
Import Migration.

(** [INSERT ... ON CONFLICT(key) DO NOTHING] on a key-value table. *)
Definition insert_absent {A : Type} (m : gmap string A) (k : string) (v : A) : gmap string A :=
  match m !! k with Some _ => m | None => <[k := v]> m end.

Definition seed_all {A : Type} (l : list (string * A)) (m : gmap string A) : gmap string A :=
  fold_left (fun acc (kv : string * A) => insert_absent acc kv.1 kv.2) l m.

Lemma seedDefaults_eq (s : gmap string string) (f : gmap string bool) :
  seedDefaults s f = (seed_all seed_settings s, seed_all seed_flags f).
Proof. reflexivity. Qed.

Lemma insert_absent_keep {A : Type} (m : gmap string A) (k k' : string) (v v' : A) :
  m !! k = Some v -> insert_absent m k' v' !! k = Some v.
Proof.
  intros H. unfold insert_absent. destruct (m !! k') eqn:E; [exact H|].
  rewrite lookup_insert_ne; [exact H|]. intros ->. congruence.
Qed.

Lemma seed_all_keep {A : Type} (l : list (string * A)) (m : gmap string A) (k : string) (v : A) :
  m !! k = Some v -> seed_all l m !! k = Some v.
Proof.
  unfold seed_all. revert m. induction l as [|[k0 v0] l IH]; intros m H; simpl; [exact H|].
  apply IH. apply insert_absent_keep. exact H.
Qed.

Lemma seed_all_other {A : Type} (l : list (string * A)) (m : gmap string A) (k : string) :
  ~ In k (map fst l) -> seed_all l m !! k = m !! k.
Proof.
  unfold seed_all. revert m. induction l as [|[k0 v0] l IH]; intros m H; simpl in *; [reflexivity|].
  rewrite IH by tauto. unfold insert_absent. destruct (m !! k0); [reflexivity|].
  apply lookup_insert_ne. intros ->. tauto.
Qed.

Lemma seed_all_new {A : Type} (l : list (string * A)) (m : gmap string A) (k : string) (v : A) :
  NoDup (map fst l) -> m !! k = None -> In (k, v) l -> seed_all l m !! k = Some v.
Proof.
  unfold seed_all. revert m. induction l as [|[k0 v0] l IH]; intros m Hnd Hm Hin; [destruct Hin|].
  simpl in Hnd. inversion Hnd as [|? ? Hnotin Hnd']; subst. simpl.
  destruct Hin as [[= -> ->]|Hin].
  - apply (seed_all_keep l). unfold insert_absent. rewrite Hm. apply lookup_insert_eq.
  - apply IH; [exact Hnd' | | exact Hin].
    unfold insert_absent. destruct (m !! k0); [exact Hm|].
    rewrite lookup_insert_ne; [exact Hm|]. intros ->.
    apply Hnotin, list_elem_of_In, (in_map fst _ (k, v)). exact Hin.
Qed.

Lemma seed_all_present {A : Type} (l : list (string * A)) (m : gmap string A) (k : string) :
  In k (map fst l) -> is_Some (seed_all l m !! k).
Proof.
  unfold seed_all. revert m. induction l as [|[k0 v0] l IH]; intros m H; simpl in *; [destruct H|].
  destruct H as [->|H]; [|apply IH; exact H].
  assert (Hs : is_Some (insert_absent m k v0 !! k)).
  { unfold insert_absent. destruct (m !! k) eqn:E; [rewrite E; eauto | rewrite lookup_insert_eq; eauto]. }
  destruct Hs as [x Hx]. exists x. apply (seed_all_keep l). exact Hx.
Qed.

Lemma seed_all_noop {A : Type} (l : list (string * A)) (m : gmap string A) :
  (forall k, In k (map fst l) -> is_Some (m !! k)) -> seed_all l m = m.
Proof.
  unfold seed_all. revert m. induction l as [|[k0 v0] l IH]; intros m H; simpl; [reflexivity|].
  unfold insert_absent at 2. destruct (H k0 ltac:(simpl; tauto)) as [x Hx]. rewrite Hx.
  apply IH. intros k Hk. apply H. simpl. tauto.
Qed.

(** [seedDefaults] never overwrites a row: a key that has a value keeps
    it; each of the nine settings and three flags that is missing gets its
    default; no other key is touched; and running it again changes nothing.
    The nine setting defaults are exactly the fallbacks that
    [getFoundationSettings] reads with, so a seeded store and an empty one
    give the same foundation settings. *)
Theorem seedDefaults_spec (s : gmap string string) (f : gmap string bool) :
  (forall k v, s !! k = Some v -> (seedDefaults s f).1 !! k = Some v) /\
  (forall k v, f !! k = Some v -> (seedDefaults s f).2 !! k = Some v) /\
  (forall k v, s !! k = None -> In (k, v) seed_settings -> (seedDefaults s f).1 !! k = Some v) /\
  (forall k v, f !! k = None -> In (k, v) seed_flags -> (seedDefaults s f).2 !! k = Some v) /\
  (forall k, ~ In k (map fst seed_settings) -> (seedDefaults s f).1 !! k = s !! k) /\
  (forall k, ~ In k (map fst seed_flags) -> (seedDefaults s f).2 !! k = f !! k) /\
  seedDefaults (seedDefaults s f).1 (seedDefaults s f).2 = seedDefaults s f /\
  seed_settings = SystemConfig.foundation_keys.
Proof.
  rewrite !seedDefaults_eq. cbn [fst snd].
  assert (N1 : NoDup (map fst seed_settings)) by (apply (bool_decide_unpack _); vm_compute; exact I).
  assert (N2 : NoDup (map fst seed_flags)) by (apply (bool_decide_unpack _); vm_compute; exact I).
  split; [intros k v; apply seed_all_keep|].
  split; [intros k v; apply seed_all_keep|].
  split; [intros k v; apply seed_all_new; exact N1|].
  split; [intros k v; apply seed_all_new; exact N2|].
  split; [intros k; apply seed_all_other|].
  split; [intros k; apply seed_all_other|].
  split; [|reflexivity].
  f_equal; apply seed_all_noop; intros k Hk; apply seed_all_present; exact Hk.
Qed.

End SeedFacts.

(* ------------------------------------------------------------------ *)
(** ** Unique usernames *)

Module UsernameFacts.
Import UserRepository.

(** The candidate tested at iteration [i] of [generateUniqueUsername]:
    [baseUsername], then [baseUsername + counter]. *)
Definition cand (base : string) (i : N) : string :=
  if N.eqb i 0 then base else base ++ pretty i.

(** The text [findUsernameCount] compares with the stored names. *)
Definition key (s : string) : string := toLowerCase (toLowerCase s).

Definition taken (db : users_table) (s : string) : Prop := (0 < findUsernameCount db s)%nat.

Lemma lower_pretty_char (x : N) : ascii_lower (pretty_N_char x) = pretty_N_char x.
Proof. unfold pretty_N_char; repeat case_match; reflexivity. Qed.

Lemma lower_pretty_go (x : N) (s : string) :
  toLowerCase s = s -> toLowerCase (pretty_N_go x s) = pretty_N_go x s.
Proof.
  revert s. induction (N.lt_wf_0 x) as [x _ IH]; intros s Hs.
  destruct (decide (x = 0)%N) as [->|Hx]; [by rewrite pretty_N_go_0|].
  rewrite pretty_N_go_step by lia. apply IH; [apply N.div_lt; lia|].
  cbn [toLowerCase]. rewrite lower_pretty_char, Hs. reflexivity.
Qed.

Lemma lower_pretty (n : N) : toLowerCase (pretty n) = pretty n.
Proof.
  unfold pretty, pretty_N. case_decide; [reflexivity|]. apply lower_pretty_go; reflexivity.
Qed.

Lemma pretty_go_nonempty (x : N) (s : string) : s <> "" -> pretty_N_go x s <> "".
Proof.
  revert s. induction (N.lt_wf_0 x) as [x _ IH]; intros s Hs.
  destruct (decide (x = 0)%N) as [->|Hx]; [by rewrite pretty_N_go_0|].
  rewrite pretty_N_go_step by lia. apply IH; [apply N.div_lt; lia| intros E; inversion E].
Qed.

Lemma pretty_nonempty (n : N) : pretty n <> "".
Proof.
  unfold pretty, pretty_N. case_decide; [intros E; inversion E|].
  rewrite pretty_N_go_step by lia. apply pretty_go_nonempty; intros E; inversion E.
Qed.

Lemma key_cand (base : string) (i : N) : i <> 0%N -> key (cand base i) = key base ++ pretty i.
Proof.
  intros Hi. unfold key, cand. destruct (N.eqb_spec i 0); [contradiction|].
  rewrite !StringFacts.toLowerCase_app, !lower_pretty. reflexivity.
Qed.

Lemma key_cand_inj (base : string) (i j : N) : key (cand base i) = key (cand base j) -> i = j.
Proof.
  assert (Hlen : forall n : N, n <> 0%N -> key (cand base n) <> key (cand base 0)).
  { intros n Hn E. rewrite key_cand in E by exact Hn.
    apply (f_equal String.length) in E. rewrite StringFacts.string_length_app in E.
    unfold cand in E; cbn [N.eqb] in E.
    destruct (pretty n) eqn:Ep; [exact (pretty_nonempty n Ep)|]. cbn [String.length] in E. lia. }
  intros E.
  destruct (decide (i = 0)%N) as [->|Hi]; destruct (decide (j = 0)%N) as [->|Hj]; try reflexivity.
  - symmetry in E. exfalso. exact (Hlen j Hj E).
  - exfalso. exact (Hlen i Hi E).
  - rewrite !key_cand in E by assumption.
    apply (inj (String.append (key base))) in E. apply (inj pretty) in E. exact E.
Qed.

Lemma taken_row (db : users_table) (s : string) :
  taken db s ->
  key s ∈ (fun kv : Z * user => toLowerCase (username_normalized kv.2)) <$> map_to_list db.
Proof.
  unfold taken, findUsernameCount, key. intros H.
  destruct (filter _ (map_to_list db)) as [|kv l] eqn:E; cbn [length] in H; [lia|].
  assert (Hkv : kv ∈ kv :: l) by (apply list_elem_of_In; left; reflexivity).
  rewrite <- E in Hkv. apply list_elem_of_filter in Hkv as [Heq Hin].
  apply list_elem_of_fmap. exists kv. split; [symmetry; exact Heq | exact Hin].
Qed.

Lemma loop_taken (db : users_table) (base : string) (f : nat) :
  forall (c : N) (name : string), (1 <= c)%N -> name = cand base (c - 1) ->
  taken db (generate_loop db base f c name) ->
  forall i : N, (c - 1 <= i < c - 1 + N.of_nat f)%N -> taken db (cand base i).
Proof.
  induction f as [|f IH]; intros c name Hc Hn Ht i Hi; [lia|].
  cbn [generate_loop] in Ht. destruct (Nat.ltb 0 _) eqn:E.
  - apply Nat.ltb_lt in E.
    destruct (decide (i = c - 1)%N) as [->|Hne]; [rewrite <- Hn; exact E|].
    apply (IH (c + 1)%N (base ++ pretty c)); [lia| |exact Ht|lia].
    unfold cand. replace (c + 1 - 1)%N with c by lia.
    destruct (N.eqb_spec c 0); [lia|reflexivity].
  - apply Nat.ltb_ge in E. unfold taken in Ht. lia.
Qed.

Lemma loop_cand (db : users_table) (base : string) (f : nat) :
  forall (c : N) (name : string), (1 <= c)%N -> name = cand base (c - 1) ->
  exists i : N, generate_loop db base f c name = cand base i.
Proof.
  induction f as [|f IH]; intros c name Hc Hn; cbn [generate_loop].
  - exists (c - 1)%N. exact Hn.
  - destruct (Nat.ltb 0 _); [|exists (c - 1)%N; exact Hn].
    apply IH; [lia|]. unfold cand. replace (c + 1 - 1)%N with c by lia.
    destruct (N.eqb_spec c 0); [lia|reflexivity].
Qed.

(** [generateUniqueUsername] always ends on a free name: when every one of
    [size db + 1] pairwise distinct candidates were taken, [size db] rows
    would carry [size db + 1] distinct names. *)
Lemma generate_free (db : users_table) (base : string) :
  findUsernameCount db (generateUniqueUsername db base) = 0%nat.
Proof.
  destruct (Nat.eq_dec (findUsernameCount db (generateUniqueUsername db base)) 0%nat) as [E|E];
    [exact E|exfalso].
  assert (Ht : taken db (generate_loop db base (S (size db)) 1%N base)).
  { unfold taken. unfold generateUniqueUsername in E. lia. }
  pose proof (loop_taken db base (S (size db)) 1%N base ltac:(lia) eq_refl Ht) as Hall.
  set (V := (fun kv : Z * user => toLowerCase (username_normalized kv.2)) <$> map_to_list db).
  set (L := (fun n : nat => key (cand base (N.of_nat n))) <$> seq 0 (S (size db))).
  assert (Hsub : L ⊆+ V).
  { apply NoDup_submseteq.
    - apply NoDup_fmap_2_strong; [|apply NoDup_seq].
      intros x y _ _ Exy. apply key_cand_inj in Exy. lia.
    - intros x Hx. unfold L in Hx. apply list_elem_of_fmap in Hx as [n [-> Hn]].
      apply elem_of_seq in Hn. apply taken_row, Hall. lia. }
  apply submseteq_length in Hsub. unfold L, V in Hsub.
  rewrite !length_fmap, length_seq, length_map_to_list in Hsub. lia.
Qed.

(** [generateUniqueUsername(baseUsername)] always returns a username that
    [findUsernameCount] reports as free.  It is [baseUsername] itself when
    that name is free, and otherwise [baseUsername] followed by a positive
    counter. *)
Theorem generateUniqueUsername_free (db : users_table) (base : string) :
  findUsernameCount db (generateUniqueUsername db base) = 0%nat /\
  (findUsernameCount db base = 0%nat -> generateUniqueUsername db base = base) /\
  (generateUniqueUsername db base = base \/
   exists n : N, (1 <= n)%N /\ generateUniqueUsername db base = base ++ pretty n).
Proof.
  split; [apply generate_free|split].
  - intros H. unfold generateUniqueUsername. cbn [generate_loop]. rewrite H. reflexivity.
  - unfold generateUniqueUsername.
    destruct (loop_cand db base (S (size db)) 1%N base ltac:(lia) eq_refl) as [i ->].
    unfold cand. destruct (N.eqb_spec i 0); [left; reflexivity|].
    right. exists i. split; [lia|reflexivity].
Qed.

End UsernameFacts.

(* ------------------------------------------------------------------ *)
(** ** Looking up, suspending and logging in users *)

Module LoginFacts.
Import UserRepository Auth AuthRoutes.

Lemma ascii_lower_idem (c : ascii) : ascii_lower (ascii_lower c) = ascii_lower c.
Proof. destruct c as [[] [] [] [] [] [] [] []]; reflexivity. Qed.

Lemma ascii_lower_upper (c : ascii) : ascii_lower (ascii_upper c) = ascii_lower c.
Proof. destruct c as [[] [] [] [] [] [] [] []]; reflexivity. Qed.

Lemma toLowerCase_idem (s : string) : toLowerCase (toLowerCase s) = toLowerCase s.
Proof.
  induction s as [|c s IH]; [reflexivity|]. cbn [toLowerCase]. rewrite ascii_lower_idem, IH.
  reflexivity.
Qed.

Lemma toLowerCase_upper (s : string) : toLowerCase (toUpperCase s) = toLowerCase s.
Proof.
  induction s as [|c s IH]; [reflexivity|]. cbn [toLowerCase toUpperCase].
  rewrite ascii_lower_upper, IH. reflexivity.
Qed.

Lemma findByUsername_lower (db : users_table) (a b : string) :
  toLowerCase a = toLowerCase b -> findByUsername db a = findByUsername db b.
Proof. intros E. unfold findByUsername. rewrite E. reflexivity. Qed.

Lemma findByUsername_Some (db : users_table) (name : string) (u : user) :
  findByUsername db name = Some u ->
  exists k, db !! k = Some u /\ toLowerCase (username_normalized u) = toLowerCase name.
Proof.
  unfold findByUsername. cbv zeta. rewrite toLowerCase_idem.
  destruct (list_find _ (map_to_list db)) as [[i [k v]]|] eqn:E; [|discriminate].
  intros [= <-]. apply list_find_Some in E as [Hl [Hp _]].
  exists k. split; [|exact Hp].
  apply elem_of_map_to_list. eapply list_elem_of_lookup_2. exact Hl.
Qed.

Lemma findByUsername_None (db : users_table) (name : string) :
  findByUsername db name = None ->
  forall k u, db !! k = Some u -> toLowerCase (username_normalized u) <> toLowerCase name.
Proof.
  unfold findByUsername. cbv zeta. rewrite toLowerCase_idem.
  destruct (list_find _ (map_to_list db)) as [[i [k v]]|] eqn:E; [discriminate|].
  intros _ k u Hk. apply list_find_None in E. rewrite Forall_forall in E.
  apply (E (k, u)). apply elem_of_map_to_list. exact Hk.
Qed.

(** [findByUsername(username)] (ASCII text): it finds a row whose
    normalized name equals the argument up to the letter case of either
    side ([COLLATE NOCASE] on the lower-cased argument), finds nothing only
    when no row's normalized name does, and gives the same answer for any
    two arguments that differ only in letter case. *)
Theorem findByUsername_case_insensitive (db : users_table) (name : string) :
  (forall u, findByUsername db name = Some u ->
     exists k, db !! k = Some u /\ toLowerCase (username_normalized u) = toLowerCase name) /\
  (findByUsername db name = None ->
     forall k u, db !! k = Some u -> toLowerCase (username_normalized u) <> toLowerCase name) /\
  (forall name', toLowerCase name' = toLowerCase name ->
     findByUsername db name' = findByUsername db name).
Proof.
  split; [apply findByUsername_Some|]. split; [apply findByUsername_None|].
  intros name' E. apply findByUsername_lower. exact E.
Qed.

Lemma updateStatus_row (db : users_table) (uid : Z) (st : string) (u : user) :
  uid <> 0 -> db !! uid = Some u ->
  updateStatus db uid st = (<[uid := set_status st u]> db, Some (set_status st u)).
Proof.
  intros Hu Hdb. unfold updateStatus, update_where_not_anon.
  destruct (Z.eqb_spec uid 0) as [E|_]; [contradiction|]. rewrite Hdb.
  cbv [Z.eqb]. unfold findById. rewrite lookup_insert_eq. reflexivity.
Qed.

(** [updateStatus(userId, 'SUSPENDED')] on an existing user other than the
    anonymous one returns the suspended user, and from then on
    [authenticateToken] answers every token of that user, whatever its
    session version, with 403 "Account suspended"; the other rows and the
    answers to the other users' tokens are unchanged. *)
Theorem updateStatus_suspended_blocks_tokens (db : users_table) (uid : Z) (u : user) :
  uid <> 0 -> db !! uid = Some u ->
  snd (updateStatus db uid "SUSPENDED") = Some (set_status "SUSPENDED" u) /\
  is_active (set_status "SUSPENDED" u) = 0 /\
  (forall p : payload, p_id p = uid ->
     verifyRequestToken (fst (updateStatus db uid "SUSPENDED")) (Some (Signed p))
     = AuthRespond (err 403 "Account suspended")) /\
  (forall p : payload, p_id p <> uid ->
     verifyRequestToken (fst (updateStatus db uid "SUSPENDED")) (Some (Signed p))
     = verifyRequestToken db (Some (Signed p))) /\
  (forall k, k <> uid -> fst (updateStatus db uid "SUSPENDED") !! k = db !! k).
Proof.
  intros Hu Hdb. rewrite (updateStatus_row db uid "SUSPENDED" u Hu Hdb). cbn [fst snd].
  split; [reflexivity|]. split; [reflexivity|]. split; [|split].
  - intros p Hp. unfold verifyRequestToken. cbn [jwt_verify]. unfold findById.
    rewrite Hp, lookup_insert_eq. reflexivity.
  - intros p Hp. unfold verifyRequestToken. cbn [jwt_verify]. unfold findById.
    rewrite lookup_insert_ne by congruence. reflexivity.
  - intros k Hk. apply lookup_insert_ne. congruence.
Qed.

(** A users table whose rows are stored under their own [id]. *)
Definition ids_match (db : users_table) : Prop := forall k u, db !! k = Some u -> id u = k.

(** [router.post('/login')] answers 200 only for the user that
    [findByUsername] finds, when it is not locked as [isLocked] reads the
    stored lock on the server's time zone, its password hash is set
    and accepted, and it is neither PENDING nor suspended.  Then the row is
    the one rewritten by [updateLastLogin] (attempts reset, lock cleared,
    last login now), the response carries that refreshed row, the session
    token is minted from it, and no other row changes. *)
Theorem login_success (compare : string -> string -> bool) (policy : lockout_policy)
  (tz now : Z) (db : users_table) (name password : string) :
  ids_match db ->
  code (out_resp (login false compare policy tz now db name password)) = 200 ->
  exists u,
    findByUsername db name = Some u /\
    isLocked tz u now = false /\
    password_hash u <> "" /\ compare password (password_hash u) = true /\
    status u <> "PENDING" /\ status u <> "SUSPENDED" /\ is_active u <> 0 /\
    out_db (login false compare policy tz now db name password)
      = <[id u := set_last_login now u]> db /\
    failed_login_attempts (set_last_login now u) = 0 /\
    locked_until (set_last_login now u) = None /\
    last_login_at (set_last_login now u) = Some now /\
    out_resp (login false compare policy tz now db name password)
      = mkResponse 200 [("user", JUser (set_last_login now u))] /\
    out_token (login false compare policy tz now db name password)
      = Some (createSessionToken (set_last_login now u)).
Proof.
  intros Hwf. unfold login. cbn [negb].
  destruct (findByUsername db name) as [u|] eqn:Ef; cbn [out_resp code err];
    [|intros H; discriminate].
  destruct (isLocked tz u now) eqn:El; cbn [out_resp code err]; [intros H; discriminate|].
  destruct (verifyPassword compare (Some u) password) eqn:Ev; cbn [negb out_resp code err];
    [|destruct (recordFailedLogin _ _ _ _ _); cbn [out_resp code err]; intros H; discriminate].
  destruct (String.eqb (status u) "PENDING") eqn:Ep; cbn [out_resp code err];
    [intros H; discriminate|].
  destruct (String.eqb (status u) "SUSPENDED" || Z.eqb (is_active u) 0) eqn:Es;
    cbn [out_resp code err]; [intros H; discriminate|].
  destruct (findByUsername_Some db name u Ef) as [k [Hk _]].
  assert (Hdb : db !! id u = Some u) by (rewrite (Hwf k u Hk); exact Hk).
  assert (Hup : updateLastLogin db (id u) now = <[id u := set_last_login now u]> db).
  { unfold updateLastLogin, update_where. rewrite Hdb. reflexivity. }
  rewrite Hup. unfold findById. rewrite lookup_insert_eq. cbn [out_resp out_db out_token code].
  intros _. exists u.
  unfold verifyPassword in Ev.
  destruct (String.eqb_spec (password_hash u) "") as [_|Hh]; [discriminate|].
  apply orb_false_iff in Es as [Es1 Es2].
  split; [first [reflexivity | exact Ef]|]. split; [exact El|]. split; [exact Hh|].
  split; [exact Ev|].
  split; [apply String.eqb_neq; exact Ep|]. split; [apply String.eqb_neq; exact Es1|].
  split; [apply Z.eqb_neq; exact Es2|].
  repeat split; reflexivity.
Qed.

(** The account used to exercise [login]. *)
Definition alice : user :=
  {| id := 7; username := "Alice"; username_normalized := "alice"; password_hash := "pw";
     role := "USER"; status := "ACTIVE"; is_active := 1; is_admin := 0;
     failed_login_attempts := 2; locked_until := Some 500; force_password_reset := false;
     session_version := 1; last_login_at := None |}.

Definition alice_db : users_table := {[7 := alice]}.

Lemma login_success_witness :
  code (out_resp (login false String.eqb (mkPolicy 5 15) 0 1000 alice_db "ALICE" "pw")) = 200 /\
  out_db (login false String.eqb (mkPolicy 5 15) 0 1000 alice_db "ALICE" "pw")
    = <[7 := set_last_login 1000 alice]> alice_db.
Proof.
  assert (Hc : code (out_resp (login false String.eqb (mkPolicy 5 15) 0 1000 alice_db "ALICE" "pw"))
               = 200) by (vm_compute; reflexivity).
  assert (Hwf : ids_match alice_db).
  { intros k u Hk. unfold alice_db in Hk. apply lookup_singleton_Some in Hk as [<- <-].
    reflexivity. }
  split; [exact Hc|].
  destruct (login_success String.eqb (mkPolicy 5 15) 0 1000 alice_db "ALICE" "pw" Hwf Hc)
    as [u [Hf [_ [_ [_ [_ [_ [_ [Hdb _]]]]]]]]].
  assert (Hu : u = alice) by (vm_compute in Hf; injection Hf as <-; reflexivity).
  rewrite Hdb, Hu. reflexivity.
Defined.

Lemma updateStatus_suspended_blocks_tokens_witness :
  snd (updateStatus alice_db 7 "SUSPENDED") = Some (set_status "SUSPENDED" alice) /\
  verifyRequestToken (fst (updateStatus alice_db 7 "SUSPENDED")) (Some (createSessionToken alice))
    = AuthRespond (err 403 "Account suspended").
Proof.
  destruct (updateStatus_suspended_blocks_tokens alice_db 7 alice ltac:(lia)
              ltac:(vm_compute; reflexivity)) as [H1 [_ [H3 _]]].
  split; [exact H1|]. apply H3. reflexivity.
Defined.

(** [getOrCreateAnonymousUser] and [authenticateToken] on the branch taken
    without an API key. *)
Lemma authenticate_disabled_anon (name : string) (db : users_table) (req : auth_request) :
  ar_apiKey req = false \/ ar_user req = None ->
  authenticateToken true name db req
  = (AuthNext (req_user_of (getOrCreateAnonymousUser db name).1),
     (getOrCreateAnonymousUser db name).2).
Proof.
  intros H. unfold authenticateToken.
  destruct (ar_user req) as [ru|]; [destruct (ar_apiKey req); [intuition congruence|]|];
    destruct (getOrCreateAnonymousUser db name); reflexivity.
Qed.

(** With [DISABLE_ACCOUNTS], [authenticateToken] lets every request through.
    A request without an API key runs as the anonymous user, stored at row
    [0]: created as a READ_ONLY, ACTIVE user without password hash when that
    row is missing (and nothing else changes), reused as it is otherwise; a
    later request runs as the same user and changes nothing. *)
Theorem authenticateToken_disabled_accounts (name : string) (db : users_table)
  (req : auth_request) :
  (exists ru, fst (authenticateToken true name db req) = AuthNext ru) /\
  (ar_apiKey req = false \/ ar_user req = None ->
   exists a,
     fst (authenticateToken true name db req) = AuthNext (req_user_of a) /\
     snd (authenticateToken true name db req) !! 0 = Some a /\
     (forall k, k <> 0 -> snd (authenticateToken true name db req) !! k = db !! k) /\
     (db !! 0 = None ->
        id a = 0 /\ role a = "READ_ONLY" /\ status a = "ACTIVE" /\ password_hash a = "") /\
     (db !! 0 = Some a -> snd (authenticateToken true name db req) = db) /\
     (forall name' req', ar_apiKey req' = false \/ ar_user req' = None ->
        authenticateToken true name' (snd (authenticateToken true name db req)) req'
        = (AuthNext (req_user_of a), snd (authenticateToken true name db req)))).
Proof.
  split.
  - unfold authenticateToken.
    destruct (ar_user req) as [ru|]; [destruct (ar_apiKey req); [eexists; reflexivity|]|];
      destruct (getOrCreateAnonymousUser db name); eexists; reflexivity.
  - intros H. rewrite (authenticate_disabled_anon name db req H).
    unfold getOrCreateAnonymousUser.
    destruct (db !! 0) as [a|] eqn:E; cbn [fst snd].
    + exists a. split; [reflexivity|]. split; [exact E|]. split; [reflexivity|].
      split; [discriminate|]. split; [reflexivity|].
      intros name' req' H'. rewrite (authenticate_disabled_anon name' db req' H').
      unfold getOrCreateAnonymousUser. rewrite E. reflexivity.
    + eexists. split; [reflexivity|]. split; [apply lookup_insert_eq|].
      split; [intros k Hk; apply lookup_insert_ne; congruence|].
      split; [intros _; repeat split; reflexivity|].
      split; [intros Hs; discriminate|].
      intros name' req' H'. rewrite (authenticate_disabled_anon name' _ req' H').
      unfold getOrCreateAnonymousUser. rewrite lookup_insert_eq. reflexivity.
Qed.

End LoginFacts.

(* ------------------------------------------------------------------ *)
(** ** Client address and bucket cleanup *)

Module ClientFacts.
Import RateLimiter ClientAddress.

(** The rate limiter's [getClientIp] and the audit log's
    [getRequestContext(req).ipAddress] pick the same address: the first
    [X-Forwarded-For] hop, trimmed, when it is not empty, else [req.ip]; the
    rate limiter uses "unknown" where the audit log records [null].  Neither
    ever yields an empty address, and a forwarded address has no comma. *)
Theorem clientIp_matches_request_context (xff ip : option string) :
  getClientIp xff ip
  = match getRequestContext_ip xff ip with Some v => v | None => "unknown" end /\
  getClientIp xff ip <> "" /\
  getRequestContext_ip xff ip <> Some "" /\
  (forwarded_ip xff <> "" ->
     getClientIp xff ip = forwarded_ip xff /\
     StringFacts.has_char "," (forwarded_ip xff) = false).
Proof.
  unfold getClientIp, getRequestContext_ip. cbv zeta.
  destruct (String.eqb_spec (forwarded_ip xff) "") as [E|E]; cbn [negb].
  - rewrite E.
    destruct ip as [i|]; [destruct (String.eqb_spec i "") as [Ei|Ei]|];
      (split; [reflexivity|]); (split; [intros H; congruence|]);
      (split; [intros H; congruence|]); intros H; contradiction.
  - split; [reflexivity|]. split; [exact E|]. split; [intros H; congruence|].
    intros _. split; [reflexivity|].
    destruct xff as [h|]; [|contradiction]. cbn [forwarded_ip].
    apply StringFacts.has_char_trim, StringFacts.first_part_no_sep.
Qed.

Lemma rateLimit_shape (scope : string) (c : rate_config) (now : Z) (ip : string)
  (b : buckets_map) :
  exists B hs r, rateLimit scope c now ip b = (<[bucket_key scope ip := B]> b, hs, r).
Proof.
  unfold rateLimit. cbv zeta.
  destruct (b !! bucket_key scope ip) as [bk|];
    [destruct (Z.geb _ _); [|destruct (Z.gtb _ _)]|]; do 3 eexists; reflexivity.
Qed.

(** The cleanup sweep of [startCleanupLoop()] never changes what the rate
    limiter decides: while the window length is the one the buckets were
    created with, a request at any later time gets the same headers, the same
    outcome and the same bucket whether or not a sweep ran before it. *)
Theorem cleanupSweep_keeps_decisions (scope : string) (c : rate_config) (now now' : Z)
  (ip : string) (b : buckets_map) :
  now <= now' -> 0 <= cfg_windowMs c ->
  (forall k bk, b !! k = Some bk -> windowMs bk = cfg_windowMs c) ->
  exists B hs r,
    rateLimit scope c now' ip (cleanupSweep now b)
    = (<[bucket_key scope ip := B]> (cleanupSweep now b), hs, r) /\
    rateLimit scope c now' ip b = (<[bucket_key scope ip := B]> b, hs, r).
Proof.
  intros Hle Hw Hb. unfold rateLimit. cbv zeta.
  destruct (b !! bucket_key scope ip) as [bk|] eqn:Eb.
  - destruct (decide (now - windowStart bk <= windowMs bk * 2)) as [Hk|Hk].
    + assert (E : cleanupSweep now b !! bucket_key scope ip = Some bk).
      { unfold cleanupSweep. apply map_lookup_filter_Some. split; [exact Eb|exact Hk]. }
      rewrite E.
      destruct (Z.geb _ _); [|destruct (Z.gtb _ _)]; do 3 eexists; split; reflexivity.
    + assert (E : cleanupSweep now b !! bucket_key scope ip = None).
      { unfold cleanupSweep. apply map_lookup_filter_None. right.
        intros x Hx. rewrite Eb in Hx. injection Hx as <-. exact Hk. }
      rewrite E.
      assert (Hg : Z.geb (now' - windowStart bk) (cfg_windowMs c) = true).
      { apply Z.geb_le. rewrite (Hb _ _ Eb) in Hk. lia. }
      rewrite Hg. do 3 eexists; split; reflexivity.
  - assert (E : cleanupSweep now b !! bucket_key scope ip = None).
    { unfold cleanupSweep. apply map_lookup_filter_None. left. exact Eb. }
    rewrite E. do 3 eexists; split; reflexivity.
Qed.

Definition sweep_cfg : rate_config := mkRateConfig 1000 3 10 100.

Definition sweep_buckets : buckets_map :=
  {[ "auth:10.0.0.1" := mkBucket 5 0 1000 ]}.

Lemma cleanupSweep_keeps_decisions_witness :
  snd (rateLimit "auth" sweep_cfg 2500 "10.0.0.1" (cleanupSweep 2500 sweep_buckets))
  = snd (rateLimit "auth" sweep_cfg 2500 "10.0.0.1" sweep_buckets).
Proof.
  destruct (cleanupSweep_keeps_decisions "auth" sweep_cfg 2500 2500 "10.0.0.1" sweep_buckets
              ltac:(lia) ltac:(vm_compute; discriminate)
              ltac:(intros k bk Hk; unfold sweep_buckets in Hk;
                     apply lookup_singleton_Some in Hk as [_ <-]; reflexivity))
    as [B [hs [r [E1 E2]]]].
  rewrite E1, E2. reflexivity.
Defined.

End ClientFacts.

(* ------------------------------------------------------------------ *)
(** ** [GET /config] against [POST /register] *)

Module ConfigRouteFacts.
Import Auth AuthRoutes AuthConfig.

Lemma allowNewAccounts_value (disableAccounts disableInternal allowPw : bool)
  (reg comm maint : string) (db : users_table) :
  json_get "allowNewAccounts"
    (body (configRoute disableAccounts disableInternal allowPw reg comm maint db))
  = Some (JBool (negb (Nat.ltb 0 (userCount db)) ||
                 (negb disableAccounts
                  && negb (String.eqb (normalizeRegistrationMode reg) CLOSED)
                  && negb disableInternal))).
Proof. reflexivity. Qed.

(** With [DISABLE_ACCOUNTS] off and at least one user, [GET /config]
    reports [allowNewAccounts] exactly when [POST /register] does not refuse
    with 403.  Before the first user it always reports [true], even when
    [DISABLE_INTERNAL_ACCOUNTS] makes [POST /register] answer 403.  With
    [DISABLE_ACCOUNTS] on, it reports [true] exactly when there is no user. *)
Theorem configRoute_allowNewAccounts (disableInternal allowPw : bool) (reg comm maint : string)
  (hash : string -> string) (db : users_table) (name password : string) :
  (Nat.ltb 0 (userCount db) = true ->
     json_get "allowNewAccounts"
       (body (configRoute false disableInternal allowPw reg comm maint db))
     = Some (JBool (negb (Z.eqb (code (out_resp (register disableInternal hash reg db name password)))
                                403)))) /\
  (userCount db = 0%nat ->
     json_get "allowNewAccounts"
       (body (configRoute false disableInternal allowPw reg comm maint db)) = Some (JBool true) /\
     (disableInternal = true ->
        code (out_resp (register disableInternal hash reg db name password)) = 403)) /\
  json_get "allowNewAccounts" (body (configRoute true disableInternal allowPw reg comm maint db))
  = Some (JBool (negb (Nat.ltb 0 (userCount db)))).
Proof.
  rewrite !allowNewAccounts_value. split; [|split].
  - intros Hu. rewrite Hu. unfold register. rewrite Hu. cbn [negb orb andb].
    destruct disableInternal; cbn [negb andb]; [rewrite andb_false_r; reflexivity|].
    rewrite andb_true_r.
    destruct (String.eqb (normalizeRegistrationMode reg) CLOSED) eqn:Ec; cbn [negb];
      [reflexivity|].
    destruct (String.eqb (normalizeRegistrationMode reg) APPROVAL);
      (destruct (createUser hash db name password _ _) as [[u db']|];
       [|reflexivity]);
      cbn [String.eqb Ascii.eqb Bool.eqb andb]; reflexivity.
  - intros Hu. split.
    + replace (Nat.ltb 0 (userCount db)) with false by (rewrite Hu; reflexivity). reflexivity.
    + intros ->. reflexivity.
  - cbn [negb andb]. rewrite orb_false_r. reflexivity.
Qed.

End ConfigRouteFacts.

(* ------------------------------------------------------------------ *)
(** ** Guards of the admin user routes *)

Module AdminRouteFacts.
Import AdminRoutes.

Lemma ascii_upper_idem (c : ascii) : ascii_upper (ascii_upper c) = ascii_upper c.
Proof. destruct c as [[] [] [] [] [] [] [] []]; reflexivity. Qed.

Lemma toUpperCase_idem (s : string) : toUpperCase (toUpperCase s) = toUpperCase s.
Proof.
  induction s as [|c s IH]; [reflexivity|]. cbn [toUpperCase]. rewrite ascii_upper_idem, IH.
  reflexivity.
Qed.


(** The admin routes that change a user's status, role or sessions refuse,
    with 400 and without touching the table or writing an audit entry, an
    admin acting on their own account and a status or role outside the
    editable ones; the value is read case-insensitively, and an accepted
    change answers 200 with its audit action.  The force-password-reset
    route has no such guard: it answers 200 even for the admin's own
    account, and an absent value means [true]. *)
Theorem admin_user_routes_guards (actor uid : Z) (s : string) (v : body_value)
  (db : users_table) :
  (actor = uid ->
     patchStatus actor uid s db
     = mkAdminOut (msg 400 "Cannot modify your own account in this action") db [] /\
     patchRole actor uid s db
     = mkAdminOut (msg 400 "Cannot modify your own account in this action") db [] /\
     patchResetSessions actor uid db
     = mkAdminOut (msg 400 "Cannot modify your own account in this action") db []) /\
  patchStatus actor uid (toUpperCase s) db = patchStatus actor uid s db /\
  patchRole actor uid (toUpperCase s) db = patchRole actor uid s db /\
  (actor <> uid -> str_in (toUpperCase s) editableStatuses = false ->
     patchStatus actor uid s db = mkAdminOut (msg 400 "Invalid status value") db []) /\
  (actor <> uid -> str_in (toUpperCase s) editableStatuses = true ->
     code (a_resp (patchStatus actor uid s db)) = 200 /\
     a_db (patchStatus actor uid s db) = fst (setUserStatus db uid (toUpperCase s)) /\
     a_audit (patchStatus actor uid s db)
     = [if String.eqb (toUpperCase s) "ACTIVE" then "admin.user.approve"
        else "admin.user.status_change"]) /\
  (actor <> uid -> str_in (toUpperCase s) editableRoles = false ->
     patchRole actor uid s db = mkAdminOut (msg 400 "Invalid role value") db []) /\
  (actor <> uid -> str_in (toUpperCase s) editableRoles = true ->
     code (a_resp (patchRole actor uid s db)) = 200 /\
     a_db (patchRole actor uid s db) = fst (setUserRole db uid (toUpperCase s)) /\
     a_audit (patchRole actor uid s db) = ["admin.user.role_change"]) /\
  (actor <> uid ->
     code (a_resp (patchResetSessions actor uid db)) = 200 /\
     a_db (patchResetSessions actor uid db) = fst (resetUserSessions db uid) /\
     a_audit (patchResetSessions actor uid db) = ["admin.user.reset_sessions"]) /\
  code (a_resp (patchForcePasswordReset actor uid v db)) = 200 /\
  a_db (patchForcePasswordReset actor uid v db)
  = fst (setForcePasswordReset db uid (normalizeBool v true)) /\
  a_audit (patchForcePasswordReset actor uid v db) = ["admin.user.force_password_reset"] /\
  normalizeBool BAbsent true = true.
Proof.
  split; [|split; [|split; [|split; [|split; [|split; [|split; [|split]]]]]]].
  - intros <-. unfold patchStatus, patchRole, patchResetSessions, assertNotSelfMutation.
    rewrite Z.eqb_refl. repeat split.
  - unfold patchStatus. rewrite toUpperCase_idem. reflexivity.
  - unfold patchRole. rewrite toUpperCase_idem. reflexivity.
  - intros Ha Hs. unfold patchStatus, assertNotSelfMutation.
    destruct (Z.eqb_spec uid actor) as [E|_]; [congruence|]. rewrite Hs. reflexivity.
  - intros Ha Hs. unfold patchStatus, assertNotSelfMutation.
    destruct (Z.eqb_spec uid actor) as [E|_]; [congruence|]. rewrite Hs. cbn [negb].
    destruct (setUserStatus db uid (toUpperCase s)). repeat split.
  - intros Ha Hs. unfold patchRole, assertNotSelfMutation.
    destruct (Z.eqb_spec uid actor) as [E|_]; [congruence|]. rewrite Hs. reflexivity.
  - intros Ha Hs. unfold patchRole, assertNotSelfMutation.
    destruct (Z.eqb_spec uid actor) as [E|_]; [congruence|]. rewrite Hs. cbn [negb].
    destruct (setUserRole db uid (toUpperCase s)). repeat split.
  - intros Ha. unfold patchResetSessions, assertNotSelfMutation.
    destruct (Z.eqb_spec uid actor) as [E|_]; [congruence|].
    destruct (resetUserSessions db uid). repeat split.
  - unfold patchForcePasswordReset.
    destruct (setForcePasswordReset db uid (normalizeBool v true)). repeat split.
Qed.

End AdminRouteFacts.
